(** * cgjclicker: the energy-game bot (src/cgjclicker/bot.py)

    A shallow embedding of [bot.py] and the properties of its cooldown
    extractor, its session operations and its run loop.

    Conventions.
    - A Python [str] is a list of Unicode code points.
    - A Python call either returns a value or raises: [pyresult].
    - Durations ([timedelta]) are integer microseconds, as Python stores them;
      second counts handed to the scheduler are rationals (floating-point
      rounding is not modelled).
    - The two standard-library parsers the extractor calls ([json.loads] and
      [datetime.fromisoformat]) are parameters of the development; module
      [Ref] gives executable instances used to run examples.
    - The server, the clocks, the random draws and the interruptions of a
      run are an environment that answers each interaction in turn; the
      program is a state-and-exception computation over it that records
      what it prints, requests and sleeps.
    - [while True] is cut off by a fuel; a run that exhausts it has no
      result.
    - The jitter expression is evaluated in floating point: each value the
      program computes there is a real number within a relative error of
      the exact result of its operation ([rounded]). *)

From Stdlib Require Import List ZArith NArith QArith Qminmax Bool Lia String Ascii.
From Stdlib Require Import Reals Lra.
Import ListNotations.

Set Warnings "-register-all".
Local Open Scope Z_scope.

(** ** Text *)

Definition pychar := N.
Definition pystr := list pychar.

(** An ASCII literal as a Python string. *)
Definition lit (s : string) : pystr := map N_of_ascii (list_ascii_of_string s).

Definition dquote : pychar := 34%N.
Definition newline : pychar := 10%N.

(** A double-quoted ASCII literal. *)
Definition quoted (s : string) : pystr := dquote :: lit s ++ [dquote].

Fixpoint pystr_eqb (a b : pystr) : bool :=
  match a, b with
  | [], [] => true
  | x :: a', y :: b' => N.eqb x y && pystr_eqb a' b'
  | _, _ => false
  end.

(** [s] with the prefix [p] removed, when [s] starts with [p]. *)
Fixpoint strip_prefix (p s : pystr) : option pystr :=
  match p with
  | [] => Some s
  | x :: p' =>
      match s with
      | y :: s' => if N.eqb x y then strip_prefix p' s' else None
      | [] => None
      end
  end.

(** The class [\s] of [re] on a [str] pattern: the code points for which
    [str.isspace] holds. *)
Definition py_isspace (c : pychar) : bool :=
  ((9 <=? c) && (c <=? 13) || (28 <=? c) && (c <=? 32) || (c =? 133) || (c =? 160)
   || (c =? 5760) || (8192 <=? c) && (c <=? 8202) || (c =? 8232) || (c =? 8233)
   || (c =? 8239) || (c =? 8287) || (c =? 12288))%N.

(** [\s+] followed by the continuation [k]: greedy, falling back to a
    shorter run when the continuation fails after a longer one. *)
Fixpoint spaces_then {A} (k : pystr -> option A) (s : pystr) : option A :=
  match s with
  | c :: s' =>
      if py_isspace c then
        match spaces_then k s' with
        | Some r => Some r
        | None => k s'
        end
      else None
  | [] => None
  end.

(** The longest run of characters other than the double quote, and what
    follows it. *)
Fixpoint take_unquoted (s : pystr) : pystr * pystr :=
  match s with
  | c :: s' =>
      if N.eqb c dquote then ([], s)
      else let (run, rest) := take_unquoted s' in (c :: run, rest)
  | [] => ([], [])
  end.

(** The captured attribute value followed by the closing quote. Both
    parts of the group (the first starred class and the starred newline
    group) consume characters other than the quote only, so whatever the
    split between them the capture is a prefix of the unquoted run, and the
    closing quote can only match right after the whole run. *)
Definition quoted_value (s : pystr) : option pystr :=
  let (run, rest) := take_unquoted s in
  match rest with
  | c :: _ => if N.eqb c dquote then Some run else None
  | [] => None
  end.

(** A match of [l1], [\s+], [l2], the captured value and the closing quote
    starting exactly at [s]; returns group 1. *)
Definition match_here (l1 l2 s : pystr) : option pystr :=
  match strip_prefix l1 s with
  | Some s1 =>
      spaces_then (fun s2 =>
        match strip_prefix l2 s2 with
        | Some s3 => quoted_value s3
        | None => None
        end) s1
  | None => None
  end.

(** [re.search]: the leftmost position at which the pattern matches. *)
Fixpoint re_search (l1 l2 s : pystr) : option pystr :=
  match match_here l1 l2 s with
  | Some g => Some g
  | None =>
      match s with
      | _ :: s' => re_search l1 l2 s'
      | [] => None
      end
  end.

(** [s.replace(old, new)] for a non-empty [old]: occurrences are replaced
    from left to right and do not overlap; [skip] counts the characters of
    an occurrence still to drop. *)
Fixpoint replace_from (old new : pystr) (skip : nat) (s : pystr) : pystr :=
  match s with
  | [] => []
  | c :: s' =>
      match skip with
      | S k => replace_from old new k s'
      | O =>
          match strip_prefix old s with
          | Some _ => new ++ replace_from old new (Nat.pred (List.length old)) s'
          | None => c :: replace_from old new O s'
          end
      end
  end.

Definition py_replace (old new s : pystr) : pystr := replace_from old new O s.

(** *** Character references

    What follows the specification, not the code: an attribute value that
    is HTML-entity-encoded stands for the text a browser reads from it,
    with each character reference replaced by its character. The
    references modelled are the predefined named ones and the decimal
    ones. *)

Definition ampersand : pychar := 38%N.
Definition semicolon : pychar := 59%N.

Definition named_references : list (pystr * pychar) :=
  [(lit "&quot;", 34%N); (lit "&amp;", 38%N); (lit "&lt;", 60%N);
   (lit "&gt;", 62%N); (lit "&apos;", 39%N)].

(** The named reference [s] starts with: its character and its length. *)
Fixpoint named_at (refs : list (pystr * pychar)) (s : pystr) : option (pychar * nat) :=
  match refs with
  | [] => None
  | (name, c) :: refs' =>
      match strip_prefix name s with
      | Some _ => Some (c, List.length name)
      | None => named_at refs' s
      end
  end.

(** Decimal digits up to a semicolon: the code point, and the number of
    characters read, semicolon included. *)
Fixpoint decimal_digits (s : pystr) (acc : N) (n : nat) : option (pychar * nat) :=
  match s with
  | c :: s' =>
      if N.eqb c semicolon then
        match n with O => None | S _ => Some (acc, S n) end
      else if ((48 <=? c) && (c <=? 57))%N
           then decimal_digits s' (10 * acc + (c - 48))%N (S n)
           else None
  | [] => None
  end.

Definition reference_at (s : pystr) : option (pychar * nat) :=
  match named_at named_references s with
  | Some r => Some r
  | None =>
      match strip_prefix (lit "&#") s with
      | Some rest =>
          match decimal_digits rest 0%N O with
          | Some (c, n) => Some (c, (2 + n)%nat)
          | None => None
          end
      | None => None
      end
  end.

(** The text an entity-encoded attribute value stands for; [skip] counts
    the characters of a reference still to drop. *)
Fixpoint unescape_from (skip : nat) (s : pystr) : pystr :=
  match s with
  | [] => []
  | c :: s' =>
      match skip with
      | S k => unescape_from k s'
      | O =>
          match reference_at s with
          | Some (ch, len) => ch :: unescape_from (Nat.pred len) s'
          | None => c :: unescape_from O s'
          end
      end
  end.

Definition html_unescape (s : pystr) : pystr := unescape_from O s.

(** The encoding that writes each double quote as its named reference and
    leaves every other character as it is. *)
Definition entity_quote (s : pystr) : pystr :=
  flat_map (fun c => if N.eqb c dquote then lit "&quot;" else [c]) s.

(** A text with its line breaks dropped. *)
Definition without_line_breaks (s : pystr) : pystr :=
  filter (fun c => negb (N.eqb c newline)) s.

(** ** Exceptions and results *)

(** The exception classes that bot.py, [json], [datetime], [httpx] and
    [asyncio] can bring into play here. *)
Inductive exn : Type :=
  | BaseException | PyException | KeyboardInterrupt | CancelledError
  | ValueError | JSONDecodeError | LookupError | KeyError | IndexError
  | TypeError | AttributeError | RuntimeError | RecursionError
  | HTTPError | RequestError | TransportError | TimeoutException
  | ConnectTimeout | ReadTimeout | NetworkError | ConnectError | ReadError
  | TooManyRedirects | DecodingError | HTTPStatusError.

Definition exn_eq_dec (a b : exn) : {a = b} + {a <> b}.
Proof. decide equality. Defined.

(** The direct base class. [httpx.HTTPStatusError] and [httpx.RequestError]
    are siblings below [httpx.HTTPError]. *)
Definition base_class (e : exn) : option exn :=
  match e with
  | BaseException => None
  | PyException | KeyboardInterrupt | CancelledError => Some BaseException
  | ValueError | LookupError | TypeError | AttributeError | RuntimeError
  | HTTPError => Some PyException
  | JSONDecodeError => Some ValueError
  | KeyError | IndexError => Some LookupError
  | RecursionError => Some RuntimeError
  | RequestError | HTTPStatusError => Some HTTPError
  | TransportError | TooManyRedirects | DecodingError => Some RequestError
  | TimeoutException | NetworkError => Some TransportError
  | ConnectTimeout | ReadTimeout => Some TimeoutException
  | ConnectError | ReadError => Some NetworkError
  end.

Fixpoint subclass_upto (n : nat) (e c : exn) : bool :=
  if exn_eq_dec e c then true
  else match n with
       | O => false
       | S n' => match base_class e with
                 | Some b => subclass_upto n' b c
                 | None => false
                 end
       end.

(** [isinstance(e, c)]; no class is more than six steps below the root. *)
Definition isinstance (e c : exn) : bool := subclass_upto 6 e c.

(** [except (c1, c2, ...)]. *)
Definition handles (cs : list exn) (e : exn) : bool :=
  existsb (isinstance e) cs.

Inductive pyresult (A : Type) : Type :=
  | Ok (a : A)
  | Raise (e : exn).
Arguments Ok {A} a.
Arguments Raise {A} e.

Definition rbind {A B} (r : pyresult A) (k : A -> pyresult B) : pyresult B :=
  match r with
  | Ok a => k a
  | Raise e => Raise e
  end.

Declare Scope py_scope.
Delimit Scope py_scope with py.
Notation "x <- r ;; k" := (rbind r (fun x => k))
  (at level 61, r at next level, right associativity) : py_scope.

(** ** Python values, as [json.loads] produces them *)

Inductive pyfloat : Type :=
  | FFinite (q : Q)
  | FInf (negative : bool)
  | FNaN.

Inductive pyval : Type :=
  | PNone
  | PBool (b : bool)
  | PInt (z : Z)
  | PFloat (f : pyfloat)
  | PStr (s : pystr)
  | PList (l : list pyval)
  | PDict (d : list (pystr * pyval)).

(** A [dict] is kept as its items in insertion order, keys distinct. *)
Fixpoint dict_lookup (k : pystr) (d : list (pystr * pyval)) : option pyval :=
  match d with
  | [] => None
  | (k', v) :: d' => if pystr_eqb k k' then Some v else dict_lookup k d'
  end.

(** Truth value testing. *)
Definition truthy (v : pyval) : bool :=
  match v with
  | PNone => false
  | PBool b => b
  | PInt z => negb (z =? 0)
  | PFloat (FFinite q) => negb (Qeq_bool q 0)
  | PFloat _ => true
  | PStr s => match s with [] => false | _ => true end
  | PList l => match l with [] => false | _ => true end
  | PDict d => match d with [] => false | _ => true end
  end.

(** [len(v)]. *)
Definition py_len (v : pyval) : pyresult Z :=
  match v with
  | PStr s => Ok (Z.of_nat (List.length s))
  | PList l => Ok (Z.of_nat (List.length l))
  | PDict d => Ok (Z.of_nat (List.length d))
  | _ => Raise TypeError
  end.

(** [v[0]]. The keys of a parsed JSON object are strings, so the integer
    key 0 is never among them. *)
Definition py_item0 (v : pyval) : pyresult pyval :=
  match v with
  | PStr (c :: _) => Ok (PStr [c])
  | PList (x :: _) => Ok x
  | PStr [] | PList [] => Raise IndexError
  | PDict _ => Raise KeyError
  | _ => Raise TypeError
  end.

(** [v.get(key)]: only a [dict] has the method. *)
Definition py_get (v : pyval) (key : pystr) : pyresult pyval :=
  match v with
  | PDict d => Ok (match dict_lookup key d with Some x => x | None => PNone end)
  | _ => Raise AttributeError
  end.

(** ** Dates and durations *)

(** A [datetime]: its calendar fields as microseconds since the start of
    year 1, and its UTC offset in microseconds when it is timezone-aware. *)
Record datetime : Type := mkDatetime {
  wall_us : Z;
  utcoffset : option Z
}.

(** A [timedelta] in microseconds. *)
Definition timedelta := Z.

(** [a - b] on datetimes. *)
Definition dt_sub (a b : datetime) : pyresult timedelta :=
  match utcoffset a, utcoffset b with
  | None, None => Ok (wall_us a - wall_us b)
  | Some oa, Some ob => Ok ((wall_us a - oa) - (wall_us b - ob))
  | _, _ => Raise TypeError
  end.

(** Whether a [datetime] is timezone-aware. *)
Definition is_aware (d : datetime) : bool :=
  match utcoffset d with
  | Some _ => true
  | None => false
  end.

(** [d.total_seconds()]. *)
Definition total_seconds (d : timedelta) : Q := inject_Z d / inject_Z 1000000.

(** ** The jitter expression

    [humaniser] evaluates [1.2 * (2.9**x + 1) / (math.exp(x) * 1.5)] in
    binary floating point: the literals are the doubles nearest to them,
    [**] and [math.exp] are those of the platform, and the result of each
    operation is rounded. Each computed value is modelled as a real number
    within a relative error [u] of the exact result of its operation on the
    computed operands; for doubles [u] is about [2^-53] (a last place or a
    few of them for [**] and [exp]). No value in the range of the samples
    overflows or underflows. *)

(** [computed] is [exact] up to the relative error [u]. *)
Definition rounded (u exact computed : R) : Prop :=
  (Rabs (computed - exact) <= u * Rabs exact)%R.

(** [humaniser] may return [y] when [random.uniform(0, 113)] gave [x]. *)
Definition humaniser_returns (u x y : R) : Prop :=
  exists c29 c12 c15 pw sum num ex den : R,
    rounded u 2.9 c29 /\ rounded u 1.2 c12 /\ rounded u 1.5 c15 /\
    rounded u (Rpower c29 x) pw /\        (* 2.9**x *)
    rounded u (pw + 1) sum /\             (* 2.9**x + 1 *)
    rounded u (c12 * sum) num /\          (* 1.2 * (2.9**x + 1) *)
    rounded u (exp x) ex /\               (* math.exp(x) *)
    rounded u (ex * c15) den /\           (* math.exp(x) * 1.5 *)
    rounded u (num / den) y.              (* the quotient *)

(** The exact value of [2.9**x / exp(x)] is [exp (skew * x)]. *)
Definition skew : R := (ln 2.9 - 1)%R.

(** The exact value of the expression without its factor 0.8: a sum of two
    exponentials. *)
Definition two_exp (x : R) : R := (exp (skew * x) + exp (- x))%R.

(** ** What the program prints *)

Inductive msg : Type :=
  | MsgParseError (e : exn)        (* Error parsing counter events: ... *)
  | MsgLoginFailed (e : exn)       (* Login failed: ... *)
  | MsgClickActionFailed (e : exn) (* Click action failed: ... *)
  | MsgFetchFailed (e : exn)       (* Failed to fetch game state: ... *)
  | MsgLoggingIn                   (* Logging in... *)
  | MsgLoginAbort                  (* Failed to login. Aborting. *)
  | MsgLoginOk (email : pystr)     (* Login successful for ... *)
  | MsgStateRetrieved              (* Game state retrieved *)
  | MsgNextClick (seconds : Q)     (* Next click available in ...s *)
  | MsgStartInterval (seconds : Q) (* Starting to click (interval: ...s)... *)
  | MsgStartDynamic                (* Starting to click (using server's ...) *)
  | MsgMaxClicks (n : Z)           (* Reached max clicks limit (...) *)
  | MsgDuration (seconds : Q)      (* Reached duration limit (...s) *)
  | MsgHumanizer (seconds : Q)     (* Humanizer delay: ...s *)
  | MsgCooldown (seconds : Q)      (* Server cooldown: ...s. Waiting... *)
  | MsgClicks (n : Z)              (* Clicks: ... *)
  | MsgClickFailed                 (* Click failed, retrying... *)
  | MsgInterrupted                 (* Bot interrupted by user *)
  | MsgFinished (clicks : Z) (elapsed : Q).
                                   (* Bot finished. Total clicks: ... in ...s *)

(** ** HTTP *)

Record Response : Type := mkResponse {
  status_code : Z;
  text : pystr;
  url : pystr;       (* str(response.url) *)
  url_path : pystr   (* response.url.path *)
}.

Inductive request : Type :=
  | HttpGet (target : pystr)
  | HttpPost (target : pystr) (data : list (pystr * pystr)) (origin : pystr).

(** [response.raise_for_status()]: [httpx.HTTPStatusError] unless the status
    is a 2xx one. (Older releases of httpx let 1xx and 3xx pass; the
    statements below use it at 2xx, 4xx and 5xx only.) *)
Definition raise_for_status (r : Response) : pyresult unit :=
  if (200 <=? status_code r) && (status_code r <? 300) then Ok tt
  else Raise HTTPStatusError.

(** ** The outside world *)

(** What the environment answers to the [n]-th interaction of a run. *)
Record Env : Type := mkEnv {
  http : nat -> request -> pyresult Response;  (* the httpx client *)
  loop_time : nat -> Q;                (* asyncio.get_event_loop().time() *)
  now_iso : nat -> pystr;              (* datetime.now().isoformat() *)
  humaniser_value : nat -> Q;          (* the float humaniser() returns *)
  sleep_outcome : nat -> Q -> pyresult unit   (* await asyncio.sleep(w) *)
}.

Inductive event : Type :=
  | EPrint (m : msg)
  | ERequest (r : request)
  | ESleep (seconds : Q)
  | EOpenClient
  | ECloseClient.

(** The objects of a run: the interaction counter, the events so far
    (latest first), the fields of the [GameSession] and of the
    [EnergyBot]. *)
Record State : Type := mkState {
  tick : nat;
  trace : list event;
  client : bool;        (* GameSession.client is set *)
  cookies : bool;       (* GameSession.cookies is set *)
  session : bool;       (* EnergyBot.session is set *)
  click_count : Z       (* EnergyBot.click_count *)
}.

Definition emit (ev : event) (s : State) : State :=
  mkState (tick s) (ev :: trace s) (client s) (cookies s) (session s) (click_count s).
Definition advance (s : State) : State :=
  mkState (S (tick s)) (trace s) (client s) (cookies s) (session s) (click_count s).
Definition set_client (b : bool) (s : State) : State :=
  mkState (tick s) (trace s) b (cookies s) (session s) (click_count s).
Definition set_cookies (b : bool) (s : State) : State :=
  mkState (tick s) (trace s) (client s) b (session s) (click_count s).
Definition set_session (b : bool) (s : State) : State :=
  mkState (tick s) (trace s) (client s) (cookies s) b (click_count s).
Definition set_click_count (n : Z) (s : State) : State :=
  mkState (tick s) (trace s) (client s) (cookies s) (session s) n.

(** A computation that reads and updates the state and returns or raises. *)
Definition M (A : Type) : Type := State -> pyresult A * State.

Definition ret {A} (a : A) : M A := fun s => (Ok a, s).
Definition raise {A} (e : exn) : M A := fun s => (Raise e, s).
Definition bind {A B} (m : M A) (k : A -> M B) : M B :=
  fun s => match m s with
           | (Ok a, s') => k a s'
           | (Raise e, s') => (Raise e, s')
           end.
Definition lift {A} (r : pyresult A) : M A := fun s => (r, s).

Declare Scope m_scope.
Delimit Scope m_scope with M.
Notation "x <- m ;; k" := (bind m (fun x => k))
  (at level 61, m at next level, right associativity) : m_scope.
Notation "m ;; k" := (bind m (fun _ => k))
  (at level 61, right associativity) : m_scope.

(** [try: body except cs as e: handler e]. *)
Definition try_except {A} (body : M A) (cs : list exn) (handler : exn -> M A) : M A :=
  fun s => match body s with
           | (Ok a, s') => (Ok a, s')
           | (Raise e, s') => if handles cs e then handler e s' else (Raise e, s')
           end.

(** [try: body finally: final]. *)
Definition try_finally {A} (body : M A) (final : M unit) : M A :=
  fun s => match body s with
           | (r, s') => match final s' with
                        | (Ok _, s'') => (r, s'')
                        | (Raise e, s'') => (Raise e, s'')
                        end
           end.

Definition print (m : msg) : M unit := fun s => (Ok tt, emit (EPrint m) s).
Definition prints (ms : list msg) : M unit :=
  fun s => (Ok tt, fold_left (fun s m => emit (EPrint m) s) ms s).

(** ** Reference instances of the two library parsers

    Executable decoders for the part of JSON and of ISO-8601 that the game
    page uses: objects, arrays, strings with single-character escapes,
    integers and the three literals; dates [YYYY-MM-DD], an optional time
    [HH:MM:SS] after one separator character and an optional offset
    [+HH:MM] or [-HH:MM]. On these inputs they return what [json.loads] and
    [datetime.fromisoformat] return; anything else is rejected. They
    instantiate the parameters of the development in the examples. *)

Module Ref.

Definition is_json_ws (c : pychar) : bool :=
  ((c =? 32) || (c =? 9) || (c =? 10) || (c =? 13))%N.

Fixpoint skip_ws (s : pystr) : pystr :=
  match s with
  | c :: s' => if is_json_ws c then skip_ws s' else s
  | [] => []
  end.

Definition digit_of (c : pychar) : option Z :=
  if ((48 <=? c) && (c <=? 57))%N then Some (Z.of_N c - 48) else None.

(** The digits at the head of [s], most significant first, and the rest. *)
Fixpoint take_digits (s : pystr) : list Z * pystr :=
  match s with
  | c :: s' =>
      match digit_of c with
      | Some d => let (ds, rest) := take_digits s' in (d :: ds, rest)
      | None => ([], s)
      end
  | [] => ([], [])
  end.

Definition number_of (ds : list Z) : Z := fold_left (fun n d => 10 * n + d) ds 0.

(** The characters of a string literal after its opening quote. *)
Fixpoint parse_string (s : pystr) : option (pystr * pystr) :=
  match s with
  | [] => None
  | c :: s' =>
      if (c =? 34)%N then Some ([], s')
      else if (c <? 32)%N then None
      else if (c =? 92)%N then
        match s' with
        | e :: s'' =>
            let unescaped :=
              if (e =? 34)%N then Some 34%N else if (e =? 92)%N then Some 92%N
              else if (e =? 47)%N then Some 47%N else if (e =? 98)%N then Some 8%N
              else if (e =? 102)%N then Some 12%N else if (e =? 110)%N then Some 10%N
              else if (e =? 114)%N then Some 13%N else if (e =? 116)%N then Some 9%N
              else None in
            match unescaped, parse_string s'' with
            | Some u, Some (str, rest) => Some (u :: str, rest)
            | _, _ => None
            end
        | [] => None
        end
      else
        match parse_string s' with
        | Some (str, rest) => Some (c :: str, rest)
        | None => None
        end
  end.

Definition parse_int (negative : bool) (s : pystr) : option (pyval * pystr) :=
  match take_digits s with
  | ([], _) => None
  | (d :: ds, rest) =>
      let malformed :=
        match d, ds with
        | 0, _ :: _ => true
        | _, _ => false
        end in
      let continued :=
        match rest with
        | c :: _ => ((c =? 46) || (c =? 69) || (c =? 101))%N
        | [] => false
        end in
      if malformed || continued then None
      else
        let n := number_of (d :: ds) in
        Some (PInt (if negative then - n else n), rest)
  end.

(** A [dict] assignment: the value of an existing key is replaced in
    place, a new key goes last. *)
Fixpoint dict_set (k : pystr) (v : pyval) (d : list (pystr * pyval)) :=
  match d with
  | [] => [(k, v)]
  | (k', v') :: d' =>
      if pystr_eqb k k' then (k, v) :: d' else (k', v') :: dict_set k v d'
  end.

Fixpoint parse_value (fuel : nat) (s : pystr) : option (pyval * pystr) :=
  match fuel with
  | O => None
  | S fuel' =>
      match skip_ws s with
      | [] => None
      | c :: rest =>
          if (c =? 34)%N then
            match parse_string rest with
            | Some (str, rest') => Some (PStr str, rest')
            | None => None
            end
          else if (c =? 91)%N then
            match skip_ws rest with
            | 93%N :: rest' => Some (PList [], rest')
            | _ =>
                match parse_items fuel' rest with
                | Some (items, rest') => Some (PList items, rest')
                | None => None
                end
            end
          else if (c =? 123)%N then
            match skip_ws rest with
            | 125%N :: rest' => Some (PDict [], rest')
            | _ =>
                match parse_members fuel' rest [] with
                | Some (d, rest') => Some (PDict d, rest')
                | None => None
                end
            end
          else if (c =? 45)%N then parse_int true rest
          else
            match strip_prefix (lit "null") (c :: rest),
                  strip_prefix (lit "true") (c :: rest),
                  strip_prefix (lit "false") (c :: rest) with
            | Some rest', _, _ => Some (PNone, rest')
            | _, Some rest', _ => Some (PBool true, rest')
            | _, _, Some rest' => Some (PBool false, rest')
            | _, _, _ => parse_int false (c :: rest)
            end
      end
  end
with parse_items (fuel : nat) (s : pystr) : option (list pyval * pystr) :=
  match fuel with
  | O => None
  | S fuel' =>
      match parse_value fuel' s with
      | Some (v, rest) =>
          match skip_ws rest with
          | 93%N :: rest' => Some ([v], rest')
          | 44%N :: rest' =>
              match parse_items fuel' rest' with
              | Some (vs, rest'') => Some (v :: vs, rest'')
              | None => None
              end
          | _ => None
          end
      | None => None
      end
  end
with parse_members (fuel : nat) (s : pystr) (acc : list (pystr * pyval))
  : option (list (pystr * pyval) * pystr) :=
  match fuel with
  | O => None
  | S fuel' =>
      match skip_ws s with
      | 34%N :: rest =>
          match parse_string rest with
          | Some (key, rest1) =>
              match skip_ws rest1 with
              | 58%N :: rest2 =>
                  match parse_value fuel' rest2 with
                  | Some (v, rest3) =>
                      let acc' := dict_set key v acc in
                      match skip_ws rest3 with
                      | 125%N :: rest4 => Some (acc', rest4)
                      | 44%N :: rest4 => parse_members fuel' rest4 acc'
                      | _ => None
                      end
                  | None => None
                  end
              | _ => None
              end
          | None => None
          end
      | _ => None
      end
  end.

Definition json_loads (s : pystr) : pyresult pyval :=
  match parse_value (2 * List.length s + 2) s with
  | Some (v, rest) =>
      match skip_ws rest with
      | [] => Ok v
      | _ :: _ => Raise JSONDecodeError
      end
  | None => Raise JSONDecodeError
  end.

(** Exactly [n] digits. *)
Fixpoint digits (n : nat) (acc : Z) (s : pystr) : option (Z * pystr) :=
  match n with
  | O => Some (acc, s)
  | S n' =>
      match s with
      | c :: s' =>
          match digit_of c with
          | Some d => digits n' (10 * acc + d) s'
          | None => None
          end
      | [] => None
      end
  end.

Definition expect (c : pychar) (s : pystr) : option pystr :=
  match s with
  | c' :: s' => if N.eqb c c' then Some s' else None
  | [] => None
  end.

Definition is_leap (y : Z) : bool :=
  (y mod 4 =? 0) && (negb (y mod 100 =? 0) || (y mod 400 =? 0)).

Definition days_in_month (y m : Z) : Z :=
  if m =? 2 then (if is_leap y then 29 else 28)
  else if (m =? 4) || (m =? 6) || (m =? 9) || (m =? 11) then 30
  else 31.

Definition days_before_year (y : Z) : Z :=
  let p := y - 1 in p * 365 + p / 4 - p / 100 + p / 400.

Definition days_before_month (y m : Z) : Z :=
  fold_left (fun acc k => acc + days_in_month y k)
            (map Z.of_nat (seq 1 (Z.to_nat (m - 1)))) 0.

Definition obind {A B} (o : option A) (k : A -> option B) : option B :=
  match o with
  | Some a => k a
  | None => None
  end.

Definition parse_date (s : pystr) : option (Z * pystr) :=
  obind (digits 4 0 s) (fun '(y, s) =>
  obind (expect 45%N s) (fun s =>
  obind (digits 2 0 s) (fun '(m, s) =>
  obind (expect 45%N s) (fun s =>
  obind (digits 2 0 s) (fun '(d, s) =>
  if (1 <=? y) && (1 <=? m) && (m <=? 12) && (1 <=? d) && (d <=? days_in_month y m)
  then Some (days_before_year y + days_before_month y m + d - 1, s)
  else None))))).

(** [HH:MM:SS] as seconds. *)
Definition parse_hms (s : pystr) : option (Z * pystr) :=
  obind (digits 2 0 s) (fun '(h, s) =>
  obind (expect 58%N s) (fun s =>
  obind (digits 2 0 s) (fun '(m, s) =>
  obind (expect 58%N s) (fun s =>
  obind (digits 2 0 s) (fun '(sec, s) =>
  if (h <? 24) && (m <? 60) && (sec <? 60)
  then Some (h * 3600 + m * 60 + sec, s)
  else None))))).

(** [+HH:MM] or [-HH:MM] as seconds, or nothing. *)
Definition parse_offset (s : pystr) : option (option Z) :=
  match s with
  | [] => Some None
  | sign :: s' =>
      if (sign =? 43)%N || (sign =? 45)%N then
        obind (digits 2 0 s') (fun '(h, s) =>
        obind (expect 58%N s) (fun s =>
        obind (digits 2 0 s) (fun '(m, s) =>
        match s with
        | [] =>
            if (h <? 24) && (m <? 60)
            then Some (Some ((if (sign =? 45)%N then -1 else 1) * (h * 3600 + m * 60)))
            else None
        | _ :: _ => None
        end)))
      else None
  end.

Definition fromisoformat (s : pystr) : pyresult datetime :=
  match parse_date s with
  | Some (days, []) => Ok (mkDatetime (days * 86400 * 1000000) None)
  | Some (days, _ :: s') =>
      match parse_hms s' with
      | Some (secs, s'') =>
          match parse_offset s'' with
          | Some off =>
              Ok (mkDatetime ((days * 86400 + secs) * 1000000)
                             (option_map (fun o => o * 1000000) off))
          | None => Raise ValueError
          end
      | None => Raise ValueError
      end
  | None => Raise ValueError
  end.

End Ref.

(** ** Example pages and environments *)

(** The counter element of the game page around an attribute value. *)
Definition counter_page (value : pystr) : pystr :=
  lit "<div data-controller=" ++ quoted "counter" ++ [newline] ++
  lit "     data-counter-events-value=" ++ [dquote] ++ value ++ [dquote] ++
  lit "></div>".

Definition quot (s : string) : pystr := lit "&quot;" ++ lit s ++ lit "&quot;".

(** One event from [start] to [end_], entity-encoded as the server sends it. *)
Definition event_value (start end_ : string) : pystr :=
  lit "[{" ++ quot "start-date" ++ lit ":" ++ quot start ++ lit "," ++ [newline] ++
  quot "end-date" ++ lit ":" ++ quot end_ ++ lit "}]".

Definition page_five_minutes : pystr :=
  counter_page (event_value "2024-01-01T12:00:00+01:00" "2024-01-01T12:05:00+01:00").
Definition page_expired : pystr :=
  counter_page (event_value "2024-01-01T12:05:00+00:00" "2024-01-01T12:00:00+00:00").
Definition page_mixed : pystr :=
  counter_page (event_value "2024-01-01T12:00:00" "2024-01-01T12:05:00+00:00").

(** The JSON text of one event, as [event_value] encodes it. *)
Definition events_json (start end_ : string) : pystr :=
  lit "[{" ++ quoted "start-date" ++ lit ":" ++ quoted start ++ lit "," ++ [newline] ++
  quoted "end-date" ++ lit ":" ++ quoted end_ ++ lit "}]".

(** The five minutes of [page_five_minutes] with the plus sign of the
    offsets written as the decimal reference of its code point, 43. *)
Definition page_plus_reference : pystr :=
  counter_page (event_value "2024-01-01T12:00:00&#43;01:00"
                            "2024-01-01T12:05:00&#43;01:00").
Definition page_number_event : pystr := counter_page (lit "[1]").
Definition page_truncated : pystr := counter_page (lit "[{&quot;start-date&quot;:").
Definition page_no_counter : pystr := lit "<html><body>Ready</body></html>".


Definition example_base : pystr := lit "https://cgj.bpaul.fr".

Definition landing (status : Z) (body path : pystr) : pyresult Response :=
  Ok (mkResponse status body (example_base ++ path) path).

(** An environment whose server answers by [answer]; the loop clock shows
    the interaction number as seconds, every jitter draw is 1.6 s and no
    sleep is interrupted. *)
Definition server (answer : request -> pyresult Response) : Env :=
  mkEnv (fun _ r => answer r)
        (fun n => inject_Z (Z.of_nat n))
        (fun _ => lit "2024-01-01T12:00:00.000000")
        (fun _ => 8 # 5)
        (fun _ _ => Ok tt).

(** Every request lands on the game page, which shows [body]. *)
Definition env_game (body : pystr) : Env :=
  server (fun _ => landing 200 body (lit "/game/energy")).

(** The login form sends the visitor back to the login page. *)
Definition env_rejected : Env :=
  server (fun _ => landing 200 page_no_counter (lit "/security/login")).

(** The server answers every request with status 500. *)
Definition env_server_error : Env :=
  server (fun _ => landing 500 [] (lit "/game/energy")).

(** The network is down. *)
Definition env_offline : Env := server (fun _ => Raise ConnectError).

(** Pages are served, the click action cannot be reached. *)
Definition env_click_unreachable : Env :=
  server (fun r =>
            match r with
            | HttpGet _ => landing 200 page_no_counter (lit "/game/energy")
            | HttpPost target _ _ =>
                if pystr_eqb target (example_base ++ lit "/game/energy/action")
                then Raise ConnectTimeout
                else landing 200 page_no_counter (lit "/game/energy")
            end).

Definition example_email : pystr := lit "player@example.com".
Definition example_password : pystr := lit "secret".

(** A state in which the session has its client. *)
Definition in_session : State := mkState O [] true false true 0.
(** ** The environment file (__main__.load_env) *)

(** [os.environ] as its items, keys distinct. *)
Definition environ := list (pystr * pystr).

Fixpoint environ_get (k : pystr) (e : environ) : option pystr :=
  match e with
  | [] => None
  | (k', v) :: e' => if pystr_eqb k k' then Some v else environ_get k e'
  end.

(** [os.environ[k] = v]: an existing key keeps its place. *)
Fixpoint environ_set (k v : pystr) (e : environ) : environ :=
  match e with
  | [] => [(k, v)]
  | (k', v') :: e' =>
      if pystr_eqb k k' then (k, v) :: e' else (k', v') :: environ_set k v e'
  end.

(** [s.lstrip()], [s.rstrip()] and [s.strip()]. *)
Fixpoint py_lstrip (s : pystr) : pystr :=
  match s with
  | c :: s' => if py_isspace c then py_lstrip s' else s
  | [] => []
  end.

Definition py_rstrip (s : pystr) : pystr := rev (py_lstrip (rev s)).

Definition py_strip (s : pystr) : pystr := py_rstrip (py_lstrip s).

Definition hash_sign : pychar := 35%N.
Definition equals_sign : pychar := 61%N.

(** [line.startswith("#")]. *)
Definition starts_with_hash (line : pystr) : bool :=
  match line with
  | c :: _ => N.eqb c hash_sign
  | [] => false
  end.

(** [s.split("=", 1)] when it has two parts: what precedes the first
    equals sign and what follows it. *)
Fixpoint split_once (s : pystr) : option (pystr * pystr) :=
  match s with
  | [] => None
  | c :: s' =>
      if N.eqb c equals_sign then Some ([], s')
      else match split_once s' with
           | Some (k, v) => Some (c :: k, v)
           | None => None
           end
  end.

(** The file [.env] as [load_env] meets it: absent; present and refused by
    [open]; or opened, with the lines the file iterator yields (each with
    its line end) and the way the iteration ends. The iterator decodes the
    file piece by piece, so the lines it yields before a decoding error
    are those of the pieces read so far. *)
Inductive read_end : Type :=
  | EndOfFile        (* the whole file has been decoded *)
  | DecodeError.     (* the next piece is not UTF-8: UnicodeDecodeError *)

Inductive dotenv : Type :=
  | Absent
  | Unopenable
  | Opened (lines : list pystr) (ending : read_end).

(** How [load_env] ends: it returns; or the unpacking of a line without
    equals sign raises [ValueError]; or the platform refuses an assignment
    to [os.environ]; or the reading of the file raises
    [UnicodeDecodeError]; or [open] raises [OSError]; each time with the
    environment as it then stands. *)
Inductive load_result : Type :=
  | Loaded (e : environ)
  | UnpackFailed (e : environ)
  | StoreFailed (e : environ)
  | ReadFailed (e : environ)
  | OpenFailed (e : environ).

Section LoadEnv.

(** Whether the platform accepts [os.environ[k] = v] (an empty name or an
    embedded null is refused). *)
Variable storable : pystr -> pystr -> bool.

(** The loop over the lines of the file: the body runs on each line the
    iterator yields, and the iteration ends as [ending] says. *)
Fixpoint load_lines (lines : list pystr) (ending : read_end) (e : environ)
    : load_result :=
  match lines with
  | [] =>
      match ending with
      | EndOfFile => Loaded e
      | DecodeError => ReadFailed e
      end
  | line :: rest =>
      match py_strip line with
      | _ :: _ =>
          if starts_with_hash line then load_lines rest ending e
          else
            match split_once (py_strip line) with
            | Some (key, value) =>
                if storable key value
                then load_lines rest ending (environ_set key value e)
                else StoreFailed e
            | None => UnpackFailed e
            end
      | [] => load_lines rest ending e
      end
  end.

(** [load_env]. *)
Definition load_env (file : dotenv) (e : environ) : load_result :=
  match file with
  | Absent => Loaded e
  | Unopenable => OpenFailed e
  | Opened lines ending => load_lines lines ending e
  end.

(** The assignment a line makes, when it makes one. *)
Definition assignment_of (line : pystr) : option (pystr * pystr) :=
  match py_strip line with
  | _ :: _ => if starts_with_hash line then None else split_once (py_strip line)
  | [] => None
  end.

(** A line the loop passes over: blank, or starting with the hash sign. *)
Definition skipped (line : pystr) : bool :=
  match py_strip line with
  | _ :: _ => starts_with_hash line
  | [] => true
  end.

(** The value the last line assigning [k] gives it, if a line does. *)
Fixpoint assigned (k : pystr) (lines : list pystr) : option pystr :=
  match lines with
  | [] => None
  | line :: rest =>
      match assigned k rest with
      | Some v => Some v
      | None =>
          match assignment_of line with
          | Some (k', v) => if pystr_eqb k k' then Some v else None
          | None => None
          end
      end
  end.

End LoadEnv.

(** ** The program *)

Section Bot.

(** [json.loads] and [datetime.fromisoformat]. *)
Variable json_loads : pystr -> pyresult pyval.
Variable fromisoformat : pystr -> pyresult datetime.

(** [datetime.fromisoformat(v)] on a value: the argument must be a [str]. *)
Definition fromisoformat_val (v : pyval) : pyresult datetime :=
  match v with
  | PStr s => fromisoformat s
  | _ => Raise TypeError
  end.

(** *** delta_to_date *)

(** [now_utc] is the instant [datetime.now(timezone.utc)] returns, in
    microseconds; that value is timezone-aware with offset zero. *)
Definition delta_to_date (now_utc : Z) (date_str : pystr) : pyresult timedelta :=
  (target <- fromisoformat date_str ;;
   let now := mkDatetime now_utc (Some 0) in
   dt_sub target now)%py.

(** *** extract_next_click_time *)

Definition counter_attr : pystr := lit "data-controller=" ++ quoted "counter".
Definition events_attr : pystr := lit "data-counter-events-value=" ++ [dquote].

(** The body of the [try] block, from group 1 of the match. *)
Definition parse_counter (group1 : pystr) : pyresult timedelta :=
  (let json_str := py_replace (lit "&quot;") [dquote] group1 in
   let json_str := py_replace [newline] [] json_str in
   events <- json_loads json_str ;;
   no_events <- (if negb (truthy events) then Ok true
                 else n <- py_len events ;; Ok (n =? 0)) ;;
   if no_events : bool then Ok 0
   else
     event <- py_item0 events ;;
     start_date_str <- py_get event (lit "start-date") ;;
     end_date_str <- py_get event (lit "end-date") ;;
     if negb (truthy start_date_str) || negb (truthy end_date_str) then Ok 0
     else
       start <- fromisoformat_val start_date_str ;;
       end_ <- fromisoformat_val end_date_str ;;
       timeout_duration <- dt_sub end_ start ;;
       if Qle_bool (total_seconds timeout_duration) 0 then Ok 0
       else Ok timeout_duration)%py.

(** The result, and what the function printed. *)
Definition extract_next_click_time (html : pystr) : pyresult timedelta * list msg :=
  match re_search counter_attr events_attr html with
  | None => (Ok 0, [])
  | Some group1 =>
      match parse_counter group1 with
      | Ok d => (Ok d, [])
      | Raise e =>
          if handles [JSONDecodeError; KeyError; ValueError] e
          then (Ok 0, [MsgParseError e])
          else (Raise e, [])
      end
  end.

(** *** GameSession *)

Variable env : Env.
Variable email password base_url : pystr.

Definition send (r : request) : M Response :=
  fun s => (http env (tick s) r, advance (emit (ERequest r) s)).

Definition aenter : M unit :=
  fun s => (Ok tt, set_client true (emit EOpenClient s)).

Definition aexit : M unit :=
  fun s => if client s then (Ok tt, emit ECloseClient s) else (Ok tt, s).

Definition require_client : M unit :=
  fun s => if client s then (Ok tt, s) else (Raise RuntimeError, s).

Definition csrf_name : pystr := lit "name=" ++ quoted "_csrf_token".
Definition csrf_value : pystr := lit "value=" ++ [dquote].

Definition login : M bool :=
  (require_client ;;
   let login_url := base_url ++ lit "/security/login" in
   try_except
     (response <- send (HttpGet login_url) ;;
      lift (raise_for_status response) ;;
      let csrf_token := re_search csrf_name csrf_value (text response) in
      let login_data := [(lit "_username", email); (lit "_password", password);
                         (lit "_remember_me", lit "on")] in
      let login_data :=
        match csrf_token with
        | Some (c :: t) => login_data ++ [(lit "_csrf_token", c :: t)]
        | _ => login_data
        end in
      response <- send (HttpPost (base_url ++ lit "/security/login#")
                                 login_data base_url) ;;
      lift (raise_for_status response) ;;
      (fun s => (Ok tt, set_cookies true s)) ;;
      ret (negb (pystr_eqb (url_path response) (lit "/security/login"))))
     [RequestError]
     (fun e => print (MsgLoginFailed e) ;; ret false))%M.

Definition click : M bool :=
  (require_client ;;
   let action_url := base_url ++ lit "/game/energy/action" in
   try_except
     (response <- send (HttpPost action_url [] base_url) ;;
      lift (raise_for_status response) ;;
      ret ((status_code response =? 200) || (status_code response =? 302)))
     [RequestError]
     (fun e => print (MsgClickActionFailed e) ;; ret false))%M.

(** The dictionary [get_game_state] returns. *)
Record GameState : Type := mkGameState {
  timestamp : pystr;
  gs_status_code : Z;
  gs_url : pystr;
  next_click_in_seconds : option Q
}.

Definition wall_clock : M pystr :=
  fun s => (Ok (now_iso env (tick s)), advance s).

Definition get_game_state : M (option GameState) :=
  (require_client ;;
   let game_url := base_url ++ lit "/game/energy" in
   try_except
     (response <- send (HttpGet game_url) ;;
      lift (raise_for_status response) ;;
      let (extracted, printed) := extract_next_click_time (text response) in
      prints printed ;;
      next_click_delta <- lift extracted ;;
      let next_click_seconds :=
        if next_click_delta =? 0 then None
        else Some (total_seconds next_click_delta) in
      now <- wall_clock ;;
      ret (Some (mkGameState now (status_code response) (url response)
                             next_click_seconds)))
     [RequestError]
     (fun e => print (MsgFetchFailed e) ;; ret None))%M.

(** *** EnergyBot *)

(** [EnergyBot.__init__]: a bot that has not clicked and has no session. *)
Definition EnergyBot_init : pyresult State :=
  match email, password with
  | _ :: _, _ :: _ => Ok (mkState O [] false false false 0)
  | _, _ => Raise ValueError
  end.

Definition event_loop_time : M Q :=
  fun s => (Ok (loop_time env (tick s)), advance s).

Definition humaniser : M Q :=
  fun s => (Ok (humaniser_value env (tick s)), advance s).

Definition asyncio_sleep (seconds : Q) : M unit :=
  fun s => (sleep_outcome env (tick s) seconds, advance (emit (ESleep seconds) s)).

Definition Qlt_bool (a b : Q) : bool := negb (Qle_bool b a).

(** [max(a, b)] on numbers: the first of the largest. *)
Definition py_max (a b : Q) : Q := if Qlt_bool a b then b else a.

(** The server's hold-off as the loop reads it from the fetched state. *)
Definition server_wait_time (state : option GameState) : Q :=
  match state with
  | Some st =>
      match next_click_in_seconds st with
      | Some v => if Qeq_bool v 0 then 0 else py_max 0 v
      | None => 0
      end
  | None => 0
  end.

(** The cooldown a fetched state carries, if any. *)
Definition cooldown_of (state : option GameState) : option Q :=
  match state with
  | Some st => next_click_in_seconds st
  | None => None
  end.

(** The wait before the click, from the hold-off with the jitter added. *)
Definition wait_time (click_interval : option Q) (with_jitter : Q) : Q :=
  match click_interval with
  | Some i => if Qlt_bool 0 i then py_max with_jitter i else with_jitter
  | None => with_jitter
  end.

Inductive flow : Type := Continue | Break.

Section Run.

Variable click_interval : option Q.
Variable max_clicks : option Z.
Variable duration : option Q.

Definition max_clicks_reached (count : Z) : option Z :=
  match max_clicks with
  | Some n => if negb (n =? 0) && (n <=? count) then Some n else None
  | None => None
  end.

(** The two stop conditions at the top of the loop body; [true] when one
    of them fires. *)
Definition check_limits (start_time : Q) : M bool :=
  (fun s =>
     match max_clicks_reached (click_count s) with
     | Some n => (print (MsgMaxClicks n) ;; ret true) s
     | None =>
         match duration with
         | Some d =>
             if Qeq_bool d 0 then ret false s
             else
               (now <- event_loop_time ;;
                let elapsed := (now - start_time)%Q in
                if Qle_bool d elapsed
                then print (MsgDuration d) ;; ret true
                else ret false) s
         | None => ret false s
         end
     end)%M.

(** Fetching the state, computing the wait and sleeping. *)
Definition wait_for_cooldown : M unit :=
  (state <- get_game_state ;;
   let server_wait := server_wait_time state in
   human_delay <- humaniser ;;
   print (MsgHumanizer human_delay) ;;
   let server_wait := (server_wait + human_delay)%Q in
   let wait := wait_time click_interval server_wait in
   (if Qlt_bool 1 server_wait then print (MsgCooldown server_wait)
    else ret tt) ;;
   (if Qlt_bool 0 wait then asyncio_sleep wait else ret tt))%M.

(** The click and the update of the counter. *)
Definition perform_click : M unit :=
  (success <- click ;;
   if success : bool then
     fun s =>
       let n := click_count s + 1 in
       (if n mod 10 =? 0 then print (MsgClicks n) else ret tt)
         (set_click_count n s)
   else print MsgClickFailed)%M.

(** One pass through the body of [while True]. *)
Definition iteration (start_time : Q) : M flow :=
  (stop <- check_limits start_time ;;
   if stop : bool then ret Break
   else wait_for_cooldown ;; perform_click ;; ret Continue)%M.

(** A computation that may also fail to return. *)
Definition P (A : Type) : Type := State -> option (pyresult A * State).

(** [while True: body], cut off after [fuel] passes. *)
Fixpoint while_true (fuel : nat) (body : M flow) : P unit :=
  fun s =>
    match fuel with
    | O => None
    | S fuel' =>
        match body s with
        | (Ok Continue, s') => while_true fuel' body s'
        | (Ok Break, s') => Some (Ok tt, s')
        | (Raise e, s') => Some (Raise e, s')
        end
    end.

(** The [try] statement around the loop: the handler for
    [KeyboardInterrupt] and the [finally] clause with the final report. *)
Definition guarded_loop (fuel : nat) (start_time : Q) : P unit :=
  fun s =>
    match while_true fuel (iteration start_time) s with
    | None => None
    | Some (r, s1) =>
        let (r', s2) :=
          match r with
          | Raise e =>
              if handles [KeyboardInterrupt] e
              then print MsgInterrupted s1
              else (Raise e, s1)
          | Ok _ => (Ok tt, s1)
          end in
        Some (try_finally (lift r')
                (now <- event_loop_time ;;
                 fun s' => print (MsgFinished (click_count s')
                                              (now - start_time)%Q) s')%M s2)
    end.

(** The body of the [async with] block. *)
Definition run_body (fuel : nat) : P unit :=
  fun s =>
    let s := set_session true s in
    match (print MsgLoggingIn ;; login)%M s with
    | (Raise e, s1) => Some (Raise e, s1)
    | (Ok false, s1) => Some (print MsgLoginAbort s1)
    | (Ok true, s1) =>
        match (print (MsgLoginOk email) ;;
               state <- get_game_state ;;
               match state with
               | Some st =>
                   print MsgStateRetrieved ;;
                   match next_click_in_seconds st with
                   | Some next_click =>
                       if Qlt_bool 0 next_click
                       then print (MsgNextClick next_click) else ret tt
                   | None => ret tt
                   end
               | None => ret tt
               end ;;
               match click_interval with
               | Some i => print (MsgStartInterval i)
               | None => print MsgStartDynamic
               end ;;
               event_loop_time)%M s1 with
        | (Raise e, s2) => Some (Raise e, s2)
        | (Ok start_time, s2) => guarded_loop fuel start_time s2
        end
    end.

(** [EnergyBot.run]: the session is entered, the body runs, the session is
    left on every path out of the body. *)
Definition run (fuel : nat) : P unit :=
  fun s =>
    let s := set_cookies false (set_client false s) in  (* a new GameSession *)
    let (_, s0) := aenter s in
    match run_body fuel s0 with
    | None => None
    | Some (r, s1) => Some (try_finally (lift r) aexit s1)
    end.

End Run.

(** ** What a trace shows *)

Definition action_url : pystr := base_url ++ lit "/game/energy/action".

Definition is_click_request (ev : event) : bool :=
  match ev with
  | ERequest (HttpPost target _ _) => pystr_eqb target action_url
  | _ => false
  end.

(** The number of click requests sent. *)
Definition clicks_in (tr : list event) : nat :=
  List.length (filter is_click_request tr).

(** The sleeps, latest first. *)
Fixpoint sleeps (tr : list event) : list Q :=
  match tr with
  | ESleep w :: tr' => w :: sleeps tr'
  | _ :: tr' => sleeps tr'
  | [] => []
  end.

(** The final reports (clicks, elapsed), latest first. *)
Fixpoint reports (tr : list event) : list (Z * Q) :=
  match tr with
  | EPrint (MsgFinished n t) :: tr' => (n, t) :: reports tr'
  | _ :: tr' => reports tr'
  | [] => []
  end.

(** Events that are neither a click request, nor a sleep, nor a final
    report. *)
Definition quiet (ev : event) : bool :=
  match ev with
  | ESleep _ => false
  | EPrint (MsgFinished _ _) => false
  | _ => negb (is_click_request ev)
  end.

(** A computation that adds quiet events only and leaves the client and
    the click counter alone. *)
Definition frame {A} (m : M A) : Prop :=
  forall s, exists new,
    trace (snd (m s)) = new ++ trace s /\ forallb quiet new = true /\
    client (snd (m s)) = client s /\ click_count (snd (m s)) = click_count s.

(** The state in which [run], started in [s], calls [login]. *)
Definition at_login (s : State) : State :=
  emit (EPrint MsgLoggingIn)
    (set_session true
       (set_client true (emit EOpenClient (set_cookies false (set_client false s))))).


(** A computation that sends no click request and leaves the client and
    the click counter alone. *)
Definition calm {A} (m : M A) : Prop :=
  forall s, client (snd (m s)) = client s /\
            click_count (snd (m s)) = click_count s /\
            clicks_in (trace (snd (m s))) = clicks_in (trace s).

(** A computation that uses at most [k] interactions with the world. *)
Definition paced {A} (k : nat) (m : M A) : Prop :=
  forall s, (tick s <= tick (snd (m s)) <= tick s + k)%nat.

(** *** The counter block as the specification describes it *)

(** The page holds a counter element: where [data-controller="counter"]
    first occurs in [html] it is followed, after white space, by the events
    attribute with the value [attr] between double quotes. *)
Definition counter_element (html attr : pystr) : Prop :=
  exists pre ws post,
    html = pre ++ counter_attr ++ ws ++ events_attr ++ attr ++ dquote :: post /\
    ws <> [] /\ forallb py_isspace ws = true /\ ~ In dquote attr /\
    forall p q, html = p ++ counter_attr ++ q ->
                (List.length pre <= List.length p)%nat.

(** The page holds no counter block: nowhere do the two attributes follow
    one another. *)
Definition no_counter_element (html : pystr) : Prop :=
  forall p ws q, ws <> [] -> forallb py_isspace ws = true ->
                 html <> p ++ counter_attr ++ ws ++ events_attr ++ q.

(** [text], line breaks aside, is a non-empty JSON array whose first event
    carries the parseable timestamps [start] and [end_]. *)
Definition well_formed_events (text : pystr) (start end_ : datetime) : Prop :=
  exists ev evs s e,
    json_loads (without_line_breaks text) = Ok (PList (PDict ev :: evs)) /\
    dict_lookup (lit "start-date") ev = Some (PStr s) /\
    dict_lookup (lit "end-date") ev = Some (PStr e) /\
    s <> [] /\ e <> [] /\
    fromisoformat s = Ok start /\ fromisoformat e = Ok end_.


(** How often the client was opened and closed. *)
Definition opens (tr : list event) : nat :=
  List.length (filter (fun ev => match ev with EOpenClient => true | _ => false end) tr).

Definition closes (tr : list event) : nat :=
  List.length (filter (fun ev => match ev with ECloseClient => true | _ => false end) tr).

(** The four requests of the program: the login page, the login form, the
    game page and the click action, the two posts with the base address as
    origin and the click with no form data. *)
Definition known_request (r : request) : bool :=
  match r with
  | HttpGet target =>
      pystr_eqb target (base_url ++ lit "/security/login")
      || pystr_eqb target (base_url ++ lit "/game/energy")
  | HttpPost target data origin =>
      pystr_eqb origin base_url
      && (pystr_eqb target (base_url ++ lit "/security/login#")
          || pystr_eqb target action_url
             && match data with [] => true | _ :: _ => false end)
  end.

(** What happens between the opening and the closing of the client:
    prints, sleeps and known requests. *)
Definition inside_session (ev : event) : bool :=
  match ev with
  | ERequest r => known_request r
  | EOpenClient | ECloseClient => false
  | _ => true
  end.

(** A computation that keeps the client and adds such events only. *)
Definition session_safe {A} (m : M A) : Prop :=
  forall s,
    client (snd (m s)) = client s /\
    exists new, trace (snd (m s)) = new ++ trace s /\
                forallb inside_session new = true.

(** ** Facts about text *)

Lemma pystr_eqb_eq (a b : pystr) : pystr_eqb a b = true <-> a = b.
Proof.
  revert b; induction a as [|x a IH]; intros [|y b]; simpl; split; intro H;
    try discriminate; try reflexivity.
  - apply andb_true_iff in H as [Hx Hab].
    apply N.eqb_eq in Hx. apply IH in Hab. now subst.
  - injection H as -> ->. apply andb_true_iff. split.
    + apply N.eqb_refl.
    + now apply IH.
Qed.

Lemma pystr_eqb_refl (a : pystr) : pystr_eqb a a = true.
Proof. now apply pystr_eqb_eq. Qed.

(** ** Frames: what the session operations leave alone *)

Lemma pystr_eqb_app (p a b : pystr) : pystr_eqb (p ++ a) (p ++ b) = pystr_eqb a b.
Proof.
  induction p as [|c p IH]; simpl; [reflexivity|].
  now rewrite N.eqb_refl.
Qed.

Lemma frame_ret {A} (a : A) : frame (ret a).
Proof. intro s. exists []. simpl. auto. Qed.

Lemma frame_lift {A} (r : pyresult A) : frame (lift r).
Proof. intro s. exists []. simpl. auto. Qed.

Lemma frame_bind {A B} (m : M A) (k : A -> M B) :
  frame m -> (forall a, frame (k a)) -> frame (bind m k).
Proof.
  intros Hm Hk s. unfold bind.
  destruct (Hm s) as (n1 & T1 & Q1 & C1 & K1).
  destruct (m s) as [[a|e] s1]; simpl in *.
  - destruct (Hk a s1) as (n2 & T2 & Q2 & C2 & K2).
    exists (n2 ++ n1). rewrite T2, T1, app_assoc, forallb_app, Q1, Q2.
    repeat split; congruence.
  - exists n1. auto.
Qed.

Lemma frame_try_except {A} (body : M A) cs (handler : exn -> M A) :
  frame body -> (forall e, frame (handler e)) -> frame (try_except body cs handler).
Proof.
  intros Hb Hh s. unfold try_except.
  destruct (Hb s) as (n1 & T1 & Q1 & C1 & K1).
  destruct (body s) as [[a|e] s1]; simpl in *.
  - exists n1. auto.
  - destruct (handles cs e).
    + destruct (Hh e s1) as (n2 & T2 & Q2 & C2 & K2).
      exists (n2 ++ n1). rewrite T2, T1, app_assoc, forallb_app, Q1, Q2.
      repeat split; congruence.
    + exists n1. auto.
Qed.

Lemma frame_emit {A} (ev : event) (r : pyresult A) :
  quiet ev = true -> frame (fun s => (r, emit ev s)).
Proof. intros Hq s. exists [ev]. simpl. rewrite Hq. auto. Qed.

Lemma frame_print (m : msg) :
  match m with MsgFinished _ _ => False | _ => True end -> frame (print m).
Proof. intro H. apply frame_emit. destruct m; try reflexivity. contradiction. Qed.

Lemma frame_prints (ms : list msg) :
  Forall (fun m => match m with MsgFinished _ _ => False | _ => True end) ms ->
  frame (prints ms).
Proof.
  unfold prints. induction 1 as [|m ms Hm _ IH]; intro s; simpl.
  - exists []. auto.
  - destruct (IH (emit (EPrint m) s)) as (new & T & Qn & C & K). simpl in *.
    exists (new ++ [EPrint m]). rewrite T, <- app_assoc, forallb_app, Qn. simpl.
    repeat split; auto.
    destruct m; try reflexivity. contradiction.
Qed.

Lemma frame_send (r : request) : quiet (ERequest r) = true -> frame (send r).
Proof.
  intros H s. exists [ERequest r]. unfold send.
  cbn [snd trace advance emit client click_count forallb app].
  rewrite H. auto.
Qed.

Lemma frame_require_client : frame require_client.
Proof.
  intro s. exists []. unfold require_client.
  destruct (client s) eqn:E; simpl; auto.
Qed.

Lemma frame_wall_clock : frame wall_clock.
Proof. intro s. exists []. simpl. auto. Qed.

Lemma frame_event_loop_time : frame event_loop_time.
Proof. intro s. exists []. simpl. auto. Qed.

Lemma frame_humaniser : frame humaniser.
Proof. intro s. exists []. simpl. auto. Qed.

Lemma extract_prints_errors_only (html : pystr) :
  Forall (fun m => match m with MsgFinished _ _ => False | _ => True end)
         (snd (extract_next_click_time html)).
Proof.
  unfold extract_next_click_time.
  destruct (re_search _ _ html); [|constructor].
  destruct (parse_counter _); [constructor|].
  destruct (handles _ _); repeat constructor.
Qed.

Lemma frame_login : frame login.
Proof.
  unfold login.
  repeat first
    [ apply frame_bind; [|intro] | apply frame_try_except; [|intro]
    | apply frame_ret | apply frame_lift | apply frame_require_client
    | apply frame_print; exact I
    | apply frame_send; simpl; unfold action_url; rewrite ?pystr_eqb_app; reflexivity ].
  intro s. exists []. simpl. auto.
Qed.

Lemma frame_get_game_state : frame get_game_state.
Proof.
  unfold get_game_state.
  apply frame_bind; [apply frame_require_client|intros _].
  apply frame_try_except.
  - apply frame_bind; [apply frame_send; reflexivity|intro response].
    apply frame_bind; [apply frame_lift|intros _].
    pose proof (extract_prints_errors_only (text response)) as Hp.
    destruct (extract_next_click_time (text response)) as [extracted printed].
    apply frame_bind; [now apply frame_prints|intros _].
    apply frame_bind; [apply frame_lift|intro d].
    apply frame_bind; [apply frame_wall_clock|intro now].
    apply frame_ret.
  - intro e. apply frame_bind; [now apply frame_print|intros _]. apply frame_ret.
Qed.

Lemma quiet_sleeps (new old : list event) :
  forallb quiet new = true -> sleeps (new ++ old) = sleeps old.
Proof.
  induction new as [|ev new IH]; simpl; [reflexivity|].
  intro H. apply andb_true_iff in H as [Hq Hn].
  destruct ev as [m| | | |]; try discriminate; auto.
Qed.

Lemma quiet_reports (new old : list event) :
  forallb quiet new = true -> reports (new ++ old) = reports old.
Proof.
  induction new as [|ev new IH]; simpl; [reflexivity|].
  intro H. apply andb_true_iff in H as [Hq Hn].
  destruct ev as [m| | | |]; try discriminate; auto.
  destruct m; try discriminate; auto.
Qed.

Lemma quiet_clicks (new old : list event) :
  forallb quiet new = true -> clicks_in (new ++ old) = clicks_in old.
Proof.
  unfold clicks_in. induction new as [|ev new IH]; simpl; [reflexivity|].
  intro H. apply andb_true_iff in H as [Hq Hn].
  assert (Hc : is_click_request ev = false).
  { destruct ev as [m|r|w| |]; try reflexivity.
    unfold quiet in Hq. now apply negb_true_iff in Hq. }
  rewrite Hc. auto.
Qed.

(** What a session operation that returned leaves behind. *)
Lemma frame_result {A} (m : M A) (s s' : State) (r : pyresult A) :
  frame m -> m s = (r, s') ->
  sleeps (trace s') = sleeps (trace s) /\ reports (trace s') = reports (trace s) /\
  clicks_in (trace s') = clicks_in (trace s) /\
  client s' = client s /\ click_count s' = click_count s.
Proof.
  intros Hf E. destruct (Hf s) as (new & T & Qn & C & K).
  rewrite E in *. simpl in *. rewrite T.
  rewrite quiet_sleeps, quiet_reports, quiet_clicks by assumption. auto.
Qed.

(** ** The wait before a click *)

Lemma Qlt_bool_iff (a b : Q) : Qlt_bool a b = true <-> (a < b)%Q.
Proof.
  unfold Qlt_bool. rewrite negb_true_iff. split.
  - intro H. apply Qnot_le_lt. intro Hle. apply Qle_bool_iff in Hle. congruence.
  - intro H. destruct (Qle_bool b a) eqn:E; [|reflexivity].
    apply Qle_bool_iff in E. exfalso. now apply (Qlt_not_le a b).
Qed.

Lemma Qlt_bool_false (a b : Q) : Qlt_bool a b = false <-> (b <= a)%Q.
Proof.
  unfold Qlt_bool. rewrite negb_false_iff. apply Qle_bool_iff.
Qed.

Lemma py_max_is_max (a b : Q) : (py_max a b == Qmax a b)%Q.
Proof.
  unfold py_max. destruct (Qlt_bool a b) eqn:E.
  - apply Qlt_bool_iff in E. symmetry. apply Q.max_r. now apply Qlt_le_weak.
  - apply Qlt_bool_false in E. symmetry. now apply Q.max_l.
Qed.

Lemma server_wait_time_is_max (state : option GameState) :
  (server_wait_time state ==
   match cooldown_of state with Some v => Qmax 0 v | None => 0 end)%Q.
Proof.
  unfold server_wait_time, cooldown_of. destruct state as [st|]; [|reflexivity].
  destruct (next_click_in_seconds st) as [v|]; [|reflexivity].
  destruct (Qeq_bool v 0) eqn:E.
  - apply Qeq_bool_iff in E. symmetry. apply Q.max_l. rewrite E. apply Qle_refl.
  - apply py_max_is_max.
Qed.

Lemma wait_time_is_max (click_interval : option Q) (x : Q) :
  match click_interval with
  | Some i => ((0 < i -> wait_time click_interval x == Qmax x i) /\
               (i <= 0 -> wait_time click_interval x = x))%Q
  | None => wait_time click_interval x = x
  end.
Proof.
  destruct click_interval as [i|]; [|reflexivity]. unfold wait_time.
  split; intro H.
  - apply Qlt_bool_iff in H. rewrite H. apply py_max_is_max.
  - apply Qlt_bool_false in H. now rewrite H.
Qed.

(** ** The cooldown extractor *)

Lemma total_seconds_sign (d : timedelta) :
  Qle_bool (total_seconds d) 0 = (d <=? 0).
Proof.
  unfold total_seconds, Qle_bool, Qdiv, Qmult, Qinv, inject_Z. simpl.
  rewrite !Z.mul_1_r. reflexivity.
Qed.

Lemma extract_without_counter (html : pystr) :
  re_search counter_attr events_attr html = None ->
  extract_next_click_time html = (Ok 0, []).
Proof. intro H. unfold extract_next_click_time. now rewrite H. Qed.

Lemma parse_counter_well_formed (group1 : pystr) ev evs s e start end_ :
  json_loads (py_replace [newline] [] (py_replace (lit "&quot;") [dquote] group1))
    = Ok (PList (PDict ev :: evs)) ->
  dict_lookup (lit "start-date") ev = Some (PStr s) ->
  dict_lookup (lit "end-date") ev = Some (PStr e) ->
  s <> [] -> e <> [] ->
  fromisoformat s = Ok start -> fromisoformat e = Ok end_ ->
  parse_counter group1
  = match dt_sub end_ start with
    | Ok d => Ok (if 0 <? d then d else 0)
    | Raise x => Raise x
    end.
Proof.
  intros Hjson Hs He Hsn Hen Hstart Hend.
  unfold parse_counter. rewrite Hjson. cbn [rbind truthy negb py_len py_item0 py_get].
  replace (Z.of_nat (List.length (PDict ev :: evs)) =? 0) with false
    by (symmetry; apply Z.eqb_neq; simpl; lia).
  rewrite Hs, He.
  destruct s as [|c s]; [congruence|]. destruct e as [|c' e]; [congruence|].
  cbn [truthy negb orb fromisoformat_val rbind]. rewrite Hstart, Hend.
  cbn [rbind]. destruct (dt_sub end_ start) as [d|x]; [|reflexivity].
  cbn [rbind]. rewrite total_seconds_sign.
  destruct (Z.leb_spec d 0); destruct (Z.ltb_spec 0 d); try lia; reflexivity.
Qed.

(** ** The run *)






Section RunFacts.

Variable click_interval : option Q.
Variable max_clicks : option Z.
Variable duration : option Q.




(** What a call of [click] changes: with a client it sends one click
    request and prints at most a diagnostic. *)
Lemma clicks_in_print (m : msg) (tr : list event) :
  clicks_in (EPrint m :: tr) = clicks_in tr.
Proof. reflexivity. Qed.

Lemma clicks_in_click (data : list (pystr * pystr)) (origin : pystr) (tr : list event) :
  clicks_in (ERequest (HttpPost action_url data origin) :: tr) = S (clicks_in tr).
Proof. unfold clicks_in. simpl. now rewrite pystr_eqb_refl. Qed.

Lemma click_effect (s s' : State) (r : pyresult bool) :
  click s = (r, s') ->
  client s' = client s /\ click_count s' = click_count s /\
  sleeps (trace s') = sleeps (trace s) /\
  reports (trace s') = reports (trace s) /\
  (client s = true -> clicks_in (trace s') = S (clicks_in (trace s))) /\
  (client s = false -> r = Raise RuntimeError /\ s' = s).
Proof.
  unfold click, bind, require_client, try_except, send, lift, ret, print.
  fold action_url.
  generalize (handles [RequestError]) as handled. intro handled.
  destruct (client s) eqn:Hc.
  - destruct (http env (tick s) _) as [resp|e];
      [destruct (raise_for_status resp) as [[]|e]|];
      try destruct (handled e);
      intros [= <- <-];
      cbn [trace emit advance client click_count sleeps reports];
      rewrite ?clicks_in_print, clicks_in_click;
      repeat split; auto; discriminate.
  - intros [= <- <-]. repeat split; auto. discriminate.
Qed.






Lemma run_unfold (fuel : nat) (s : State) :
  run click_interval max_clicks duration fuel s
  = match run_body click_interval max_clicks duration fuel
            (set_client true (emit EOpenClient (set_cookies false (set_client false s)))) with
    | None => None
    | Some (r, s1) => Some (try_finally (lift r) aexit s1)
    end.
Proof. reflexivity. Qed.

Lemma aexit_effect {A} (r : pyresult A) (s : State) :
  client s = true ->
  try_finally (lift r) aexit s = (r, emit ECloseClient s).
Proof. intro H. unfold try_finally, lift, aexit. now rewrite H. Qed.

Lemma login_at_login (s s1 : State) (r : pyresult bool) :
  login (at_login s) = (r, s1) ->
  client s1 = true /\ click_count s1 = click_count s /\
  reports (trace s1) = reports (trace s) /\
  clicks_in (trace s1) = clicks_in (trace s) /\
  sleeps (trace s1) = sleeps (trace s).
Proof.
  intro L.
  destruct (frame_result _ _ _ _ frame_login L) as (Hs & Hr & Hc & Hcl & Hn).
  repeat split; assumption.
Qed.

(** C6. When [login] returns false at the start of a run, the run prints
    the abort message, leaves the session and returns, whatever the limits
    and however short the fuel: the loop is never entered, no click request
    is sent, the click counter is unchanged and [login] is not called
    again. *)
Theorem login_failure_stops_run (fuel : nat) (s s1 : State) :
  login (at_login s) = (Ok false, s1) ->
  run click_interval max_clicks duration fuel s
  = Some (Ok tt, emit ECloseClient (emit (EPrint MsgLoginAbort) s1)) /\
  click_count s1 = click_count s /\
  clicks_in (trace (emit ECloseClient (emit (EPrint MsgLoginAbort) s1)))
  = clicks_in (trace s).
Proof.
  intro L. destruct (login_at_login _ _ _ L) as (Hc & Hn & _ & Hk & _).
  split; [|split; [exact Hn|exact Hk]].
  rewrite run_unfold. unfold run_body, bind.
  change (print MsgLoggingIn (set_session true ?x)) with (Ok tt, at_login s).
  cbv beta iota. rewrite L. unfold print at 1.
  now rewrite aexit_effect.
Qed.


Lemma frame_calm {A} (m : M A) : frame m -> calm m.
Proof.
  intros Hf s. destruct (m s) as [r s'] eqn:E.
  destruct (frame_result m s s' r Hf E) as (_ & _ & H1 & H2 & H3). auto.
Qed.

Lemma calm_bind {A B} (m : M A) (k : A -> M B) :
  calm m -> (forall a, calm (k a)) -> calm (bind m k).
Proof.
  intros Hm Hk s. unfold bind. specialize (Hm s).
  destruct (m s) as [[a|e] s1]; simpl in *; [|exact Hm].
  destruct (Hk a s1) as (H1 & H2 & H3). destruct Hm as (G1 & G2 & G3).
  repeat split; congruence.
Qed.

Lemma calm_ret {A} (a : A) : calm (ret a).
Proof. intro s. simpl. auto. Qed.

Lemma calm_print (m : msg) : calm (print m).
Proof. intro s. simpl. auto. Qed.

Lemma calm_asyncio_sleep (w : Q) : calm (asyncio_sleep w).
Proof. intro s. simpl. auto. Qed.

Lemma calm_check_limits (start_time : Q) :
  calm (check_limits max_clicks duration start_time).
Proof.
  intro s. unfold check_limits.
  destruct (max_clicks_reached max_clicks (click_count s)); [simpl; auto|].
  destruct duration as [d|]; [|simpl; auto].
  destruct (Qeq_bool d 0); [simpl; auto|].
  unfold bind, event_loop_time. simpl.
  destruct (Qle_bool d _); simpl; auto.
Qed.

Lemma calm_wait_for_cooldown : calm (wait_for_cooldown click_interval).
Proof.
  unfold wait_for_cooldown.
  apply calm_bind; [apply frame_calm, frame_get_game_state|intro state].
  apply calm_bind; [apply frame_calm, frame_humaniser|intro j].
  apply calm_bind; [apply calm_print|intros _].
  apply calm_bind.
  - destruct (Qlt_bool 1 _); [apply calm_print|apply calm_ret].
  - intros _. destruct (Qlt_bool 0 _); [apply calm_asyncio_sleep|apply calm_ret].
Qed.

Lemma calm_result {A} (m : M A) (s s' : State) (r : pyresult A) :
  calm m -> m s = (r, s') ->
  client s' = client s /\ click_count s' = click_count s /\
  clicks_in (trace s') = clicks_in (trace s).
Proof. intros H E. specialize (H s). now rewrite E in H. Qed.

(** C8. When [click] returns false in an iteration of the loop, the
    iteration prints the retry message and ends with the click counter as
    it was at the top of the iteration; the loop carries on with its next
    iteration from there, and nothing has slept since the wait that
    preceded the click. *)
Theorem failed_click_continues (fuel : nat) (start_time : Q) (s s0 s1 s2 : State) :
  check_limits max_clicks duration start_time s = (Ok false, s0) ->
  wait_for_cooldown click_interval s0 = (Ok tt, s1) ->
  click s1 = (Ok false, s2) ->
  let s3 := emit (EPrint MsgClickFailed) s2 in
  iteration click_interval max_clicks duration start_time s = (Ok Continue, s3) /\
  while_true (S fuel) (iteration click_interval max_clicks duration start_time) s
  = while_true fuel (iteration click_interval max_clicks duration start_time) s3 /\
  click_count s3 = click_count s /\
  sleeps (trace s3) = sleeps (trace s1).
Proof.
  intros Hlim Hwait Hclick s3.
  assert (Hit : iteration click_interval max_clicks duration start_time s
                = (Ok Continue, s3)).
  { unfold iteration, bind. rewrite Hlim. cbv beta iota. rewrite Hwait.
    cbv beta iota. unfold perform_click, bind. rewrite Hclick. reflexivity. }
  split; [exact Hit|]. split.
  - simpl. now rewrite Hit.
  - destruct (calm_result _ _ _ _ (calm_check_limits start_time) Hlim) as (_ & K0 & _).
    destruct (calm_result _ _ _ _ calm_wait_for_cooldown Hwait) as (_ & K1 & _).
    destruct (click_effect _ _ _ Hclick) as (_ & K2 & S2 & _).
    subst s3. cbn [click_count trace emit sleeps]. split; congruence.
Qed.

(** *** The wait and the click of an iteration *)

(** With a client, [click] sends its request at once; what it adds after
    it are diagnostics. *)
Lemma click_trace (s : State) :
  client s = true ->
  exists after : list event,
    trace (snd (click s))
    = after ++ ERequest (HttpPost action_url [] base_url) :: trace s /\
    forall ev, In ev after -> exists m, ev = EPrint m.
Proof.
  intro Hc.
  unfold click, bind, require_client, try_except, send, lift, ret, print.
  fold action_url. rewrite Hc.
  generalize (handles [RequestError]) as handled. intro handled.
  destruct (http env (tick s) _) as [resp|e];
    [destruct (raise_for_status resp) as [[]|e]|];
    try destruct (handled e); cbn [snd trace emit advance];
    first [ exists []; split; [reflexivity|intros ev []]
          | eexists [_]; split; [reflexivity|];
            intros ev [<-|[]]; eexists; reflexivity ].
Qed.

Lemma perform_click_trace (s : State) :
  client s = true ->
  exists after : list event,
    trace (snd (perform_click s))
    = after ++ ERequest (HttpPost action_url [] base_url) :: trace s /\
    forall ev, In ev after -> exists m, ev = EPrint m.
Proof.
  intro Hc. destruct (click_trace s Hc) as (after & Ht & Ha).
  unfold perform_click, bind.
  destruct (click s) as [[[|]|e] s1]; cbn [snd] in *.
  - destruct (_ =? 0); cbn [snd trace emit set_click_count print ret].
    + exists (EPrint (MsgClicks (click_count s1 + 1)) :: after).
      rewrite Ht. split; [reflexivity|].
      intros ev [<-|H]; [eexists; reflexivity|auto].
    + exists after. auto.
  - exists (EPrint MsgClickFailed :: after).
    cbn [snd trace emit print]. rewrite Ht. split; [reflexivity|].
    intros ev [<-|H]; [eexists; reflexivity|auto].
  - exists after. auto.
Qed.

(** After the fetch, [wait_for_cooldown] draws the jitter, announces it and
    the hold-off, and sleeps for the wait when that is positive. *)
Lemma wait_for_cooldown_trace (s s1 : State) (state : option GameState) :
  get_game_state s = (Ok state, s1) ->
  let wait := wait_time click_interval
                (server_wait_time state + humaniser_value env (tick s1)) in
  exists (announced : list event) (s2 : State),
    (forall ev, In ev announced -> exists m, ev = EPrint m) /\
    client s2 = client s1 /\
    if Qlt_bool 0 wait
    then wait_for_cooldown click_interval s
         = (sleep_outcome env (S (tick s1)) wait, s2) /\
         trace s2 = ESleep wait :: announced ++ trace s1
    else wait_for_cooldown click_interval s = (Ok tt, s2) /\
         trace s2 = announced ++ trace s1.
Proof.
  intros Hfetch wait. unfold wait_for_cooldown, bind. rewrite Hfetch.
  unfold humaniser, print, ret, asyncio_sleep. cbv beta iota.
  fold wait.
  destruct (Qlt_bool 1 _) eqn:E1; cbv beta iota.
  - exists [EPrint (MsgCooldown (server_wait_time state + humaniser_value env (tick s1)));
            EPrint (MsgHumanizer (humaniser_value env (tick s1)))].
    destruct (Qlt_bool 0 wait); cbv beta iota; eexists;
      (split; [intros ev [<-|[<-|[]]]; eexists; reflexivity|]);
      (split; [|split; reflexivity]); reflexivity.
  - exists [EPrint (MsgHumanizer (humaniser_value env (tick s1)))].
    destruct (Qlt_bool 0 wait); cbv beta iota; eexists;
      (split; [intros ev [<-|[]]; eexists; reflexivity|]);
      (split; [|split; reflexivity]); reflexivity.
Qed.

(** C1. In an iteration of the loop of [EnergyBot.run] that passes the
    stop conditions and whose state fetch returns, the wait is
    [serverWait + jitter], raised to the configured interval when that is
    positive, where [serverWait] is [max(0, cooldown)] and 0 when the state
    or its cooldown is absent. When the wait is positive the iteration
    sleeps for exactly that long, and the click request is what it does
    next: between the fetch and the click the iteration adds its
    announcements, then the sleep, then the request. A sleep that is
    interrupted ends the iteration before any click. When the wait is not
    positive the request follows the announcements with no sleep. In
    particular a cooldown of 5 s with a floor of 2 s gives [max(5 + j, 2)]
    for every jitter [j >= 0], and a cooldown of 0 with a floor of 10 s and
    no jitter gives 10 s. The loop of [run] takes its next step from where
    this iteration ends. *)
Theorem wait_before_click (start_time : Q) (s s0 s1 s' : State)
    (state : option GameState) (r : pyresult flow) :
  client s = true ->
  check_limits max_clicks duration start_time s = (Ok false, s0) ->
  get_game_state s0 = (Ok state, s1) ->
  iteration click_interval max_clicks duration start_time s = (r, s') ->
  let server_wait :=
    match cooldown_of state with Some v => Qmax 0 v | None => 0%Q end in
  let jitter := humaniser_value env (tick s1) in
  (exists wait : Q,
     match click_interval with
     | Some i => (0 < i -> wait == Qmax (server_wait + jitter) i) /\
                 (i <= 0 -> wait == server_wait + jitter)
     | None => wait == server_wait + jitter
     end /\
     exists announced after : list event,
       (forall ev, In ev announced \/ In ev after -> exists m, ev = EPrint m) /\
       (0 < wait ->
        match sleep_outcome env (S (tick s1)) wait with
        | Ok _ =>
            trace s' = after ++ ERequest (HttpPost action_url [] base_url)
                             :: ESleep wait :: announced ++ trace s1
        | Raise e =>
            r = Raise e /\ trace s' = ESleep wait :: announced ++ trace s1
        end) /\
       (wait <= 0 ->
        trace s' = after ++ ERequest (HttpPost action_url [] base_url)
                         :: announced ++ trace s1))%Q /\
  (forall st j, next_click_in_seconds st = Some 5 -> 0 <= j ->
     wait_time (Some 2) (server_wait_time (Some st) + j) == Qmax (5 + j) 2)%Q /\
  (forall st, next_click_in_seconds st = Some 0 ->
     wait_time (Some 10) (server_wait_time (Some st) + 0) == 10)%Q /\
  (forall fuel,
     while_true (S fuel) (iteration click_interval max_clicks duration start_time) s
     = match r with
       | Ok Continue =>
           while_true fuel (iteration click_interval max_clicks duration start_time) s'
       | Ok Break => Some (Ok tt, s')
       | Raise e => Some (Raise e, s')
       end).
Proof.
  intros Hc Hlim Hfetch Hit server_wait jitter. split; [|split; [|split]].
  - exists (wait_time click_interval (server_wait_time state + jitter)).
    assert (Hsum : (server_wait_time state + jitter == server_wait + jitter)%Q).
    { unfold server_wait. now rewrite server_wait_time_is_max. }
    split.
    + pose proof (wait_time_is_max click_interval (server_wait_time state + jitter)) as Hw.
      destruct click_interval as [i|].
      * destruct Hw as [Hpos Hneg]. split; intro Hi.
        -- rewrite (Hpos Hi). now rewrite Hsum.
        -- now rewrite (Hneg Hi).
      * now rewrite Hw.
    + destruct (calm_result _ _ _ _ (calm_check_limits start_time) Hlim) as (C0 & _).
      destruct (frame_result _ _ _ _ frame_get_game_state Hfetch) as (_ & _ & _ & C1 & _).
      destruct (wait_for_cooldown_trace s0 s1 state Hfetch)
        as (announced & s2 & Hann & C2 & Hw).
      fold jitter in Hw.
      unfold iteration, bind in Hit. rewrite Hlim in Hit. cbv beta iota in Hit.
      destruct (perform_click_trace s2 ltac:(congruence)) as (after & Hafter & Haft).
      exists announced, after.
      split; [intros ev [H|H]; auto|].
      destruct (Qlt_bool 0 _) eqn:Ew; destruct Hw as [Hw Ht2]; rewrite Hw in Hit.
      * split.
        -- intros _. destruct (sleep_outcome env (S (tick s1)) _) as [[]|e].
           ++ cbv beta iota in Hit.
              destruct (perform_click s2) as [[[]|e] s3]; cbn [snd] in Hafter;
                injection Hit as <- <-; now rewrite Hafter, Ht2.
           ++ injection Hit as <- <-. auto.
        -- intro Hle. apply Qlt_bool_false in Hle. congruence.
      * split.
        -- intro Hlt. apply Qlt_bool_iff in Hlt. congruence.
        -- intros _. cbv beta iota in Hit.
           destruct (perform_click s2) as [[[]|e] s3]; cbn [snd] in Hafter;
             injection Hit as <- <-; now rewrite Hafter, Ht2.
  - intros st j Hst Hj. unfold server_wait_time. rewrite Hst. simpl.
    destruct (wait_time_is_max (Some 2%Q) (py_max 0 5 + j)) as [Hpos _].
    rewrite Hpos by reflexivity. reflexivity.
  - intros st Hst. unfold server_wait_time. rewrite Hst. reflexivity.
  - intro fuel. simpl. rewrite Hit. destruct r as [[|]|e]; reflexivity.
Qed.

End RunFacts.

(** ** Limits *)

Lemma while_true_ext (fuel : nat) (body body' : M flow) (s : State) :
  (forall s, body s = body' s) ->
  while_true fuel body s = while_true fuel body' s.
Proof.
  intro H. revert s. induction fuel as [|fuel IH]; intro s; simpl; [reflexivity|].
  rewrite <- H. destruct (body s) as [[[|]|e] s1]; auto.
Qed.

Lemma run_ext (click_interval : option Q) (max_clicks max_clicks' : option Z)
    (duration duration' : option Q) :
  (forall start_time s, check_limits max_clicks duration start_time s
                        = check_limits max_clicks' duration' start_time s) ->
  forall fuel s, run click_interval max_clicks duration fuel s
                 = run click_interval max_clicks' duration' fuel s.
Proof.
  intros H fuel s. rewrite !run_unfold.
  set (s0 := set_client true _). clearbody s0.
  assert (E : run_body click_interval max_clicks duration fuel s0
              = run_body click_interval max_clicks' duration' fuel s0).
  { unfold run_body.
    destruct (bind (print MsgLoggingIn) _ _) as [[[|]|e] s1]; try reflexivity.
    destruct (bind (print (MsgLoginOk email)) _ s1) as [[start_time|e] s2];
      try reflexivity.
    unfold guarded_loop.
    rewrite (while_true_ext fuel _
               (iteration click_interval max_clicks' duration' start_time)).
    - reflexivity.
    - intro s'. unfold iteration, bind. now rewrite H. }
  now rewrite E.
Qed.

(** C10. A cap of zero clicks, or of zero seconds, is no cap: the stop
    conditions test the configured value for truth, so with
    [max_clicks = 0] (or [duration = 0]) the check at the top of an
    iteration does not fire on that account, and the whole run is the run
    with that limit left out. *)
Theorem zero_limits_are_no_limits (click_interval : option Q)
    (max_clicks : option Z) (duration : option Q) (fuel : nat) (s : State) :
  (forall start_time s',
     check_limits (Some 0) None start_time s' = (Ok false, s') /\
     check_limits None (Some 0%Q) start_time s' = (Ok false, s')) /\
  run click_interval (Some 0) duration fuel s
  = run click_interval None duration fuel s /\
  run click_interval max_clicks (Some 0%Q) fuel s
  = run click_interval max_clicks None fuel s.
Proof.
  split; [|split].
  - intros start_time s'. split; reflexivity.
  - apply run_ext. intros start_time s'. reflexivity.
  - apply run_ext. intros start_time s'. unfold check_limits.
    destruct (max_clicks_reached max_clicks (click_count s')); reflexivity.
Qed.

(** ** Stopping by count *)

(** *** The interactions an iteration uses *)

Lemma paced_weaken {A} (k k' : nat) (m : M A) :
  (k <= k')%nat -> paced k m -> paced k' m.
Proof. intros Hk Hm s. specialize (Hm s). lia. Qed.

Lemma paced_bind {A B} (k1 k2 : nat) (m : M A) (f : A -> M B) :
  paced k1 m -> (forall a, paced k2 (f a)) -> paced (k1 + k2) (bind m f).
Proof.
  intros Hm Hf s. unfold bind. specialize (Hm s).
  destruct (m s) as [[a|e] s1]; cbn [snd] in *; [|lia].
  specialize (Hf a s1). lia.
Qed.

Lemma paced_try_except {A} (k1 k2 : nat) (body : M A) cs (handler : exn -> M A) :
  paced k1 body -> (forall e, paced k2 (handler e)) ->
  paced (k1 + k2) (try_except body cs handler).
Proof.
  intros Hb Hh s. unfold try_except. specialize (Hb s).
  destruct (body s) as [[a|e] s1]; cbn [snd] in *; [lia|].
  destruct (handles cs e); cbn [snd]; [|lia].
  specialize (Hh e s1). lia.
Qed.

Lemma paced_ret {A} (a : A) : paced 0 (ret a).
Proof. intro s. simpl. lia. Qed.

Lemma paced_lift {A} (r : pyresult A) : paced 0 (lift r).
Proof. intro s. simpl. lia. Qed.

Lemma paced_print (m : msg) : paced 0 (print m).
Proof. intro s. simpl. lia. Qed.

Lemma paced_prints (ms : list msg) : paced 0 (prints ms).
Proof.
  unfold prints. intro s. cbn [snd]. revert s.
  induction ms as [|m ms IH]; intro s; simpl; [lia|].
  specialize (IH (emit (EPrint m) s)). simpl in IH. lia.
Qed.

Lemma paced_require_client : paced 0 require_client.
Proof. intro s. unfold require_client. destruct (client s); simpl; lia. Qed.

Lemma paced_send (r : request) : paced 1 (send r).
Proof. intro s. simpl. lia. Qed.

Lemma paced_get_game_state : paced 2 get_game_state.
Proof.
  unfold get_game_state.
  apply (paced_bind 0 2); [apply paced_require_client|intros _].
  apply (paced_try_except 2 0).
  - apply (paced_bind 1 1); [apply paced_send|intro response].
    apply (paced_bind 0 1); [apply paced_lift|intros _].
    destruct (extract_next_click_time (text response)) as [extracted printed].
    apply (paced_bind 0 1); [apply paced_prints|intros _].
    apply (paced_bind 0 1); [apply paced_lift|intro d].
    apply (paced_bind 1 0); [intro s; simpl; lia|intro now].
    apply paced_ret.
  - intro e. apply (paced_bind 0 0); [apply paced_print|intros _]. apply paced_ret.
Qed.

Lemma paced_click : paced 1 click.
Proof.
  unfold click.
  apply (paced_bind 0 1); [apply paced_require_client|intros _].
  apply (paced_try_except 1 0).
  - apply (paced_bind 1 0); [apply paced_send|intro response].
    apply (paced_bind 0 0); [apply paced_lift|intros _]. apply paced_ret.
  - intro e. apply (paced_bind 0 0); [apply paced_print|intros _]. apply paced_ret.
Qed.

Lemma paced_wait_for_cooldown (click_interval : option Q) :
  paced 4 (wait_for_cooldown click_interval).
Proof.
  unfold wait_for_cooldown.
  apply (paced_bind 2 2); [apply paced_get_game_state|intro state].
  apply (paced_bind 1 1); [intro s; simpl; lia|intro j].
  apply (paced_bind 0 1); [apply paced_print|intros _].
  apply (paced_bind 0 1).
  - destruct (Qlt_bool 1 _); [apply paced_print|apply paced_ret].
  - intros _. destruct (Qlt_bool 0 _); intro s; simpl; lia.
Qed.

Lemma paced_perform_click : paced 1 perform_click.
Proof.
  unfold perform_click.
  apply (paced_bind 1 0); [apply paced_click|].
  intros [|]; [|apply paced_print].
  intro s. simpl. destruct (_ =? 0); simpl; lia.
Qed.

Lemma paced_result {A} (k : nat) (m : M A) (s s' : State) (r : pyresult A) :
  paced k m -> m s = (r, s') -> (tick s <= tick s' <= tick s + k)%nat.
Proof. intros H E. specialize (H s). now rewrite E in H. Qed.

(** *** The loop under a cap *)

Section StopByCount.

Variable click_interval : option Q.
Variable duration : option Q.
Variable n : Z.
Variable start_time : Q.
Variable horizon : nat.

Hypothesis n_positive : 0 < n.
Hypothesis state_fetched :
  forall s, client s = true -> exists state, fst (get_game_state s) = Ok state.
Hypothesis click_succeeds : forall s, client s = true -> fst (click s) = Ok true.
Hypothesis sleep_returns : forall k w, sleep_outcome env k w = Ok tt.
Hypothesis duration_not_reached :
  match duration with
  | Some d =>
      Qeq_bool d 0 = true \/
      forall t, (t <= horizon)%nat -> (loop_time env t - start_time < d)%Q
  | None => True
  end.

Lemma check_limits_below_cap (s : State) :
  click_count s < n -> (tick s <= horizon)%nat ->
  exists s0, check_limits (Some n) duration start_time s = (Ok false, s0) /\
             (tick s0 <= tick s + 1)%nat.
Proof.
  intros Hlt Ht. unfold check_limits, max_clicks_reached.
  replace (n <=? click_count s) with false by (symmetry; apply Z.leb_gt; lia).
  rewrite andb_false_r.
  destruct duration as [d|]; [|eexists; split; [reflexivity|lia]].
  destruct (Qeq_bool d 0) eqn:Ez; [eexists; split; [reflexivity|lia]|].
  destruct duration_not_reached as [Hz|Hd]; [congruence|].
  unfold bind, event_loop_time.
  replace (Qle_bool d (loop_time env (tick s) - start_time)) with false.
  - eexists. split; [reflexivity|]. simpl. lia.
  - symmetry. apply not_true_is_false. intro H. apply Qle_bool_iff in H.
    specialize (Hd (tick s) Ht). apply Qlt_not_le in Hd. contradiction.
Qed.

Lemma wait_for_cooldown_returns (s : State) :
  client s = true -> fst (wait_for_cooldown click_interval s) = Ok tt.
Proof.
  intro Hc. unfold wait_for_cooldown, bind.
  destruct (state_fetched s Hc) as [state Hs].
  destruct (get_game_state s) as [r s1]. simpl in Hs. subst r.
  unfold humaniser, print, ret, asyncio_sleep. cbv beta iota.
  destruct (Qlt_bool 1 _); cbv beta iota;
    destruct (Qlt_bool 0 _); cbn [fst]; rewrite ?sleep_returns; reflexivity.
Qed.

Lemma counting_iteration (s : State) :
  client s = true -> click_count s < n -> (tick s <= horizon)%nat ->
  exists s',
    iteration click_interval (Some n) duration start_time s = (Ok Continue, s') /\
    client s' = true /\ click_count s' = click_count s + 1 /\
    clicks_in (trace s') = S (clicks_in (trace s)) /\
    (tick s' <= tick s + 6)%nat.
Proof.
  intros Hc Hlt Ht. unfold iteration, bind.
  destruct (check_limits_below_cap s Hlt Ht) as (s0 & E0 & P0).
  rewrite E0.
  destruct (calm_result _ _ _ _ (calm_check_limits _ _ _) E0) as (C0 & K0 & T0).
  cbv beta iota.
  pose proof (wait_for_cooldown_returns s0 ltac:(congruence)) as Hw.
  destruct (wait_for_cooldown click_interval s0) as [r1 s1] eqn:E1.
  simpl in Hw. subst r1.
  destruct (calm_result _ _ _ _ (calm_wait_for_cooldown _) E1) as (C1 & K1 & T1).
  pose proof (paced_result _ _ _ _ _ (paced_wait_for_cooldown _) E1) as P1.
  cbv beta iota. unfold perform_click, bind.
  pose proof (click_succeeds s1 ltac:(congruence)) as Hk.
  destruct (click s1) as [r2 s2] eqn:E2. simpl in Hk. subst r2.
  destruct (click_effect _ _ _ E2) as (C2 & K2 & _ & _ & T2 & _).
  pose proof (paced_result _ _ _ _ _ paced_click E2) as P2.
  specialize (T2 ltac:(congruence)).
  cbv beta iota. unfold print, ret.
  destruct (_ =? 0); cbv beta iota; eexists; (split; [reflexivity|]);
    cbn [client click_count trace emit set_click_count tick];
    rewrite ?clicks_in_print; repeat split; try congruence; lia.
Qed.

Lemma stopping_iteration (s : State) :
  n <= click_count s ->
  iteration click_interval (Some n) duration start_time s
  = (Ok Break, emit (EPrint (MsgMaxClicks n)) s).
Proof.
  intro H. unfold iteration, bind, check_limits, max_clicks_reached.
  replace (n =? 0) with false by (symmetry; apply Z.eqb_neq; lia).
  replace (n <=? click_count s) with true by (symmetry; apply Z.leb_le; lia).
  reflexivity.
Qed.

Lemma counting_loop (k fuel : nat) (s : State) :
  client s = true -> click_count s <= n ->
  Z.to_nat (n - click_count s) = k -> (k < fuel)%nat ->
  (tick s + 6 * k <= horizon + 6)%nat ->
  exists s',
    while_true fuel (iteration click_interval (Some n) duration start_time) s
    = Some (Ok tt, s') /\
    client s' = true /\ click_count s' = n /\
    Z.of_nat (clicks_in (trace s'))
    = Z.of_nat (clicks_in (trace s)) + (n - click_count s).
Proof.
  revert fuel s. induction k as [|k IH]; intros fuel s Hc Hle Hk Hfuel Ht;
    (destruct fuel as [|fuel]; [lia|]); simpl.
  - rewrite stopping_iteration by lia.
    eexists. split; [reflexivity|]. cbn [client click_count trace emit].
    rewrite clicks_in_print. repeat split; auto; lia.
  - destruct (counting_iteration s Hc ltac:(lia) ltac:(lia))
      as (s1 & -> & C1 & K1 & T1 & P1).
    destruct (IH fuel s1 C1 ltac:(lia) ltac:(lia) ltac:(lia) ltac:(lia))
      as (s' & -> & C' & K' & T').
    exists s'. repeat split; auto. rewrite T', T1, K1. lia.
Qed.

End StopByCount.

(** C7, as the code has it. The cap bears on the bot's click counter, which
    [run] does not reset. With a positive cap [n] on a bot whose counter is
    at most [n] (a bot that has not clicked yet has counter 0), a login
    that succeeds, state fetches that return, sleeps that are not
    interrupted, every click succeeding and a duration limit, if any, that
    the loop clock stays short of during the run (up to six interactions
    for each click still to perform, counted from the reading of the start
    time), the run returns after exactly [n - click_count] click requests of
    its own, with the click counter at [n], for every fuel above that
    number. *)
Theorem run_stops_at_max_clicks (click_interval duration : option Q) (n : Z)
    (fuel : nat) (s s1 : State) :
  0 < n ->
  click_count s <= n ->
  login (at_login s) = (Ok true, s1) ->
  (forall s, client s = true -> exists state, fst (get_game_state s) = Ok state) ->
  (forall s, client s = true -> fst (click s) = Ok true) ->
  (forall k w, sleep_outcome env k w = Ok tt) ->
  match duration with
  | Some d =>
      Qeq_bool d 0 = true \/
      let started := tick (snd (get_game_state (emit (EPrint (MsgLoginOk email)) s1))) in
      forall t, (t <= started + 6 * Z.to_nat (n - click_count s))%nat ->
                (loop_time env t - loop_time env started < d)%Q
  | None => True
  end ->
  (Z.to_nat (n - click_count s) < fuel)%nat ->
  exists s',
    run click_interval (Some n) duration fuel s = Some (Ok tt, s') /\
    click_count s' = n /\
    Z.of_nat (clicks_in (trace s'))
    = Z.of_nat (clicks_in (trace s)) + (n - click_count s).
Proof.
  intros Hn Hle L Hstate Hclick Hsleep Hdur Hfuel.
  rewrite run_unfold. unfold run_body, bind.
  change (print MsgLoggingIn (set_session true ?x)) with (Ok tt, at_login s).
  cbv beta iota. rewrite L.
  destruct (login_at_login _ _ _ L) as (C1 & K1 & _ & T1 & _).
  unfold print at 1. cbv beta iota.
  pose proof (Hstate (emit (EPrint (MsgLoginOk email)) s1) C1) as [state Hs].
  destruct (get_game_state (emit (EPrint (MsgLoginOk email)) s1)) as [r2 s2] eqn:G.
  simpl in Hs. subst r2. cbn [snd] in Hdur.
  destruct (frame_result _ _ _ _ frame_get_game_state G) as (_ & _ & T2 & C2 & K2).
  cbn [trace emit client click_count] in T2, C2, K2.
  rewrite clicks_in_print in T2.
  set (prelude := match state with Some _ => _ | None => _ end).
  assert (Hp : exists s3, prelude s2 = (Ok tt, s3) /\ client s3 = true /\
                          click_count s3 = click_count s /\
                          clicks_in (trace s3) = clicks_in (trace s) /\
                          tick s3 = tick s2).
  { unfold prelude. destruct state as [st|].
    - unfold print, ret. cbn.
      destruct (next_click_in_seconds st) as [v|]; [destruct (Qlt_bool 0 v)|];
        eexists; (split; [reflexivity|]); cbn [client click_count trace emit tick];
        rewrite ?clicks_in_print; repeat split; congruence.
    - eexists. split; [reflexivity|]. repeat split; congruence. }
  destruct Hp as (s3 & -> & C3 & K3 & T3 & P3).
  set (start := match click_interval with Some _ => _ | None => _ end).
  assert (Hst : exists s4, start s3 = (Ok tt, s4) /\ client s4 = true /\
                           click_count s4 = click_count s /\
                           clicks_in (trace s4) = clicks_in (trace s) /\
                           tick s4 = tick s2).
  { unfold start. destruct click_interval; eexists;
      (split; [reflexivity|]); cbn [client click_count trace emit tick];
      rewrite ?clicks_in_print; repeat split; congruence. }
  destruct Hst as (s4 & -> & C4 & K4 & T4 & P4).
  unfold event_loop_time. cbv beta iota.
  unfold guarded_loop. rewrite P4.
  destruct (counting_loop click_interval duration n (loop_time env (tick s2))
              (tick s2 + 6 * Z.to_nat (n - click_count s))
              Hn Hstate Hclick Hsleep Hdur
              (Z.to_nat (n - click_count s)) fuel (advance s4))
    as (sg & -> & Cg & Kg & Tg); try assumption.
  - cbn [click_count advance]. lia.
  - cbn [click_count advance]. now rewrite K4.
  - cbn [tick advance]. rewrite P4. lia.
  - cbn [trace advance click_count] in Tg. rewrite T4, K4 in Tg.
    unfold try_finally, lift, bind, event_loop_time, print, aexit.
    cbn [client advance emit]. rewrite Cg.
    eexists. split; [reflexivity|].
    cbn [click_count trace emit advance].
    change (clicks_in (ECloseClient :: ?tr)) with (clicks_in tr).
    rewrite clicks_in_print, Tg. split; [exact Kg|reflexivity].
Qed.

(** ** Failures of the session operations *)

(** A transport fault ([httpx.RequestError] and its subclasses) is turned
    into the sentinel by all three operations. *)
Lemma transport_fault_gives_sentinel (s : State) (e : exn) :
  client s = true -> isinstance e RequestError = true ->
  (forall r, http env (tick s) r = Raise e) ->
  fst (login s) = Ok false /\ fst (click s) = Ok false /\
  fst (get_game_state s) = Ok None.
Proof.
  intros Hc He Hnet.
  assert (Hh : handles [RequestError] e = true) by (simpl; now rewrite He).
  unfold login, click, get_game_state, bind, require_client, try_except, send.
  rewrite Hc, !Hnet, Hh. repeat split; reflexivity.
Qed.

(** C4, where the code departs from it. When the server answers a request
    with a 4xx or 5xx status, [raise_for_status] raises
    [httpx.HTTPStatusError], which is not an [httpx.RequestError]: the
    handler of [login], [click] and [get_game_state] lets it through to the
    caller instead of returning the sentinel. *)
Theorem http_error_status_escapes (s : State) (resp : Response) :
  client s = true -> 400 <= status_code resp < 600 ->
  (forall r, http env (tick s) r = Ok resp) ->
  fst (login s) = Raise HTTPStatusError /\
  fst (click s) = Raise HTTPStatusError /\
  fst (get_game_state s) = Raise HTTPStatusError.
Proof.
  intros Hc Hstatus Hnet.
  assert (Hr : raise_for_status resp = Raise HTTPStatusError).
  { unfold raise_for_status.
    replace (status_code resp <? 300) with false
      by (symmetry; apply Z.ltb_ge; lia).
    now rewrite andb_false_r. }
  unfold login, click, get_game_state, bind, require_client, try_except, send, lift.
  rewrite Hc, !Hnet, Hr. repeat split; reflexivity.
Qed.

(** ** More on the cooldown extractor *)

Lemma parse_counter_nonneg (group1 : pystr) (d : timedelta) :
  parse_counter group1 = Ok d -> 0 <= d.
Proof.
  unfold parse_counter.
  repeat match goal with
         | |- context [rbind ?x _] => destruct x eqn:?; cbn [rbind]
         | |- context [if ?b then _ else _] => destruct b eqn:?
         end;
    try discriminate; try (intros [= <-]; lia).
  intros [= <-].
  match goal with
  | H : Qle_bool (total_seconds _) 0 = false |- _ =>
      rewrite total_seconds_sign in H; apply Z.leb_gt in H; lia
  end.
Qed.

(** X1. Whatever the page and whatever the two parsers return, a duration
    returned by [extract_next_click_time] is never negative. *)
Theorem extract_next_click_time_nonneg (html : pystr) (d : timedelta) :
  fst (extract_next_click_time html) = Ok d -> 0 <= d.
Proof.
  unfold extract_next_click_time.
  destruct (re_search _ _ html) as [group1|]; [|intros [= <-]; lia].
  destruct (parse_counter group1) as [d'|e] eqn:E.
  - intros [= <-]. now apply parse_counter_nonneg in E.
  - destruct (handles _ e); [intros [= <-]; lia|discriminate].
Qed.

(** X2. [extract_next_click_time] never raises [ValueError] (hence never
    [JSONDecodeError]) nor [KeyError], whatever the parsers raise; it
    prints its diagnostic at most once, and only when it returns the zero
    duration. *)
Theorem extract_next_click_time_handled (html : pystr) :
  (forall e, fst (extract_next_click_time html) = Raise e ->
     isinstance e ValueError = false /\ isinstance e KeyError = false) /\
  (snd (extract_next_click_time html) = [] \/
   exists e, extract_next_click_time html = (Ok 0, [MsgParseError e])).
Proof.
  unfold extract_next_click_time.
  destruct (re_search _ _ html) as [group1|]; [|split; [discriminate|now left]].
  destruct (parse_counter group1) as [d'|e]; [split; [discriminate|now left]|].
  destruct (handles _ e) eqn:H.
  - split; [discriminate|]. right. now exists e.
  - split; [|now left]. intros e' [= <-].
    cbn [handles existsb] in H.
    apply orb_false_iff in H as [_ H]. apply orb_false_iff in H as [Hk H].
    apply orb_false_iff in H as [Hv _]. now split.
Qed.

(** X3. A counter block whose JSON value is empty (an empty array or
    object, [null], zero, the empty string, [false]) gives the zero
    duration, without diagnostic. *)
Theorem extract_empty_block (html group1 : pystr) (v : pyval) :
  re_search counter_attr events_attr html = Some group1 ->
  json_loads (py_replace [newline] [] (py_replace (lit "&quot;") [dquote] group1))
    = Ok v ->
  truthy v = false ->
  extract_next_click_time html = (Ok 0, []).
Proof.
  intros Hre Hjson Hv. unfold extract_next_click_time. rewrite Hre.
  unfold parse_counter. rewrite Hjson. cbn [rbind]. now rewrite Hv.
Qed.

(** X4. When the first event is an object in which one of the two
    timestamps is missing, [null] or empty, the result is the zero
    duration, without diagnostic, whatever else the block holds. *)
Theorem extract_missing_timestamp (html group1 : pystr) ev evs :
  re_search counter_attr events_attr html = Some group1 ->
  json_loads (py_replace [newline] [] (py_replace (lit "&quot;") [dquote] group1))
    = Ok (PList (PDict ev :: evs)) ->
  (match dict_lookup (lit "start-date") ev with
   | Some x => truthy x = false
   | None => True
   end \/
   match dict_lookup (lit "end-date") ev with
   | Some x => truthy x = false
   | None => True
   end) ->
  extract_next_click_time html = (Ok 0, []).
Proof.
  intros Hre Hjson Hmiss. unfold extract_next_click_time. rewrite Hre.
  unfold parse_counter. rewrite Hjson.
  cbn [rbind truthy negb py_len py_item0 py_get].
  replace (Z.of_nat (List.length (PDict ev :: evs)) =? 0) with false
    by (symmetry; apply Z.eqb_neq; simpl; lia).
  assert (Hor : negb (truthy match dict_lookup (lit "start-date") ev with
                              | Some x => x | None => PNone end)
                || negb (truthy match dict_lookup (lit "end-date") ev with
                                | Some x => x | None => PNone end) = true).
  { apply orb_true_iff.
    destruct Hmiss as [H|H]; [left|right];
      destruct (dict_lookup _ ev); try rewrite H; reflexivity. }
  now rewrite Hor.
Qed.

(** ** The search for an attribute value *)

Lemma strip_prefix_spec (p s rest : pystr) :
  strip_prefix p s = Some rest <-> s = p ++ rest.
Proof.
  revert s. induction p as [|x p IH]; intro s; simpl.
  - split; [now intros [= ->]|now intros ->].
  - destruct s as [|y s]; [split; discriminate|].
    destruct (N.eqb_spec x y) as [->|Hne].
    + rewrite IH. split; [now intros ->|now intros [= ->]].
    + split; [discriminate|]. intros [= -> _]. contradiction.
Qed.

Lemma take_unquoted_spec (s : pystr) :
  s = fst (take_unquoted s) ++ snd (take_unquoted s) /\
  ~ In dquote (fst (take_unquoted s)) /\
  match snd (take_unquoted s) with
  | c :: _ => c = dquote
  | [] => True
  end.
Proof.
  induction s as [|c s (Hcat & Hno & Hhd)]; simpl; [auto|].
  destruct (N.eqb_spec c dquote) as [->|Hne]; simpl; [auto|].
  destruct (take_unquoted s) as [run rest]; simpl in *.
  repeat split; auto.
  - now f_equal.
  - intros [H|H]; [now apply Hne|contradiction].
Qed.

Lemma take_unquoted_app (g post : pystr) :
  ~ In dquote g -> take_unquoted (g ++ dquote :: post) = (g, dquote :: post).
Proof.
  induction g as [|c g IH]; intro Hno; simpl.
  - reflexivity.
  - destruct (N.eqb_spec c dquote) as [->|Hne]; [exfalso; apply Hno; now left|].
    rewrite IH; [reflexivity|]. intro H. apply Hno. now right.
Qed.

Lemma quoted_value_spec (s g : pystr) :
  quoted_value s = Some g <->
  exists post, s = g ++ dquote :: post /\ ~ In dquote g.
Proof.
  unfold quoted_value. split.
  - destruct (take_unquoted_spec s) as (Hcat & Hno & Hhd).
    destruct (take_unquoted s) as [run rest]; simpl in *.
    destruct rest as [|c rest]; [discriminate|]. subst c.
    rewrite N.eqb_refl. intros [= <-]. now exists rest.
  - intros (post & -> & Hno). rewrite take_unquoted_app by assumption.
    now rewrite N.eqb_refl.
Qed.

Lemma spaces_then_sound {A} (k : pystr -> option A) (s : pystr) (r : A) :
  spaces_then k s = Some r ->
  exists ws t, s = ws ++ t /\ ws <> [] /\ forallb py_isspace ws = true /\ k t = Some r.
Proof.
  revert r. induction s as [|c s IH]; intro r; simpl; [discriminate|].
  destruct (py_isspace c) eqn:Hc; [|discriminate].
  destruct (spaces_then k s) as [r'|] eqn:E.
  - intros [= <-]. destruct (IH r' eq_refl) as (ws & t & -> & _ & Hws & Hk).
    exists (c :: ws), t. simpl. rewrite Hc, Hws. repeat split; auto. discriminate.
  - intro Hk. exists [c], s. simpl. rewrite Hc. repeat split; auto. discriminate.
Qed.

Lemma spaces_then_complete {A} (k : pystr -> option A) (ws t : pystr) (r : A) :
  ws <> [] -> forallb py_isspace ws = true -> k t = Some r ->
  exists r', spaces_then k (ws ++ t) = Some r'.
Proof.
  induction ws as [|c ws IH]; intros Hne Hws Hk; [contradiction|].
  simpl in *. apply andb_true_iff in Hws as [Hc Hws]. rewrite Hc.
  destruct (spaces_then k (ws ++ t)) as [r'|] eqn:E; [now exists r'|].
  destruct ws as [|c' ws]; [simpl; now exists r|].
  destruct (IH ltac:(discriminate) Hws Hk) as [r' Hr']. congruence.
Qed.

(** A place where the pattern matches: the first attribute, white space,
    the second attribute, a value free of quotes and the closing quote. *)
Lemma match_here_sound (l1 l2 s g : pystr) :
  match_here l1 l2 s = Some g ->
  exists ws post,
    s = l1 ++ ws ++ l2 ++ g ++ dquote :: post /\
    ws <> [] /\ forallb py_isspace ws = true /\ ~ In dquote g.
Proof.
  unfold match_here. destruct (strip_prefix l1 s) as [s1|] eqn:E1; [|discriminate].
  apply strip_prefix_spec in E1. subst s. intro H.
  apply spaces_then_sound in H as (ws & t & -> & Hne & Hws & Hk).
  destruct (strip_prefix l2 t) as [s3|] eqn:E2; [|discriminate].
  apply strip_prefix_spec in E2. subst t.
  apply quoted_value_spec in Hk as (post & -> & Hno).
  now exists ws, post.
Qed.

Lemma match_here_complete (l1 l2 ws g post : pystr) :
  ws <> [] -> forallb py_isspace ws = true -> ~ In dquote g ->
  exists g', match_here l1 l2 (l1 ++ ws ++ l2 ++ g ++ dquote :: post) = Some g'.
Proof.
  intros Hne Hws Hno. unfold match_here.
  rewrite (proj2 (strip_prefix_spec l1 _ _) eq_refl).
  apply spaces_then_complete with (r := g); auto.
  rewrite (proj2 (strip_prefix_spec l2 _ _) eq_refl).
  apply quoted_value_spec. now exists post.
Qed.

(** X5. The search [re_search l1 l2] (the pattern of the counter block and
    of the CSRF field) finds a value exactly when the text contains the
    first attribute, then white space, then the second attribute with a
    value closed by a quote; the value found lies between those quotes in
    the text and holds no quote itself. *)
Theorem re_search_spec (l1 l2 s : pystr) :
  (forall g, re_search l1 l2 s = Some g ->
     exists pre ws post,
       s = pre ++ l1 ++ ws ++ l2 ++ g ++ dquote :: post /\
       ws <> [] /\ forallb py_isspace ws = true /\ ~ In dquote g) /\
  (forall pre ws g post,
     s = pre ++ l1 ++ ws ++ l2 ++ g ++ dquote :: post ->
     ws <> [] -> forallb py_isspace ws = true -> ~ In dquote g ->
     exists g', re_search l1 l2 s = Some g').
Proof.
  split.
  - induction s as [|c s IH]; intros g; simpl.
    + destruct (match_here l1 l2 []) as [g'|] eqn:E; [|discriminate].
      intros [= <-]. apply match_here_sound in E as (ws & post & E & H).
      now exists [], ws, post.
    + destruct (match_here l1 l2 (c :: s)) as [g'|] eqn:E.
      * intros [= <-]. apply match_here_sound in E as (ws & post & E & H).
        now exists [], ws, post.
      * intro H. destruct (IH g H) as (pre & ws & post & -> & Hrest).
        now exists (c :: pre), ws, post.
  - intros pre ws g post -> Hne Hws Hno.
    induction pre as [|c pre IH].
    + destruct (match_here_complete l1 l2 ws g post Hne Hws Hno) as [g' Hg'].
      exists g'. simpl app.
      destruct (l1 ++ ws ++ l2 ++ g ++ dquote :: post); simpl; now rewrite Hg'.
    + simpl. destruct (match_here l1 l2 _) as [g'|]; [now exists g'|exact IH].
Qed.

(** ** The counter block of a page *)

Lemma re_search_found (l1 l2 s g : pystr) :
  re_search l1 l2 s = Some g ->
  exists pre ws post,
    s = pre ++ l1 ++ ws ++ l2 ++ g ++ dquote :: post /\
    ws <> [] /\ forallb py_isspace ws = true /\ ~ In dquote g.
Proof.
  revert g. induction s as [|c s IH]; intros g; simpl.
  - destruct (match_here l1 l2 []) as [g'|] eqn:E; [|discriminate].
    intros [= <-]. apply match_here_sound in E as (ws & post & E & H).
    now exists [], ws, post.
  - destruct (match_here l1 l2 (c :: s)) as [g'|] eqn:E.
    + intros [= <-]. apply match_here_sound in E as (ws & post & E & H).
      now exists [], ws, post.
    + intro H. destruct (IH g H) as (pre & ws & post & -> & Hrest).
      now exists (c :: pre), ws, post.
Qed.

Lemma re_search_here (l1 l2 s g : pystr) :
  match_here l1 l2 s = Some g -> re_search l1 l2 s = Some g.
Proof. intro H. destruct s; simpl; now rewrite H. Qed.

(** The search finds the match at the first place where [l1] occurs. *)
Lemma re_search_first (l1 l2 pre rest g : pystr) :
  (forall p q, pre ++ rest = p ++ l1 ++ q ->
               (List.length pre <= List.length p)%nat) ->
  match_here l1 l2 rest = Some g ->
  re_search l1 l2 (pre ++ rest) = Some g.
Proof.
  intros Hfirst Hm. induction pre as [|c pre IH].
  - now apply re_search_here.
  - simpl. destruct (match_here l1 l2 (c :: pre ++ rest)) as [g'|] eqn:E.
    + apply match_here_sound in E as (ws & post & E & _).
      specialize (Hfirst [] (ws ++ l2 ++ g' ++ dquote :: post) E).
      simpl in Hfirst. lia.
    + apply IH. intros p q H.
      specialize (Hfirst (c :: p) q). simpl in Hfirst.
      rewrite H in Hfirst. specialize (Hfirst eq_refl). lia.
Qed.

Lemma spaces_then_exact {A} (k : pystr -> option A) (ws t : pystr) (r : A) :
  ws <> [] -> forallb py_isspace ws = true ->
  spaces_then k t = None -> k t = Some r ->
  spaces_then k (ws ++ t) = Some r.
Proof.
  intros Hne Hws Hnone Hk. induction ws as [|c ws IH]; [contradiction|].
  simpl in *. apply andb_true_iff in Hws as [Hc Hws]. rewrite Hc.
  destruct ws as [|c' ws].
  - simpl. now rewrite Hnone.
  - now rewrite IH.
Qed.

(** At a place where the two attributes follow one another the match
    captures the whole value. *)
Lemma match_here_exact (l1 l2 ws g post : pystr) (c : pychar) :
  ws <> [] -> forallb py_isspace ws = true -> ~ In dquote g ->
  py_isspace c = false ->
  match_here l1 (c :: l2) (l1 ++ ws ++ (c :: l2) ++ g ++ dquote :: post) = Some g.
Proof.
  intros Hne Hws Hno Hc. unfold match_here.
  rewrite (proj2 (strip_prefix_spec l1 _ _) eq_refl).
  apply spaces_then_exact; auto.
  - simpl. now rewrite Hc.
  - rewrite (proj2 (strip_prefix_spec (c :: l2) _ _) eq_refl).
    apply quoted_value_spec. now exists post.
Qed.

Lemma entity_quote_unquoted (s : pystr) : ~ In dquote (entity_quote s).
Proof.
  induction s as [|c s IH]; simpl; [auto|].
  destruct (N.eqb_spec c dquote) as [->|Hne].
  - simpl. intros [H|[H|[H|[H|[H|[H|H]]]]]]; try discriminate H. contradiction.
  - simpl. intros [H|H]; [now apply Hne|contradiction].
Qed.

Lemma strip_prefix_ampersand (name s : pystr) (c : pychar) :
  c <> ampersand -> strip_prefix (ampersand :: name) (c :: s) = None.
Proof.
  intro H. cbn [strip_prefix]. destruct (N.eqb_spec ampersand c); congruence.
Qed.

Lemma replace_from_miss (old new s : pystr) (c : pychar) :
  strip_prefix old (c :: s) = None ->
  replace_from old new 0 (c :: s) = c :: replace_from old new 0 s.
Proof. intro H. cbn [replace_from]. now rewrite H. Qed.

Lemma unescape_from_miss (s : pystr) (c : pychar) :
  reference_at (c :: s) = None ->
  unescape_from 0 (c :: s) = c :: unescape_from 0 s.
Proof. intro H. cbn [unescape_from]. now rewrite H. Qed.

Lemma reference_at_plain (s : pystr) (c : pychar) :
  c <> ampersand -> reference_at (c :: s) = None.
Proof.
  intro H. unfold reference_at, named_references.
  change (lit "&quot;") with (ampersand :: lit "quot;").
  change (lit "&amp;") with (ampersand :: lit "amp;").
  change (lit "&lt;") with (ampersand :: lit "lt;").
  change (lit "&gt;") with (ampersand :: lit "gt;").
  change (lit "&apos;") with (ampersand :: lit "apos;").
  change (lit "&#") with (ampersand :: lit "#").
  cbn [named_at]. now rewrite !strip_prefix_ampersand by assumption.
Qed.

(** The code's decoding undoes [entity_quote] on a text free of
    ampersands. *)
Lemma py_replace_entity_quote (s : pystr) :
  ~ In ampersand s ->
  py_replace (lit "&quot;") [dquote] (entity_quote s) = s.
Proof.
  unfold py_replace. induction s as [|c s IH]; intro Hno; [reflexivity|].
  assert (Hs : ~ In ampersand s) by (intro H; apply Hno; now right).
  assert (Hc : c <> ampersand) by (intro H; apply Hno; now left).
  cbn [entity_quote flat_map].
  destruct (N.eqb_spec c dquote) as [->|Hne].
  - change (replace_from (lit "&quot;") [dquote] 0 (lit "&quot;" ++ flat_map _ s))
      with (dquote :: replace_from (lit "&quot;") [dquote] 0 (entity_quote s)).
    now rewrite IH.
  - cbn [app]. fold (entity_quote s). rewrite replace_from_miss.
    + f_equal. now apply IH.
    + change (lit "&quot;") with (ampersand :: lit "quot;").
      now apply strip_prefix_ampersand.
Qed.

(** So does the decoding of character references: the attribute value
    [entity_quote s] is an entity encoding of [s]. *)
Lemma html_unescape_entity_quote (s : pystr) :
  ~ In ampersand s -> html_unescape (entity_quote s) = s.
Proof.
  unfold html_unescape. induction s as [|c s IH]; intro Hno; [reflexivity|].
  assert (Hs : ~ In ampersand s) by (intro H; apply Hno; now right).
  assert (Hc : c <> ampersand) by (intro H; apply Hno; now left).
  cbn [entity_quote flat_map].
  destruct (N.eqb_spec c dquote) as [->|Hne].
  - change (unescape_from 0 (lit "&quot;" ++ flat_map _ s))
      with (dquote :: unescape_from 0 (entity_quote s)).
    now rewrite IH.
  - cbn [app]. fold (entity_quote s).
    rewrite unescape_from_miss by now apply reference_at_plain.
    f_equal. now apply IH.
Qed.

Lemma py_replace_newline (s : pystr) :
  py_replace [newline] [] s = without_line_breaks s.
Proof.
  unfold py_replace. induction s as [|c s IH]; [reflexivity|].
  cbn [replace_from strip_prefix List.length Nat.pred without_line_breaks filter].
  destruct (N.eqb_spec newline c) as [<-|Hne].
  - rewrite N.eqb_refl. simpl. exact IH.
  - replace (N.eqb c newline) with false
      by (symmetry; apply N.eqb_neq; congruence).
    simpl. f_equal. exact IH.
Qed.

(** The value [re.search] captures on a page with a counter element. *)
Lemma re_search_counter_element (html attr : pystr) :
  counter_element html attr ->
  re_search counter_attr events_attr html = Some attr.
Proof.
  intros (pre & ws & post & -> & Hne & Hws & Hno & Hfirst).
  apply re_search_first; [exact Hfirst|].
  apply match_here_exact; auto.
Qed.

Lemma re_search_no_counter_element (html : pystr) :
  no_counter_element html -> re_search counter_attr events_attr html = None.
Proof.
  intro Hnone. destruct (re_search counter_attr events_attr html) as [g|] eqn:E;
    [|reflexivity].
  apply re_search_found in E as (pre & ws & post & E & Hne & Hws & _).
  exfalso. exact (Hnone pre ws (g ++ dquote :: post) Hne Hws E).
Qed.

(** X23. On a page that holds no counter block the result is the zero
    duration. On a page that holds a counter element whose events value is
    a text with each double quote written as the reference [&quot;] and no
    other character reference (the text holds no ampersand), that value is
    an entity encoding of the text, and when the text, its line breaks
    aside, is a non-empty JSON array whose first event carries non-empty,
    parseable start and end timestamps of equal awareness (timezone-aware,
    as the game sends them), the result is [end - start] if that is
    positive and the zero duration otherwise. *)
Theorem extract_next_click_time_spec (html : pystr) :
  (no_counter_element html -> extract_next_click_time html = (Ok 0, [])) /\
  (forall (text : pystr) (start end_ : datetime),
     counter_element html (entity_quote text) ->
     ~ In ampersand text ->
     well_formed_events text start end_ ->
     is_aware start = is_aware end_ ->
     html_unescape (entity_quote text) = text /\
     exists d : timedelta,
       dt_sub end_ start = Ok d /\
       extract_next_click_time html = (Ok (if 0 <? d then d else 0), [])).
Proof.
  split.
  - intro H. apply extract_without_counter. now apply re_search_no_counter_element.
  - intros text start end_ Helem Hamp
           (ev & evs & s & e & Hjson & Hs & He & Hsn & Hen & Hstart & Hend) Haware.
    split; [now apply html_unescape_entity_quote|].
    assert (Hd : exists d, dt_sub end_ start = Ok d).
    { unfold dt_sub. unfold is_aware in Haware.
      destruct (utcoffset end_), (utcoffset start); try discriminate; eauto. }
    destruct Hd as [d Hd]. exists d. split; [exact Hd|].
    unfold extract_next_click_time.
    rewrite (re_search_counter_element _ _ Helem).
    rewrite <- py_replace_newline in Hjson.
    rewrite <- (py_replace_entity_quote text Hamp) in Hjson at 1.
    rewrite (parse_counter_well_formed _ _ _ _ _ _ _ Hjson Hs He Hsn Hen Hstart Hend).
    now rewrite Hd.
Qed.

(** ** More on the session operations *)

(** The exceptions the body of the [try] block can raise: those of the two
    parsers, and three of its own. *)
Lemma parse_counter_raises (group1 : pystr) (e : exn) :
  parse_counter group1 = Raise e ->
  json_loads (py_replace [newline] [] (py_replace (lit "&quot;") [dquote] group1))
    = Raise e \/
  (exists t, fromisoformat t = Raise e) \/
  (e = TypeError \/ e = AttributeError \/ e = KeyError).
Proof.
  unfold parse_counter.
  destruct (json_loads _) as [events|e0]; cbn [rbind]; [|intros [= <-]; now left].
  assert (Hval : forall v x, fromisoformat_val v = Raise x ->
                   (exists t, fromisoformat t = Raise x) \/ x = TypeError).
  { intros v x. destruct v; simpl; try (intros [= <-]; now right).
    intro H. left. eauto. }
  destruct (negb (truthy events)) eqn:Ht; cbn [rbind].
  - discriminate.
  - destruct (py_len events) as [n|e0] eqn:Hlen; cbn [rbind].
    + destruct (n =? 0); [discriminate|].
      destruct (py_item0 events) as [event|e0] eqn:Hitem; cbn [rbind].
      * destruct (py_get event (lit "start-date")) as [sd|e0] eqn:Hsd; cbn [rbind].
        -- destruct (py_get event (lit "end-date")) as [ed|e1] eqn:Hed; cbn [rbind].
           ++ destruct (_ || _); [discriminate|].
              destruct (fromisoformat_val sd) as [start|e2] eqn:Hs; cbn [rbind].
              ** destruct (fromisoformat_val ed) as [end_|e3] eqn:He; cbn [rbind].
                 --- unfold dt_sub.
                     destruct (utcoffset end_), (utcoffset start); cbn [rbind];
                       try (destruct (Qle_bool _ _); discriminate);
                       intros [= <-]; right; right; now left.
                 --- intros [= <-]. destruct (Hval _ _ He) as [H| ->]; auto 6.
              ** intros [= <-]. destruct (Hval _ _ Hs) as [H| ->]; auto 6.
           ++ intros [= <-]. destruct event; try discriminate Hed;
                injection Hed as <-; right; right; right; now left.
        -- intros [= <-]. destruct event; try discriminate Hsd;
             injection Hsd as <-; right; right; right; now left.
      * intros [= <-]. right; right.
        destruct events as [| | | |[|? ?]|[|? ?]|]; try discriminate Hitem;
          try discriminate Ht; injection Hitem as <-; auto.
    + intros [= <-]. destruct events; try discriminate Hlen;
        injection Hlen as <-; right; right; now left.
Qed.

Lemma extract_result_nonneg (html : pystr) (d : timedelta) :
  fst (extract_next_click_time html) = Ok d -> 0 <= d.
Proof.
  unfold extract_next_click_time.
  destruct (re_search _ _ html) as [group1|]; [|intros [= <-]; lia].
  destruct (parse_counter group1) as [d'|e] eqn:E.
  - intros [= <-]. now apply parse_counter_nonneg in E.
  - destruct (handles _ e); [intros [= <-]; lia|discriminate].
Qed.

Lemma total_seconds_pos (d : timedelta) : 0 < d -> (0 < total_seconds d)%Q.
Proof.
  intro H. unfold total_seconds, Qlt, Qdiv, Qmult, Qinv, inject_Z. simpl. lia.
Qed.

(** X6. A state returned by [get_game_state] comes from a 2xx answer and
    carries either no cooldown or a positive one: never zero, never
    negative. *)
Theorem get_game_state_cooldown_positive (s s' : State) (st : GameState) :
  get_game_state s = (Ok (Some st), s') ->
  200 <= gs_status_code st < 300 /\
  match next_click_in_seconds st with
  | Some v => (0 < v)%Q
  | None => True
  end.
Proof.
  unfold get_game_state, bind, require_client, try_except, send, lift, ret,
    wall_clock, print, prints.
  generalize (handles [RequestError]) as handled. intro handled.
  destruct (client s); [|discriminate].
  destruct (http env (tick s) _) as [resp|e]; [|destruct (handled e); discriminate].
  unfold raise_for_status.
  destruct ((200 <=? status_code resp) && (status_code resp <? 300)) eqn:Hst;
    [|destruct (handled HTTPStatusError); discriminate].
  pose proof (extract_result_nonneg (text resp)) as Hnn.
  destruct (extract_next_click_time (text resp)) as [[d|e] printed];
    [|destruct (handled e); discriminate].
  specialize (Hnn d eq_refl). intros [= <- _]. cbn.
  apply andb_true_iff in Hst as [H1 H2].
  apply Z.leb_le in H1. apply Z.ltb_lt in H2. split; [lia|].
  destruct (Z.eqb_spec d 0); [exact I|]. apply total_seconds_pos. lia.
Qed.

(** X7. As long as the two parsers raise no [httpx.RequestError] of their
    own, [get_game_state] returns [None] only when the request for the game
    page failed with an [httpx.RequestError]: never on an answer of the
    server, whatever its status or content. *)
Theorem get_game_state_none_only_on_transport_failure (s s' : State) :
  (forall t e, json_loads t = Raise e -> isinstance e RequestError = false) ->
  (forall t e, fromisoformat t = Raise e -> isinstance e RequestError = false) ->
  get_game_state s = (Ok None, s') ->
  exists e,
    http env (tick s) (HttpGet (base_url ++ lit "/game/energy")) = Raise e /\
    isinstance e RequestError = true.
Proof.
  intros Hjson Hiso.
  assert (Hextract : forall html e, fst (extract_next_click_time html) = Raise e ->
                                    handles [RequestError] e = false).
  { intros html e. unfold extract_next_click_time.
    destruct (re_search _ _ html) as [group1|]; [|discriminate].
    destruct (parse_counter group1) as [d|e'] eqn:E; [discriminate|].
    destruct (handles [JSONDecodeError; KeyError; ValueError] e'); [discriminate|].
    intros [= <-]. cbn [handles existsb]. rewrite orb_false_r.
    destruct (parse_counter_raises _ _ E) as [H|[(t & H)|H]].
    - exact (Hjson _ _ H).
    - exact (Hiso _ _ H).
    - destruct H as [->|[->| ->]]; reflexivity. }
  unfold get_game_state, bind, require_client, try_except, send, lift, ret,
    wall_clock, print, prints.
  destruct (client s); [|discriminate].
  destruct (http env (tick s) _) as [resp|e] eqn:Hnet.
  - destruct (raise_for_status resp) as [[]|e] eqn:Hr.
    + pose proof (Hextract (text resp)) as He.
      destruct (extract_next_click_time (text resp)) as [[d|e] printed];
        [discriminate|].
      rewrite (He e eq_refl). discriminate.
    + unfold raise_for_status in Hr.
      destruct (_ && _); [discriminate|]. injection Hr as <-. discriminate.
  - destruct (handles [RequestError] e) eqn:H; [|discriminate].
    intros _. exists e. split; [reflexivity|].
    cbn [handles existsb] in H. now rewrite orb_false_r in H.
Qed.

(** X8. An exception that [extract_next_click_time] lets out is one a
    parser raised outside the handled classes, or it is [TypeError] or
    [AttributeError]: no other exception arises in the function itself. *)
Theorem extract_next_click_time_raises_only (html : pystr) (e : exn) :
  fst (extract_next_click_time html) = Raise e ->
  (exists t, json_loads t = Raise e) \/ (exists t, fromisoformat t = Raise e) \/
  e = TypeError \/ e = AttributeError.
Proof.
  unfold extract_next_click_time.
  destruct (re_search _ _ html) as [group1|]; [|discriminate].
  destruct (parse_counter group1) as [d|e'] eqn:E; [discriminate|].
  destruct (handles [JSONDecodeError; KeyError; ValueError] e') eqn:Hh;
    [discriminate|].
  intros [= <-].
  destruct (parse_counter_raises _ _ E) as [H|[H|[->|[->| ->]]]]; eauto.
  discriminate Hh.
Qed.

(** X9. Called on a session without client, each of the three operations
    raises [RuntimeError] at once: nothing is sent, printed or changed. *)
Theorem operations_need_client (s : State) :
  client s = false ->
  login s = (Raise RuntimeError, s) /\
  click s = (Raise RuntimeError, s) /\
  get_game_state s = (Raise RuntimeError, s).
Proof.
  intro H. unfold login, click, get_game_state, bind, require_client.
  rewrite H. auto.
Qed.

(** X10. [login] returns true only after two requests, in this order: the
    login page was fetched and answered with a 2xx status; the form was
    posted to the login address with the credentials, the remember-me flag
    and, exactly when the page shows a non-empty one, its CSRF token, and
    was answered with a 2xx status on a path other than the login page.
    The cookies are then stored and nothing was printed. *)
Theorem login_true_spec (s s' : State) :
  login s = (Ok true, s') ->
  exists page landing_page : Response,
    let form :=
      [(lit "_username", email); (lit "_password", password);
       (lit "_remember_me", lit "on")]
      ++ match re_search csrf_name csrf_value (text page) with
         | Some (c :: t) => [(lit "_csrf_token", c :: t)]
         | _ => []
         end in
    let get := HttpGet (base_url ++ lit "/security/login") in
    let post := HttpPost (base_url ++ lit "/security/login#") form base_url in
    http env (tick s) get = Ok page /\
    200 <= status_code page < 300 /\
    http env (S (tick s)) post = Ok landing_page /\
    200 <= status_code landing_page < 300 /\
    url_path landing_page <> lit "/security/login" /\
    trace s' = ERequest post :: ERequest get :: trace s /\
    cookies s' = true.
Proof.
  unfold login, bind, require_client, try_except, send, lift, ret, print.
  generalize (handles [RequestError]) as handled. intro handled.
  destruct (client s); [|discriminate].
  destruct (http env (tick s) _) as [page|e] eqn:Hget;
    [|destruct (handled e); discriminate].
  unfold raise_for_status at 1.
  destruct ((200 <=? status_code page) && (status_code page <? 300)) eqn:H1;
    [|destruct (handled HTTPStatusError); discriminate].
  cbn [tick advance emit].
  set (form := match re_search csrf_name csrf_value (text page) with
               | Some (c :: t) => _ | _ => _ end).
  destruct (http env (S (tick s)) _) as [landing_page|e] eqn:Hpost;
    [|destruct (handled e); discriminate].
  unfold raise_for_status.
  destruct ((200 <=? status_code landing_page) && (status_code landing_page <? 300))
    eqn:H2; [|destruct (handled HTTPStatusError); discriminate].
  intros [= Hpath <-].
  exists page, landing_page. cbv zeta.
  assert (Hform : form = [(lit "_username", email); (lit "_password", password);
                          (lit "_remember_me", lit "on")]
                         ++ match re_search csrf_name csrf_value (text page) with
                            | Some (c :: t) => [(lit "_csrf_token", c :: t)]
                            | _ => []
                            end).
  { unfold form. destruct (re_search _ _ _) as [[|c t]|]; reflexivity. }
  rewrite <- Hform.
  apply andb_true_iff in H1 as [A1 B1]. apply andb_true_iff in H2 as [A2 B2].
  apply Z.leb_le in A1, A2. apply Z.ltb_lt in B1, B2.
  repeat split; auto; try lia.
  intro Heq. apply negb_true_iff in Hpath.
  rewrite Heq, pystr_eqb_refl in Hpath. discriminate.
Qed.

(** X11. [click] returns true only when the click request was answered
    with status 200 or 302; an answer with any other 2xx status makes it
    return false, without diagnostic. *)
Theorem click_verdict (s : State) :
  client s = true ->
  (fst (click s) = Ok true ->
   exists resp, http env (tick s) (HttpPost action_url [] base_url) = Ok resp /\
                (status_code resp = 200 \/ status_code resp = 302)) /\
  (forall resp, http env (tick s) (HttpPost action_url [] base_url) = Ok resp ->
     200 < status_code resp < 300 ->
     click s = (Ok false,
                advance (emit (ERequest (HttpPost action_url [] base_url)) s))).
Proof.
  intro Hc. unfold click, bind, require_client, try_except, send, lift, ret, print.
  fold action_url. rewrite Hc.
  generalize (handles [RequestError]) as handled. intro handled. split.
  - destruct (http env (tick s) _) as [resp|e]; [|destruct (handled e); discriminate].
    destruct (raise_for_status resp) as [[]|e]; [|destruct (handled e); discriminate].
    cbn [fst]. intros [= H]. exists resp. split; [reflexivity|].
    apply orb_true_iff in H as [H|H]; apply Z.eqb_eq in H; auto.
  - intros resp -> Hst. unfold raise_for_status.
    replace (200 <=? status_code resp) with true by (symmetry; apply Z.leb_le; lia).
    replace (status_code resp <? 300) with true by (symmetry; apply Z.ltb_lt; lia).
    cbn [andb].
    replace (status_code resp =? 200) with false by (symmetry; apply Z.eqb_neq; lia).
    replace (status_code resp =? 302) with false by (symmetry; apply Z.eqb_neq; lia).
    reflexivity.
Qed.

(** ** The session of a run *)

Lemma safe_ret {A} (a : A) : session_safe (ret a).
Proof. intro s. split; [reflexivity|]. now exists []. Qed.

Lemma safe_lift {A} (r : pyresult A) : session_safe (lift r).
Proof. intro s. split; [reflexivity|]. now exists []. Qed.

Lemma safe_bind {A B} (m : M A) (k : A -> M B) :
  session_safe m -> (forall a, session_safe (k a)) -> session_safe (bind m k).
Proof.
  intros Hm Hk s. unfold bind.
  destruct (Hm s) as (C1 & n1 & T1 & Q1).
  destruct (m s) as [[a|e] s1]; simpl in *.
  - destruct (Hk a s1) as (C2 & n2 & T2 & Q2).
    split; [congruence|]. exists (n2 ++ n1).
    now rewrite T2, T1, app_assoc, forallb_app, Q1, Q2.
  - split; [assumption|]. now exists n1.
Qed.

Lemma safe_try_except {A} (body : M A) cs (handler : exn -> M A) :
  session_safe body -> (forall e, session_safe (handler e)) ->
  session_safe (try_except body cs handler).
Proof.
  intros Hb Hh s. unfold try_except.
  destruct (Hb s) as (C1 & n1 & T1 & Q1).
  destruct (body s) as [[a|e] s1]; simpl in *.
  - split; [assumption|]. now exists n1.
  - destruct (handles cs e).
    + destruct (Hh e s1) as (C2 & n2 & T2 & Q2).
      split; [congruence|]. exists (n2 ++ n1).
      now rewrite T2, T1, app_assoc, forallb_app, Q1, Q2.
    + split; [assumption|]. now exists n1.
Qed.

Lemma safe_print (m : msg) : session_safe (print m).
Proof. intro s. split; [reflexivity|]. now exists [EPrint m]. Qed.

Lemma safe_prints (ms : list msg) : session_safe (prints ms).
Proof.
  unfold prints. induction ms as [|m ms IH]; intro s; simpl.
  - split; [reflexivity|]. now exists [].
  - destruct (IH (emit (EPrint m) s)) as (C & new & T & Qn). simpl in *.
    split; [assumption|]. exists (new ++ [EPrint m]).
    rewrite T, <- app_assoc, forallb_app, Qn. auto.
Qed.

Lemma safe_send (r : request) : known_request r = true -> session_safe (send r).
Proof.
  intros H s. split; [reflexivity|]. exists [ERequest r]. unfold send.
  cbn [snd trace advance emit forallb app inside_session]. now rewrite H.
Qed.

Lemma safe_require_client : session_safe require_client.
Proof.
  intro s. unfold require_client. destruct (client s) eqn:E; simpl;
    (split; [assumption|now exists []]).
Qed.

Lemma safe_tick {A} (f : State -> A) :
  session_safe (fun s => (Ok (f s), advance s)).
Proof. intro s. split; [reflexivity|]. now exists []. Qed.

Lemma safe_asyncio_sleep (w : Q) : session_safe (asyncio_sleep w).
Proof. intro s. split; [reflexivity|]. now exists [ESleep w]. Qed.

Lemma known_login_page : known_request (HttpGet (base_url ++ lit "/security/login")) = true.
Proof. simpl. now rewrite pystr_eqb_refl. Qed.

Lemma known_login_form (data : list (pystr * pystr)) :
  known_request (HttpPost (base_url ++ lit "/security/login#") data base_url) = true.
Proof. simpl. now rewrite !pystr_eqb_refl. Qed.

Lemma known_game_page : known_request (HttpGet (base_url ++ lit "/game/energy")) = true.
Proof. simpl. rewrite (pystr_eqb_refl (base_url ++ lit "/game/energy")). apply orb_true_r. Qed.

Lemma known_click : known_request (HttpPost action_url [] base_url) = true.
Proof.
  simpl. rewrite !pystr_eqb_refl. simpl. apply orb_true_r.
Qed.

Lemma safe_login : session_safe login.
Proof.
  unfold login.
  repeat first
    [ apply safe_bind; [|intro] | apply safe_try_except; [|intro]
    | apply safe_ret | apply safe_lift | apply safe_require_client
    | apply safe_print
    | apply safe_send; first [apply known_login_page | apply known_login_form] ].
  intro s. split; [reflexivity|]. now exists [].
Qed.

Lemma safe_click : session_safe click.
Proof.
  unfold click.
  repeat first
    [ apply safe_bind; [|intro] | apply safe_try_except; [|intro]
    | apply safe_ret | apply safe_lift | apply safe_require_client
    | apply safe_print | apply safe_send; apply known_click ].
Qed.

Lemma safe_get_game_state : session_safe get_game_state.
Proof.
  unfold get_game_state.
  apply safe_bind; [apply safe_require_client|intros _].
  apply safe_try_except.
  - apply safe_bind; [apply safe_send, known_game_page|intro response].
    apply safe_bind; [apply safe_lift|intros _].
    destruct (extract_next_click_time (text response)) as [extracted printed].
    apply safe_bind; [apply safe_prints|intros _].
    apply safe_bind; [apply safe_lift|intro d].
    apply safe_bind; [apply (safe_tick (fun s => now_iso env (tick s)))|intro now].
    apply safe_ret.
  - intro e. apply safe_bind; [apply safe_print|intros _]. apply safe_ret.
Qed.

Lemma safe_result {A} (m : M A) (s s' : State) (r : pyresult A) :
  session_safe m -> m s = (r, s') ->
  client s' = client s /\
  exists new, trace s' = new ++ trace s /\ forallb inside_session new = true.
Proof. intros H E. specialize (H s). now rewrite E in H. Qed.

Section RunSafety.

Variable click_interval : option Q.
Variable max_clicks : option Z.
Variable duration : option Q.

Ltac safe_steps :=
  repeat first
    [ apply safe_get_game_state | apply safe_click | apply safe_asyncio_sleep
    | apply safe_ret | apply safe_print
    | apply safe_bind; [|intro]
    | apply (safe_tick (fun s => loop_time env (tick s)))
    | apply (safe_tick (fun s => humaniser_value env (tick s)))
    | match goal with
      | |- session_safe (match ?x with _ => _ end) => destruct x
      end ].

Lemma safe_check_limits (start_time : Q) :
  session_safe (check_limits max_clicks duration start_time).
Proof.
  intro s. unfold check_limits.
  destruct (max_clicks_reached max_clicks (click_count s)) as [n|].
  - split; [reflexivity|]. now exists [EPrint (MsgMaxClicks n)].
  - destruct duration as [d|]; [|split; [reflexivity|now exists []]].
    destruct (Qeq_bool d 0); [split; [reflexivity|now exists []]|].
    unfold bind, event_loop_time. cbv beta iota.
    destruct (Qle_bool d _); cbn.
    + split; [reflexivity|]. now exists [EPrint (MsgDuration d)].
    + split; [reflexivity|]. now exists [].
Qed.

Lemma safe_wait_for_cooldown : session_safe (wait_for_cooldown click_interval).
Proof. unfold wait_for_cooldown, humaniser. safe_steps. Qed.

Lemma safe_perform_click : session_safe perform_click.
Proof.
  unfold perform_click. apply safe_bind; [apply safe_click|].
  intros [|]; [|apply safe_print].
  intro s. cbn. destruct (_ =? 0); cbn.
  - split; [reflexivity|]. now exists [EPrint (MsgClicks (click_count s + 1))].
  - split; [reflexivity|]. now exists [].
Qed.

Lemma safe_iteration (start_time : Q) :
  session_safe (iteration click_interval max_clicks duration start_time).
Proof.
  unfold iteration.
  apply safe_bind; [apply safe_check_limits|].
  intros [|]; [apply safe_ret|].
  apply safe_bind; [apply safe_wait_for_cooldown|intros _].
  apply safe_bind; [apply safe_perform_click|intros _].
  apply safe_ret.
Qed.

Lemma safe_while_true (fuel : nat) (body : M flow) (s s' : State) r :
  session_safe body ->
  while_true fuel body s = Some (r, s') ->
  client s' = client s /\
  exists new, trace s' = new ++ trace s /\ forallb inside_session new = true.
Proof.
  intro Hb. revert s. induction fuel as [|fuel IH]; intros s; simpl; [discriminate|].
  destruct (Hb s) as (C1 & n1 & T1 & Q1).
  destruct (body s) as [[[|]|e] s1]; simpl in *.
  - intro E. destruct (IH _ E) as (C2 & n2 & T2 & Q2).
    split; [congruence|]. exists (n2 ++ n1).
    now rewrite T2, T1, app_assoc, forallb_app, Q1, Q2.
  - intros [= <- <-]. split; [assumption|]. now exists n1.
  - intros [= <- <-]. split; [assumption|]. now exists n1.
Qed.

Lemma safe_guarded_loop (fuel : nat) (start_time : Q) (s s' : State) r :
  guarded_loop click_interval max_clicks duration fuel start_time s = Some (r, s') ->
  client s' = client s /\
  exists new, trace s' = new ++ trace s /\ forallb inside_session new = true.
Proof.
  unfold guarded_loop.
  destruct (while_true fuel _ s) as [[r1 s1]|] eqn:E; [|discriminate].
  apply safe_while_true in E; [|apply safe_iteration].
  destruct E as (C1 & n1 & T1 & Q1).
  unfold try_finally, lift, bind, event_loop_time, print.
  generalize (handles [KeyboardInterrupt]) as handled. intro handled.
  destruct r1 as [[]|e]; [|destruct (handled e)];
    intros [= <- <-]; cbn [trace emit advance client];
    (split; [assumption|]); rewrite T1;
    [ exists (EPrint (MsgFinished (click_count (advance s1))
                        (loop_time env (tick s1) - start_time)%Q) :: n1)
    | eexists (EPrint _ :: EPrint MsgInterrupted :: n1)
    | eexists (EPrint _ :: n1) ];
    (split; [reflexivity|exact Q1]).
Qed.

Lemma safe_run_body (fuel : nat) (s s' : State) r :
  run_body click_interval max_clicks duration fuel s = Some (r, s') ->
  client s' = client s /\
  exists new, trace s' = new ++ trace s /\ forallb inside_session new = true.
Proof.
  unfold run_body.
  assert (H1 : session_safe (bind (print MsgLoggingIn) (fun _ => login)))
    by (apply safe_bind; [apply safe_print|intros _; apply safe_login]).
  destruct (bind (print MsgLoggingIn) (fun _ => login) (set_session true s))
    as [[[|]|e] s1] eqn:E1;
    destruct (safe_result _ _ _ _ H1 E1) as (C1 & n1 & T1 & Q1);
    cbn [client trace set_session] in C1, T1.
  - match goal with
    | |- match ?m s1 with _ => _ end = _ -> _ =>
        assert (H2 : session_safe m) by (unfold event_loop_time; safe_steps);
        destruct (m s1) as [[start_time|e] s2] eqn:E2;
        destruct (safe_result _ _ _ _ H2 E2) as (C2 & n2 & T2 & Q2)
    end.
    + intro E3. destruct (safe_guarded_loop _ _ _ _ _ E3) as (C3 & n3 & T3 & Q3).
      split; [congruence|]. exists (n3 ++ n2 ++ n1).
      rewrite T3, T2, T1, !app_assoc, !forallb_app, Q1, Q2, Q3. auto.
    + intros [= <- <-]. split; [congruence|]. exists (n2 ++ n1).
      rewrite T2, T1, app_assoc, forallb_app, Q1, Q2. auto.
  - intros [= <- <-]. cbn [client trace emit]. split; [assumption|].
    exists (EPrint MsgLoginAbort :: n1). rewrite T1. auto.
  - intros [= <- <-]. split; [assumption|]. now exists n1.
Qed.

(** X12. Every run that returns, with a value or with an exception, has
    opened the client once, as its first act, and closed it once, as its
    last; all it did in between was print, sleep and send requests among
    four: the login page, the login form, the game page and the click
    action of the base address. In particular the credentials go nowhere
    but to the login address. *)
Theorem run_session_bracket (fuel : nat) (s s' : State) (r : pyresult unit) :
  run click_interval max_clicks duration fuel s = Some (r, s') ->
  exists inner : list event,
    trace s' = ECloseClient :: inner ++ EOpenClient :: trace s /\
    forallb inside_session inner = true /\
    opens (trace s') = S (opens (trace s)) /\
    closes (trace s') = S (closes (trace s)).
Proof.
  rewrite run_unfold.
  destruct (run_body _ _ _ fuel _) as [[r1 s1]|] eqn:E; [|discriminate].
  destruct (safe_run_body _ _ _ _ E) as (C & inner & T & Hin).
  cbn [client trace set_client emit set_cookies] in C, T.
  rewrite aexit_effect by exact C. intros [= <- <-].
  exists inner. cbn [trace emit]. rewrite T.
  assert (Hcount : forall f, (forall ev, inside_session ev = true -> f ev = false) ->
                     filter f inner = []).
  { intros f Hf. clear T. induction inner as [|ev inner IH]; [reflexivity|].
    simpl in Hin. apply andb_true_iff in Hin as [H1 H2].
    simpl. now rewrite (Hf ev H1), IH. }
  repeat split; auto.
  - unfold opens. simpl. rewrite filter_app, Hcount; [reflexivity|].
    intros [| | | |]; try reflexivity; discriminate.
  - unfold closes. simpl. rewrite filter_app, Hcount; [reflexivity|].
    intros [| | | |]; try reflexivity; discriminate.
Qed.

End RunSafety.

(** ** The click counter over a run *)

Section RunCounter.

Variable click_interval : option Q.
Variable max_clicks : option Z.
Variable duration : option Q.

Lemma check_limits_stops_at_cap (start_time : Q) (s : State) (n : Z) :
  max_clicks_reached max_clicks (click_count s) = Some n ->
  check_limits max_clicks duration start_time s
  = (Ok true, emit (EPrint (MsgMaxClicks n)) s).
Proof. intro H. unfold check_limits. now rewrite H. Qed.

Lemma check_limits_passes (start_time : Q) (s s0 : State) :
  check_limits max_clicks duration start_time s = (Ok false, s0) ->
  max_clicks_reached max_clicks (click_count s) = None.
Proof.
  unfold check_limits.
  destruct (max_clicks_reached max_clicks (click_count s)); [discriminate|reflexivity].
Qed.

(** One iteration leaves the counter alone, or it sent one click request
    and counts it, the cap not being reached. *)
Lemma iteration_counter (start_time : Q) (s s' : State) (r : pyresult flow) :
  iteration click_interval max_clicks duration start_time s = (r, s') ->
  (click_count s' = click_count s /\
   (clicks_in (trace s) <= clicks_in (trace s'))%nat) \/
  (click_count s' = click_count s + 1 /\
   clicks_in (trace s') = S (clicks_in (trace s)) /\
   max_clicks_reached max_clicks (click_count s) = None).
Proof.
  unfold iteration, bind.
  destruct (check_limits max_clicks duration start_time s) as [[stop|e] s0] eqn:E0;
    destruct (calm_result _ _ _ _ (calm_check_limits _ _ _) E0) as (C0 & K0 & T0);
    [|intros [= <- <-]; left; split; [congruence|lia]].
  destruct stop; [intros [= <- <-]; left; split; [congruence|lia]|].
  apply check_limits_passes in E0.
  destruct (wait_for_cooldown click_interval s0) as [[[]|e] s1] eqn:E1;
    destruct (calm_result _ _ _ _ (calm_wait_for_cooldown _) E1) as (C1 & K1 & T1);
    [|intros [= <- <-]; left; split; [congruence|lia]].
  unfold perform_click, bind.
  destruct (click s1) as [[success|e] s2] eqn:E2;
    destruct (click_effect _ _ _ E2) as (C2 & K2 & _ & _ & T2 & F2).
  - assert (T2' : (clicks_in (trace s1) <= clicks_in (trace s2))%nat).
    { destruct (client s1); [rewrite T2 by reflexivity; lia|].
      destruct F2 as [_ ->]; [reflexivity|lia]. }
    destruct success.
    + assert (Hc : client s1 = true).
      { destruct (client s1); [reflexivity|]. destruct F2 as [F _]; [reflexivity|discriminate]. }
      unfold print, ret. destruct (_ =? 0); intros [= <- <-];
        cbn [click_count trace emit set_click_count]; rewrite ?clicks_in_print;
        right; (split; [congruence|]); (split; [rewrite T2 by exact Hc; congruence|exact E0]).
    + unfold print. intros [= <- <-]. cbn [click_count trace emit].
      rewrite clicks_in_print. left. split; [congruence|lia].
  - assert (T2' : (clicks_in (trace s1) <= clicks_in (trace s2))%nat).
    { destruct (client s1); [rewrite T2 by reflexivity; lia|].
      destruct F2 as [_ ->]; [reflexivity|lia]. }
    intros [= <- <-]. left. split; [congruence|lia].
Qed.

Lemma loop_counter (start_time : Q) (fuel : nat) (s s' : State) r :
  while_true fuel (iteration click_interval max_clicks duration start_time) s
  = Some (r, s') ->
  click_count s <= click_count s' /\
  (clicks_in (trace s) <= clicks_in (trace s'))%nat /\
  click_count s' - click_count s
  <= Z.of_nat (clicks_in (trace s')) - Z.of_nat (clicks_in (trace s)) /\
  (forall n, max_clicks = Some n -> 0 < n -> click_count s <= n ->
             click_count s' <= n).
Proof.
  revert s. induction fuel as [|fuel IH]; intro s; simpl; [discriminate|].
  destruct (iteration _ _ _ _ s) as [r1 s1] eqn:E1.
  pose proof (iteration_counter _ _ _ _ E1) as Hit.
  assert (Hstep : click_count s <= click_count s1 /\
                  (clicks_in (trace s) <= clicks_in (trace s1))%nat /\
                  click_count s1 - click_count s
                  <= Z.of_nat (clicks_in (trace s1)) - Z.of_nat (clicks_in (trace s)) /\
                  (forall n, max_clicks = Some n -> 0 < n -> click_count s <= n ->
                             click_count s1 <= n)).
  { destruct Hit as [[K T]|(K & T & Hcap)].
    - repeat split; lia.
    - repeat split; try lia. intros n Hn Hpos Hle.
      unfold max_clicks_reached in Hcap. rewrite Hn in Hcap.
      destruct (Z.eqb_spec n 0); [lia|]. cbn [negb andb] in Hcap.
      destruct (Z.leb_spec n (click_count s)); [discriminate|lia]. }
  destruct Hstep as (H1 & H2 & H3 & H4).
  destruct r1 as [[|]|e].
  - intro E. destruct (IH _ E) as (G1 & G2 & G3 & G4).
    repeat split; try lia. intros n Hn Hpos Hle. apply (G4 n Hn Hpos). now apply (H4 n).
  - intros [= <- <-]. auto.
  - intros [= <- <-]. auto.
Qed.

Lemma loop_stops_at_cap (start_time : Q) (fuel : nat) (s : State) (n : Z) :
  max_clicks_reached max_clicks (click_count s) = Some n ->
  while_true (S fuel) (iteration click_interval max_clicks duration start_time) s
  = Some (Ok tt, emit (EPrint (MsgMaxClicks n)) s).
Proof.
  intro H. simpl. unfold iteration, bind.
  now rewrite (check_limits_stops_at_cap start_time s n H).
Qed.

(** A run that returns did not enter the loop and changed neither the
    counter nor the clicks and sleeps on record; or it ran the loop from a
    state with those unchanged, and ends as the loop ended, a
    [KeyboardInterrupt] out of the loop being turned into a return. *)
Lemma run_cases (fuel : nat) (s s' : State) (r : pyresult unit) :
  run click_interval max_clicks duration fuel s = Some (r, s') ->
  (click_count s' = click_count s /\ clicks_in (trace s') = clicks_in (trace s) /\
   sleeps (trace s') = sleeps (trace s)) \/
  exists start_time s2 rg sg,
    click_count s2 = click_count s /\ clicks_in (trace s2) = clicks_in (trace s) /\
    sleeps (trace s2) = sleeps (trace s) /\
    while_true fuel (iteration click_interval max_clicks duration start_time) s2
    = Some (rg, sg) /\
    click_count s' = click_count sg /\ clicks_in (trace s') = clicks_in (trace sg) /\
    sleeps (trace s') = sleeps (trace sg) /\
    r = match rg with
        | Raise e => if handles [KeyboardInterrupt] e then Ok tt else Raise e
        | Ok _ => Ok tt
        end.
Proof.
  rewrite run_unfold. unfold run_body.
  set (s0 := set_session true _).
  assert (F1 : frame (bind (print MsgLoggingIn) (fun _ => login)))
    by (apply frame_bind; [now apply frame_print|intros _; apply frame_login]).
  destruct (bind (print MsgLoggingIn) (fun _ => login) s0) as [[[|]|e] s1] eqn:E1;
    destruct (frame_result _ _ _ _ F1 E1) as (S1 & _ & T1 & C1 & K1);
    cbn [client trace click_count set_session set_client emit set_cookies s0 sleeps]
      in S1, T1, C1, K1;
    change (clicks_in (EOpenClient :: trace s)) with (clicks_in (trace s)) in T1.
  - match goal with
    | |- match match ?m s1 with _ => _ end with _ => _ end = _ -> _ =>
        assert (F2 : frame m)
          by (repeat first
                [ apply frame_get_game_state | apply frame_event_loop_time
                | apply frame_ret | apply frame_print; exact I
                | apply frame_bind; [|intro]
                | match goal with
                  | |- frame (match ?x with _ => _ end) => destruct x
                  end ]);
        destruct (m s1) as [[start_time|e] s2] eqn:E2;
        destruct (frame_result _ _ _ _ F2 E2) as (S2 & _ & T2 & C2 & K2)
    end.
    + unfold guarded_loop.
      destruct (while_true fuel _ s2) as [[rg sg]|] eqn:E3; [|discriminate].
      destruct (safe_while_true _ _ _ _ _ (safe_iteration _ _ _ start_time) E3) as (C3 & _).
      unfold try_finally, lift, bind, event_loop_time, print, aexit.
      intro H. right. exists start_time, s2, rg, sg.
      split; [congruence|]. split; [congruence|]. split; [congruence|].
      split; [exact E3|].
      revert H. generalize (handles [KeyboardInterrupt]) as handled. intro handled.
      destruct rg as [[]|e]; [|destruct (handled e)];
        cbn [client emit advance]; rewrite C3, C2, C1;
        intros [= <- <-]; cbn [click_count trace emit advance sleeps];
        rewrite ?clicks_in_print; auto.
    + rewrite aexit_effect by congruence. intros [= <- <-]. left.
      cbn [click_count trace emit sleeps].
      change (clicks_in (ECloseClient :: ?tr)) with (clicks_in tr).
      repeat split; congruence.
  - unfold print. rewrite aexit_effect by assumption. intros [= <- <-]. left.
    cbn [click_count trace emit sleeps].
    change (clicks_in (ECloseClient :: ?tr)) with (clicks_in tr).
    rewrite clicks_in_print. repeat split; congruence.
  - rewrite aexit_effect by assumption. intros [= <- <-]. left.
    cbn [click_count trace emit sleeps].
    change (clicks_in (ECloseClient :: ?tr)) with (clicks_in tr).
    repeat split; congruence.
Qed.

(** X13. The cap is never exceeded: with a positive [max_clicks] and a
    counter that starts at or below it, the counter of a run that returns,
    however it ends and whatever the server answers, is at most
    [max_clicks]. *)
Theorem run_respects_max_clicks (fuel : nat) (n : Z) (s s' : State)
    (r : pyresult unit) :
  max_clicks = Some n -> 0 < n -> click_count s <= n ->
  run click_interval max_clicks duration fuel s = Some (r, s') ->
  click_count s' <= n.
Proof.
  intros Hn Hpos Hle Hrun.
  destruct (run_cases _ _ _ _ Hrun)
    as [(K & _)|(start_time & s2 & rg & sg & K2 & _ & _ & Hloop & K' & _)].
  - lia.
  - destruct (loop_counter _ _ _ _ _ Hloop) as (_ & _ & _ & Hcap).
    rewrite K'. apply (Hcap n Hn Hpos). lia.
Qed.

(** X14. The counter of a run never goes down, and it never grows by more
    than the number of click requests the run has sent: every counted
    click was a request. *)
Theorem run_counts_requests (fuel : nat) (s s' : State) (r : pyresult unit) :
  run click_interval max_clicks duration fuel s = Some (r, s') ->
  click_count s <= click_count s' /\
  click_count s' - click_count s
  <= Z.of_nat (clicks_in (trace s')) - Z.of_nat (clicks_in (trace s)).
Proof.
  intro Hrun.
  destruct (run_cases _ _ _ _ Hrun)
    as [(K & T & _)|(start_time & s2 & rg & sg & K2 & T2 & _ & Hloop & K' & T' & _)].
  - rewrite K, T. lia.
  - destruct (loop_counter _ _ _ _ _ Hloop) as (H1 & H2 & H3 & _).
    rewrite K', T', <- K2, <- T2. lia.
Qed.

(** X15. When the counter has already reached a non-zero [max_clicks] as
    the run starts (a negative cap, or a bot that is run again), the run
    sends no click request and does not sleep; the counter stays as it
    was. *)
Theorem run_with_cap_reached (fuel : nat) (n : Z) (s s' : State)
    (r : pyresult unit) :
  max_clicks = Some n -> n <> 0 -> n <= click_count s ->
  run click_interval max_clicks duration fuel s = Some (r, s') ->
  click_count s' = click_count s /\
  clicks_in (trace s') = clicks_in (trace s) /\
  sleeps (trace s') = sleeps (trace s).
Proof.
  intros Hn Hnz Hle Hrun.
  destruct (run_cases _ _ _ _ Hrun)
    as [H|(start_time & s2 & rg & sg & K2 & T2 & S2 & Hloop & K' & T' & S' & _)];
    [exact H|].
  assert (Hcap : max_clicks_reached max_clicks (click_count s2) = Some n).
  { unfold max_clicks_reached. rewrite Hn, K2.
    replace (n =? 0) with false by (symmetry; now apply Z.eqb_neq).
    replace (n <=? click_count s) with true by (symmetry; now apply Z.leb_le).
    reflexivity. }
  destruct fuel as [|fuel]; [discriminate|].
  rewrite (loop_stops_at_cap start_time fuel s2 n Hcap) in Hloop.
  injection Hloop as <- <-.
  cbn [click_count trace emit sleeps] in K', T', S'.
  rewrite clicks_in_print in T'. repeat split; congruence.
Qed.

(** X16. A [KeyboardInterrupt] raised inside the loop does not leave the
    run: when a run raises [KeyboardInterrupt] to its caller, the
    interruption came before the loop, so that no click request was sent,
    nothing slept and the counter is as it was. *)
Theorem run_interrupt_only_before_loop (fuel : nat) (s s' : State) (e : exn) :
  run click_interval max_clicks duration fuel s = Some (Raise e, s') ->
  isinstance e KeyboardInterrupt = true ->
  click_count s' = click_count s /\
  clicks_in (trace s') = clicks_in (trace s) /\
  sleeps (trace s') = sleeps (trace s).
Proof.
  intros Hrun He.
  destruct (run_cases _ _ _ _ Hrun)
    as [H|(start_time & s2 & rg & sg & _ & _ & _ & _ & _ & _ & _ & Hr)];
    [exact H|].
  exfalso. destruct rg as [[]|e']; [discriminate|].
  destruct (handles [KeyboardInterrupt] e') eqn:Hh; [discriminate|].
  injection Hr as ->. cbn [handles existsb] in Hh.
  rewrite orb_false_r in Hh. congruence.
Qed.

End RunCounter.

(** ** The deadline and the date difference *)

(** X17. With a duration limit in force, an iteration that sends a click
    request read the clock, at its start, before the deadline: no click is
    sent in an iteration that began at or after it. *)
Theorem click_only_before_deadline (click_interval : option Q)
    (max_clicks : option Z) (d start_time : Q) (s s' : State) (r : pyresult flow) :
  iteration click_interval max_clicks (Some d) start_time s = (r, s') ->
  ~ (d == 0)%Q ->
  clicks_in (trace s') <> clicks_in (trace s) ->
  (loop_time env (tick s) - start_time < d)%Q.
Proof.
  intros Hit Hd Hclick.
  assert (Hnz : Qeq_bool d 0 = false).
  { destruct (Qeq_bool d 0) eqn:E; [|reflexivity].
    apply Qeq_bool_iff in E. contradiction. }
  revert Hit. unfold iteration, bind, check_limits.
  destruct (max_clicks_reached max_clicks (click_count s)).
  - unfold print, ret. intros [= <- <-]. cbn [trace emit] in Hclick.
    rewrite clicks_in_print in Hclick. contradiction.
  - rewrite Hnz. unfold event_loop_time, bind. cbv beta iota.
    destruct (Qle_bool d (loop_time env (tick s) - start_time)) eqn:Hle.
    + unfold print, ret. intros [= <- <-]. cbn [trace emit advance] in Hclick.
      rewrite clicks_in_print in Hclick. contradiction.
    + intros _. now apply Qlt_bool_iff; unfold Qlt_bool; rewrite Hle.
Qed.

(** X18. [delta_to_date] passes on what the parser raises; it raises
    [TypeError] for a timestamp without timezone; for a timezone-aware one
    it returns a duration that is positive exactly when the date lies
    after the current instant. *)
Theorem delta_to_date_spec (now_utc : Z) (date_str : pystr) :
  match fromisoformat date_str with
  | Raise e => delta_to_date now_utc date_str = Raise e
  | Ok target =>
      match utcoffset target with
      | None => delta_to_date now_utc date_str = Raise TypeError
      | Some offset =>
          exists d : timedelta,
            delta_to_date now_utc date_str = Ok d /\
            (0 < d <-> now_utc < wall_us target - offset) /\
            (d = 0 <-> now_utc = wall_us target - offset)
      end
  end.
Proof.
  unfold delta_to_date. destruct (fromisoformat date_str) as [target|e];
    cbn [rbind]; [|reflexivity].
  unfold dt_sub. cbn [utcoffset wall_us].
  destruct (utcoffset target) as [offset|]; [|reflexivity].
  eexists. split; [reflexivity|]. split; lia.
Qed.
End Bot.

(** ** The theorems at the reference parsers and the example servers *)

(** The counter element of the example pages: the page is five characters
    in when [data-controller="counter"] first occurs. *)
Lemma counter_page_element (value : pystr) :
  ~ In dquote value -> counter_element (counter_page value) value.
Proof.
  intro Hno. exists (lit "<div "), (newline :: lit "     "), (lit "></div>").
  split; [|split; [discriminate|split; [reflexivity|split; [exact Hno|]]]].
  - vm_compute. reflexivity.
  - intros p q H.
    do 5 (destruct p as [|? p]; [vm_compute in H; discriminate H|]).
    simpl. lia.
Qed.

Lemma five_minutes_events :
  well_formed_events Ref.json_loads Ref.fromisoformat
    (events_json "2024-01-01T12:00:00+01:00" "2024-01-01T12:05:00+01:00")
    (mkDatetime 63839707200000000 (Some 3600000000))
    (mkDatetime 63839707500000000 (Some 3600000000)).
Proof.
  unfold well_formed_events. do 4 eexists.
  split; [vm_compute; reflexivity|].
  split; [vm_compute; reflexivity|].
  split; [vm_compute; reflexivity|].
  split; [discriminate|]. split; [discriminate|].
  split; vm_compute; reflexivity.
Qed.

Lemma listed_nowhere (c : pychar) (s : pystr) :
  forallb (fun x => negb (N.eqb x c)) s = true -> ~ In c s.
Proof.
  intros H Hin. rewrite forallb_forall in H. specialize (H c Hin).
  now rewrite N.eqb_refl in H.
Qed.

Lemma extract_next_click_time_spec_witness :
  html_unescape
    (entity_quote (events_json "2024-01-01T12:00:00+01:00" "2024-01-01T12:05:00+01:00"))
  = events_json "2024-01-01T12:00:00+01:00" "2024-01-01T12:05:00+01:00" /\
  exists d : timedelta,
    dt_sub (mkDatetime 63839707500000000 (Some 3600000000))
           (mkDatetime 63839707200000000 (Some 3600000000)) = Ok d /\
    extract_next_click_time Ref.json_loads Ref.fromisoformat page_five_minutes
    = (Ok (if 0 <? d then d else 0), []).
Proof.
  apply (proj2 (extract_next_click_time_spec Ref.json_loads Ref.fromisoformat
                  page_five_minutes)).
  - apply (counter_page_element
             (event_value "2024-01-01T12:00:00+01:00" "2024-01-01T12:05:00+01:00")).
    apply listed_nowhere. vm_compute. reflexivity.
  - apply listed_nowhere. vm_compute. reflexivity.
  - exact five_minutes_events.
  - reflexivity.
Defined.

(** Five minutes of cooldown are extracted as 300 seconds. *)
Example extract_five_minutes :
  extract_next_click_time Ref.json_loads Ref.fromisoformat page_five_minutes
  = (Ok 300000000, []).
Proof. vm_compute. reflexivity. Qed.

(** An interval that has run out, a truncated block and a page without
    counter all give the zero duration. *)
Example extract_degraded :
  extract_next_click_time Ref.json_loads Ref.fromisoformat page_expired = (Ok 0, []) /\
  extract_next_click_time Ref.json_loads Ref.fromisoformat page_truncated
  = (Ok 0, [MsgParseError JSONDecodeError]) /\
  extract_next_click_time Ref.json_loads Ref.fromisoformat page_no_counter = (Ok 0, []).
Proof. repeat split; vm_compute; reflexivity. Qed.

(** C2, where the code departs from it. The page holds a counter element
    whose events value is an entity encoding of a JSON array: its first
    event carries the timezone-aware timestamps 12:00 and 12:05 at offset
    +01:00, with the double quotes written [&quot;] and the plus sign of
    the offsets written [&#43;]. The step that decodes the entities
    replaces [&quot;] only, so the timestamps reach [fromisoformat] with the
    reference in them: the result is the zero duration, not the five
    minutes between them. *)
Theorem extract_other_references_not_decoded :
  exists (attr : pystr) (start end_ : datetime) (d : timedelta),
    counter_element page_plus_reference attr /\
    html_unescape attr
    = events_json "2024-01-01T12:00:00+01:00" "2024-01-01T12:05:00+01:00" /\
    well_formed_events Ref.json_loads Ref.fromisoformat (html_unescape attr)
      start end_ /\
    is_aware start = true /\ is_aware end_ = true /\
    dt_sub end_ start = Ok d /\ 0 < d /\
    extract_next_click_time Ref.json_loads Ref.fromisoformat page_plus_reference
    = (Ok 0, [MsgParseError ValueError]).
Proof.
  exists (event_value "2024-01-01T12:00:00&#43;01:00" "2024-01-01T12:05:00&#43;01:00").
  do 3 eexists.
  split; [apply counter_page_element, listed_nowhere; vm_compute; reflexivity|].
  split; [vm_compute; reflexivity|].
  split.
  { replace (html_unescape _)
      with (events_json "2024-01-01T12:00:00+01:00" "2024-01-01T12:05:00+01:00")
      by (vm_compute; reflexivity).
    exact five_minutes_events. }
  split; [reflexivity|]. split; [reflexivity|].
  split; [vm_compute; reflexivity|].
  split; [reflexivity|].
  vm_compute. reflexivity.
Qed.

(** A first event with a naive start and a timezone-aware end: both
    timestamps parse, and the subtraction raises [TypeError], which the
    handler does not catch. *)
Example extract_mixed_awareness_raises :
  fst (extract_next_click_time Ref.json_loads Ref.fromisoformat page_mixed)
  = Raise TypeError.
Proof. vm_compute. reflexivity. Qed.

(** C3, where the code departs from it. A counter block holding the JSON
    array [[1]] makes [extract_next_click_time] raise [AttributeError] to
    its caller: the first event is a number, which has no [get], and the
    handler catches [JSONDecodeError], [KeyError] and [ValueError] only. *)
Theorem extract_raises_on_unexpected_shape :
  fst (extract_next_click_time Ref.json_loads Ref.fromisoformat page_number_event)
  = Raise AttributeError.
Proof. vm_compute. reflexivity. Qed.

Lemma http_error_status_escapes_witness :
  fst (login env_server_error example_email example_password example_base in_session)
  = Raise HTTPStatusError /\
  fst (click env_server_error example_base in_session) = Raise HTTPStatusError /\
  fst (get_game_state Ref.json_loads Ref.fromisoformat env_server_error example_base
         in_session) = Raise HTTPStatusError.
Proof.
  apply (http_error_status_escapes Ref.json_loads Ref.fromisoformat env_server_error
           example_email example_password example_base in_session
           (mkResponse 500 [] (example_base ++ lit "/game/energy") (lit "/game/energy"))).
  - reflexivity.
  - simpl. lia.
  - intro r. reflexivity.
Defined.

(** With the network down the three operations return their sentinel. *)
Example offline_gives_sentinels :
  fst (login env_offline example_email example_password example_base in_session)
  = Ok false /\
  fst (click env_offline example_base in_session) = Ok false /\
  fst (get_game_state Ref.json_loads Ref.fromisoformat env_offline example_base
         in_session) = Ok None.
Proof.
  apply (transport_fault_gives_sentinel Ref.json_loads Ref.fromisoformat env_offline
           example_email example_password example_base in_session ConnectError).
  - reflexivity.
  - reflexivity.
  - intro r. reflexivity.
Qed.

(** A bot that has not run yet. *)
Lemma example_bot_init :
  EnergyBot_init example_email example_password
  = Ok (mkState O [] false false false 0).
Proof. reflexivity. Qed.

Lemma wait_before_click_witness :
  match get_game_state Ref.json_loads Ref.fromisoformat (env_game page_five_minutes)
          example_base in_session,
        iteration Ref.json_loads Ref.fromisoformat (env_game page_five_minutes)
          example_base (Some (1 # 2)) (Some 3) None 0 in_session
  with
  | (Ok state, s1), (r, s') =>
      (exists wait : Q,
         ((0 < 1 # 2 ->
           wait == Qmax (match cooldown_of state with
                         | Some v => Qmax 0 v
                         | None => 0
                         end
                         + humaniser_value (env_game page_five_minutes) (tick s1))
                        (1 # 2)) /\
          (1 # 2 <= 0 ->
           wait == match cooldown_of state with
                   | Some v => Qmax 0 v
                   | None => 0
                   end
                   + humaniser_value (env_game page_five_minutes) (tick s1))) /\
         exists announced after : list event,
           (forall ev, In ev announced \/ In ev after -> exists m, ev = EPrint m) /\
           (0 < wait ->
            match sleep_outcome (env_game page_five_minutes) (S (tick s1)) wait with
            | Ok _ =>
                trace s' = after ++ ERequest (HttpPost (action_url example_base) []
                                                example_base)
                                 :: ESleep wait :: announced ++ trace s1
            | Raise e =>
                r = Raise e /\ trace s' = ESleep wait :: announced ++ trace s1
            end) /\
           (wait <= 0 ->
            trace s' = after ++ ERequest (HttpPost (action_url example_base) []
                                            example_base)
                             :: announced ++ trace s1))%Q
  | (Raise _, _), _ => False
  end.
Proof.
  destruct (get_game_state _ _ _ _ in_session) as [[state|e] s1] eqn:G;
    [|vm_compute in G; discriminate G].
  destruct (iteration _ _ _ _ _ _ _ _ in_session) as [r s'] eqn:I.
  refine (proj1 (wait_before_click Ref.json_loads Ref.fromisoformat
                   (env_game page_five_minutes) example_base
                   (Some (1 # 2)) (Some 3) None 0 in_session in_session
                   s1 s' state r _ _ G I));
    vm_compute; reflexivity.
Defined.

(** The iteration at a cooldown of five minutes: the request for the
    state, the two announcements, the sleep of 301.6 s, the click. *)
Example iteration_five_minutes :
  exists fetch announce1 announce2,
    trace (snd (iteration Ref.json_loads Ref.fromisoformat
                  (env_game page_five_minutes) example_base
                  (Some (1 # 2)) (Some 3) None 0 in_session))
    = [ERequest (HttpPost (action_url example_base) [] example_base);
       ESleep ((300000000 # 1000000) + (8 # 5))%Q;
       EPrint announce2; EPrint announce1; ERequest (HttpGet fetch)]
      ++ trace in_session.
Proof. do 3 eexists. vm_compute. reflexivity. Qed.

(** At a cooldown of five minutes the loop sleeps 301.6 s. *)
Example wait_five_minutes :
  sleeps (trace (snd (wait_for_cooldown Ref.json_loads Ref.fromisoformat
                        (env_game page_five_minutes) example_base
                        (Some (1 # 2)) in_session)))
  = [(300000000 # 1000000) + (8 # 5)]%Q.
Proof. vm_compute. reflexivity. Qed.

Lemma login_failure_stops_run_witness :
  exists s1 : State,
    login env_rejected example_email example_password example_base
      (at_login (mkState O [] false false false 0)) = (Ok false, s1) /\
    run Ref.json_loads Ref.fromisoformat env_rejected example_email
      example_password example_base (Some (1 # 2)) (Some 3) None 0
      (mkState O [] false false false 0)
    = Some (Ok tt, emit ECloseClient (emit (EPrint MsgLoginAbort) s1)) /\
    click_count s1 = 0 /\
    clicks_in example_base
      (trace (emit ECloseClient (emit (EPrint MsgLoginAbort) s1))) = O.
Proof.
  eexists. split.
  - vm_compute. reflexivity.
  - apply (login_failure_stops_run Ref.json_loads Ref.fromisoformat env_rejected
             example_email example_password example_base
             (Some (1 # 2)) (Some 3) None 0 (mkState O [] false false false 0)).
    vm_compute. reflexivity.
Defined.



(** On the server that always shows the game page, state fetches return
    and clicks succeed in every state that has a client. *)
Lemma env_game_state_fetched (s : State) :
  client s = true ->
  exists state,
    fst (get_game_state Ref.json_loads Ref.fromisoformat (env_game page_no_counter)
           example_base s) = Ok state.
Proof.
  intro Hc. eexists.
  unfold get_game_state, bind, require_client, try_except, send, lift.
  rewrite Hc. cbn [http env_game server landing raise_for_status status_code text].
  replace (extract_next_click_time Ref.json_loads Ref.fromisoformat page_no_counter)
    with (@Ok timedelta 0, @nil msg) by (vm_compute; reflexivity).
  reflexivity.
Qed.

Lemma env_game_click_succeeds (s : State) :
  client s = true ->
  fst (click (env_game page_no_counter) example_base s) = Ok true.
Proof.
  intro Hc. unfold click, bind, require_client, try_except, send, lift.
  rewrite Hc. reflexivity.
Qed.

Lemma run_stops_at_max_clicks_witness :
  exists s' : State,
    run Ref.json_loads Ref.fromisoformat (env_game page_no_counter) example_email
      example_password example_base (Some (1 # 2)) (Some 3) (Some (1000 # 1)) 4
      (mkState O [] false false false 0) = Some (Ok tt, s') /\
    click_count s' = 3 /\ Z.of_nat (clicks_in example_base (trace s')) = 3.
Proof.
  eapply (run_stops_at_max_clicks Ref.json_loads Ref.fromisoformat
            (env_game page_no_counter) example_email example_password example_base
            (Some (1 # 2)) (Some (1000 # 1)) 3 4 (mkState O [] false false false 0)).
  - lia.
  - simpl. lia.
  - vm_compute. reflexivity.
  - exact env_game_state_fetched.
  - exact env_game_click_succeeds.
  - intros k w. reflexivity.
  - right. intros started t. vm_compute in started. subst started.
    cbn [click_count Z.sub Z.opp Z.add Z.pos_sub Z.to_nat]. intro Ht.
    cbn [loop_time env_game server].
    unfold Qlt, Qminus, Qplus, Qopp, inject_Z. cbn [Qnum Qden]. lia.
  - simpl. lia.
Defined.

(** C7 as stated fails on a bot that is run again: the first run, capped
    at 3 with every click succeeding, sends 3 click requests; the second
    run of the same bot under the same cap, every click still succeeding,
    logs in and stops at once, having sent none. *)
Lemma second_run_sends_no_click :
  exists s1 s2 : State,
    run Ref.json_loads Ref.fromisoformat (env_game page_no_counter) example_email
      example_password example_base (Some (1 # 2)) (Some 3) None 4
      (mkState O [] false false false 0) = Some (Ok tt, s1) /\
    clicks_in example_base (trace s1) = 3%nat /\
    run Ref.json_loads Ref.fromisoformat (env_game page_no_counter) example_email
      example_password example_base (Some (1 # 2)) (Some 3) None 4 s1
    = Some (Ok tt, s2) /\
    clicks_in example_base (trace s2) = clicks_in example_base (trace s1) /\
    click_count s2 = 3.
Proof.
  eexists. eexists.
  split; [vm_compute; reflexivity|].
  split; [vm_compute; reflexivity|].
  split; [vm_compute; reflexivity|].
  split; vm_compute; reflexivity.
Qed.

Lemma failed_click_continues_witness :
  exists s0 s1 s2 : State,
    check_limits env_click_unreachable (Some 3) None 0 in_session = (Ok false, s0) /\
    wait_for_cooldown Ref.json_loads Ref.fromisoformat env_click_unreachable
      example_base (Some (1 # 2)) s0 = (Ok tt, s1) /\
    click env_click_unreachable example_base s1 = (Ok false, s2) /\
    let s3 := emit (EPrint MsgClickFailed) s2 in
    iteration Ref.json_loads Ref.fromisoformat env_click_unreachable example_base
      (Some (1 # 2)) (Some 3) None 0 in_session = (Ok Continue, s3) /\
    while_true 1 (iteration Ref.json_loads Ref.fromisoformat env_click_unreachable
                    example_base (Some (1 # 2)) (Some 3) None 0) in_session
    = while_true 0 (iteration Ref.json_loads Ref.fromisoformat env_click_unreachable
                      example_base (Some (1 # 2)) (Some 3) None 0) s3 /\
    click_count s3 = click_count in_session /\
    sleeps (trace s3) = sleeps (trace s1).
Proof.
  do 3 eexists.
  split; [vm_compute; reflexivity|].
  split; [vm_compute; reflexivity|].
  split; [vm_compute; reflexivity|].
  eapply (failed_click_continues Ref.json_loads Ref.fromisoformat
            env_click_unreachable example_base (Some (1 # 2)) (Some 3) None 0 0
            in_session);
    vm_compute; reflexivity.
Defined.

(** A run against a server whose click action cannot be reached goes on
    trying until the duration limit: it ends with no click counted. *)
Example unreachable_click_run :
  exists s' : State,
    run Ref.json_loads Ref.fromisoformat env_click_unreachable example_email
      example_password example_base (Some (1 # 2)) (Some 3) (Some 30%Q) 20
      (mkState O [] false false false 0) = Some (Ok tt, s') /\
    click_count s' = 0 /\ reports (trace s') = [(0, 32%Q)].
Proof.
  eexists. split; [vm_compute; reflexivity|]. split; vm_compute; reflexivity.
Qed.

(** ** The jitter expression *)

Section Jitter.

Local Open Scope R_scope.

Lemma exp_below_inverse (x : R) : x < 1 -> exp x * (1 - x) <= 1.
Proof.
  intro Hx.
  pose proof (exp_ineq1_le (- x)) as H. rewrite exp_Ropp in H.
  pose proof (exp_pos x) as Hp.
  apply Rmult_le_compat_l with (r := exp x) in H; [|lra].
  rewrite Rinv_r in H by lra. lra.
Qed.

Lemma exp_square_lower (a b s t : R) :
  a <= exp s -> 0 <= a -> t = s + s -> b <= a * a -> b <= exp t.
Proof.
  intros Ha H0 -> Hb. rewrite exp_plus.
  apply Rle_trans with (a * a); [exact Hb|]. now apply Rmult_le_compat.
Qed.

Lemma exp_square_upper (a b s t : R) :
  exp s <= a -> t = s + s -> a * a <= b -> exp t <= b.
Proof.
  intros Ha -> Hb. rewrite exp_plus. pose proof (exp_pos s) as P.
  apply Rle_trans with (a * a); [|exact Hb]. apply Rmult_le_compat; lra.
Qed.


(** Bounds of [exp] at five points, each by squaring a bound at a small
    argument. *)
Lemma exp_1065_lower : (29 / 10) <= exp (213 / 200).
Proof.
  pose proof (exp_ineq1_le (213 / 6553600)) as B0.
  pose proof (exp_square_lower _ (10000650034977 / 10000000000000) _ (213 / 3276800) B0
                ltac:(lra) ltac:(lra) ltac:(lra)) as B1; clear B0.
  pose proof (exp_square_lower _ (625081257013 / 625000000000) _ (213 / 1638400) B1
                ltac:(lra) ltac:(lra) ltac:(lra)) as B2; clear B1.
  pose proof (exp_square_lower _ (2000520078689 / 2000000000000) _ (213 / 819200) B2
                ltac:(lra) ltac:(lra) ltac:(lra)) as B3; clear B2.
  pose proof (exp_square_lower _ (5002600731547 / 5000000000000) _ (213 / 409600) B3
                ltac:(lra) ltac:(lra) ltac:(lra)) as B4; clear B3.
  pose proof (exp_square_lower _ (10010405631709 / 10000000000000) _ (213 / 204800) B4
                ltac:(lra) ltac:(lra) ltac:(lra)) as B5; clear B4.
  pose proof (exp_square_lower _ (2004164418227 / 2000000000000) _ (213 / 102400) B5
                ltac:(lra) ltac:(lra) ltac:(lra)) as B6; clear B5.
  pose proof (exp_square_lower _ (10041687538217 / 10000000000000) _ (213 / 51200) B6
                ltac:(lra) ltac:(lra) ltac:(lra)) as B7; clear B6.
  pose proof (exp_square_lower _ (5041774430759 / 5000000000000) _ (213 / 25600) B7
                ltac:(lra) ltac:(lra) ltac:(lra)) as B8; clear B7.
  pose proof (exp_square_lower _ (5083897882131 / 5000000000000) _ (213 / 12800) B8
                ltac:(lra) ltac:(lra) ltac:(lra)) as B9; clear B8.
  pose proof (exp_square_lower _ (5169203535187 / 5000000000000) _ (213 / 6400) B9
                ltac:(lra) ltac:(lra) ltac:(lra)) as B10; clear B9.
  pose proof (exp_square_lower _ (427530643011 / 400000000000) _ (213 / 3200) B10
                ltac:(lra) ltac:(lra) ltac:(lra)) as B11; clear B10.
  pose proof (exp_square_lower _ (11423903169587 / 10000000000000) _ (213 / 1600) B11
                ltac:(lra) ltac:(lra) ltac:(lra)) as B12; clear B11.
  pose proof (exp_square_lower _ (13050556362809 / 10000000000000) _ (213 / 800) B12
                ltac:(lra) ltac:(lra) ltac:(lra)) as B13; clear B12.
  pose proof (exp_square_lower _ (3406340427577 / 2000000000000) _ (213 / 400) B13
                ltac:(lra) ltac:(lra) ltac:(lra)) as B14; clear B13.
  pose proof (exp_square_lower _ (29007887771363 / 10000000000000) _ (213 / 200) B14
                ltac:(lra) ltac:(lra) ltac:(lra)) as B15; clear B14.
  lra.
Qed.

Lemma exp_10645_upper : exp (2129 / 2000) <= (29 / 10).
Proof.
  pose proof (exp_below_inverse (2129 / 65536000) ltac:(lra)) as H0.
  assert (B0 : exp (2129 / 65536000) <= (10000324870173 / 10000000000000)) by lra. clear H0.
  pose proof (exp_square_upper _ (10000649750901 / 10000000000000) _ (2129 / 32768000) B0
                ltac:(lra) ltac:(lra)) as B1; clear B0.
  pose proof (exp_square_upper _ (500064977201 / 500000000000) _ (2129 / 16384000) B1
                ltac:(lra) ltac:(lra)) as B2; clear B1.
  pose proof (exp_square_upper _ (5001299628461 / 5000000000000) _ (2129 / 8192000) B2
                ltac:(lra) ltac:(lra)) as B3; clear B2.
  pose proof (exp_square_upper _ (5002599594729 / 5000000000000) _ (2129 / 4096000) B3
                ltac:(lra) ltac:(lra)) as B4; clear B3.
  pose proof (exp_square_upper _ (5005200541037 / 5000000000000) _ (2129 / 2048000) B4
                ltac:(lra) ltac:(lra)) as B5; clear B4.
  pose proof (exp_square_upper _ (10020812982399 / 10000000000000) _ (2129 / 1024000) B5
                ltac:(lra) ltac:(lra)) as B6; clear B5.
  pose proof (exp_square_upper _ (5020834641411 / 5000000000000) _ (2129 / 512000) B6
                ltac:(lra) ltac:(lra)) as B7; clear B6.
  pose proof (exp_square_upper _ (5041756099279 / 5000000000000) _ (2129 / 256000) B7
                ltac:(lra) ltac:(lra)) as B8; clear B7.
  pose proof (exp_square_upper _ (10167721825847 / 10000000000000) _ (2129 / 128000) B8
                ltac:(lra) ltac:(lra)) as B9; clear B8.
  pose proof (exp_square_upper _ (10338256712781 / 10000000000000) _ (2129 / 64000) B9
                ltac:(lra) ltac:(lra)) as B10; clear B9.
  pose proof (exp_square_upper _ (10687955185937 / 10000000000000) _ (2129 / 32000) B10
                ltac:(lra) ltac:(lra)) as B11; clear B10.
  pose proof (exp_square_upper _ (571161930283 / 500000000000) _ (2129 / 16000) B11
                ltac:(lra) ltac:(lra)) as B12; clear B11.
  pose proof (exp_square_upper _ (2609807604837 / 2000000000000) _ (2129 / 8000) B12
                ltac:(lra) ltac:(lra)) as B13; clear B12.
  pose proof (exp_square_upper _ (17027739335663 / 10000000000000) _ (2129 / 4000) B13
                ltac:(lra) ltac:(lra)) as B14; clear B13.
  pose proof (exp_square_upper _ (28994390688329 / 10000000000000) _ (2129 / 2000) B14
                ltac:(lra) ltac:(lra)) as B15; clear B14.
  lra.
Qed.

Lemma exp_7345_upper : exp (1469 / 200) <= 1559.
Proof.
  pose proof (exp_below_inverse (1469 / 6553600) ltac:(lra)) as H0.
  assert (B0 : exp (1469 / 6553600) <= (5001121009333 / 5000000000000)) by lra. clear H0.
  pose proof (exp_square_upper _ (10004484539997 / 10000000000000) _ (1469 / 3276800) B0
                ltac:(lra) ltac:(lra)) as B1; clear B0.
  pose proof (exp_square_upper _ (312780346597 / 312500000000) _ (1469 / 1638400) B1
                ltac:(lra) ltac:(lra)) as B2; clear B1.
  pose proof (exp_square_upper _ (626121889391 / 625000000000) _ (1469 / 819200) B2
                ltac:(lra) ltac:(lra)) as B3; clear B2.
  pose proof (exp_square_upper _ (10035932681589 / 10000000000000) _ (1469 / 409600) B3
                ltac:(lra) ltac:(lra)) as B4; clear B3.
  pose proof (exp_square_upper _ (10071994478939 / 10000000000000) _ (1469 / 204800) B4
                ltac:(lra) ltac:(lra)) as B5; clear B4.
  pose proof (exp_square_upper _ (5072253639189 / 5000000000000) _ (1469 / 102400) B5
                ltac:(lra) ltac:(lra)) as B6; clear B5.
  pose proof (exp_square_upper _ (10291102792107 / 10000000000000) _ (1469 / 51200) B6
                ltac:(lra) ltac:(lra)) as B7; clear B6.
  pose proof (exp_square_upper _ (2647669916943 / 2500000000000) _ (1469 / 25600) B7
                ltac:(lra) ltac:(lra)) as B8; clear B7.
  pose proof (exp_square_upper _ (1402031197817 / 1250000000000) _ (1469 / 12800) B8
                ltac:(lra) ltac:(lra)) as B9; clear B8.
  pose proof (exp_square_upper _ (6290212734887 / 5000000000000) _ (1469 / 6400) B9
                ltac:(lra) ltac:(lra)) as B10; clear B9.
  pose proof (exp_square_upper _ (7913355250027 / 5000000000000) _ (1469 / 3200) B10
                ltac:(lra) ltac:(lra)) as B11; clear B10.
  pose proof (exp_square_upper _ (6262119131313 / 2500000000000) _ (1469 / 1600) B11
                ltac:(lra) ltac:(lra)) as B12; clear B11.
  pose proof (exp_square_upper _ (62742617623611 / 10000000000000) _ (1469 / 800) B12
                ltac:(lra) ltac:(lra)) as B13; clear B12.
  pose proof (exp_square_upper _ (393663606626267 / 10000000000000) _ (1469 / 400) B13
                ltac:(lra) ltac:(lra)) as B14; clear B13.
  pose proof (exp_square_upper _ (15497103518200029 / 10000000000000) _ (1469 / 200) B14
                ltac:(lra) ltac:(lra)) as B15; clear B14.
  lra.
Qed.

Lemma exp_36725_upper : exp (1469 / 400) <= (201 / 5).
Proof.
  pose proof (exp_below_inverse (1469 / 3276800) ltac:(lra)) as H0.
  assert (B0 : exp (1469 / 3276800) <= (5002242521443 / 5000000000000)) by lra. clear H0.
  pose proof (exp_square_upper _ (10008972097333 / 10000000000000) _ (1469 / 1638400) B0
                ltac:(lra) ltac:(lra)) as B1; clear B0.
  pose proof (exp_square_upper _ (250448806113 / 250000000000) _ (1469 / 819200) B1
                ltac:(lra) ltac:(lra)) as B2; clear B1.
  pose proof (exp_square_upper _ (10035936717349 / 10000000000000) _ (1469 / 409600) B2
                ltac:(lra) ltac:(lra)) as B3; clear B2.
  pose proof (exp_square_upper _ (1259000322433 / 1250000000000) _ (1469 / 204800) B3
                ltac:(lra) ltac:(lra)) as B4; clear B3.
  pose proof (exp_square_upper _ (10144523596073 / 10000000000000) _ (1469 / 102400) B4
                ltac:(lra) ltac:(lra)) as B5; clear B4.
  pose proof (exp_square_upper _ (10291135899129 / 10000000000000) _ (1469 / 51200) B5
                ltac:(lra) ltac:(lra)) as B6; clear B5.
  pose proof (exp_square_upper _ (2118149561887 / 2000000000000) _ (1469 / 25600) B6
                ltac:(lra) ltac:(lra)) as B7; clear B6.
  pose proof (exp_square_upper _ (5608196958153 / 5000000000000) _ (1469 / 12800) B7
                ltac:(lra) ltac:(lra)) as B8; clear B7.
  pose proof (exp_square_upper _ (503229969943 / 400000000000) _ (1469 / 6400) B8
                ltac:(lra) ltac:(lra)) as B9; clear B8.
  pose proof (exp_square_upper _ (15827525165553 / 10000000000000) _ (1469 / 3200) B9
                ltac:(lra) ltac:(lra)) as B10; clear B9.
  pose proof (exp_square_upper _ (12525527643311 / 5000000000000) _ (1469 / 1600) B10
                ltac:(lra) ltac:(lra)) as B11; clear B10.
  pose proof (exp_square_upper _ (3137776854867 / 500000000000) _ (1469 / 800) B11
                ltac:(lra) ltac:(lra)) as B12; clear B11.
  pose proof (exp_square_upper _ (196912871818781 / 5000000000000) _ (1469 / 400) B12
                ltac:(lra) ltac:(lra)) as B13; clear B12.
  lra.
Qed.

Lemma exp_72885_lower : 1440 <= exp (14577 / 2000).
Proof.
  pose proof (exp_ineq1_le (14577 / 65536000)) as B0.
  pose proof (exp_square_lower _ (5002224521051 / 5000000000000) _ (14577 / 32768000) B0
                ltac:(lra) ltac:(lra) ltac:(lra)) as B1; clear B0.
  pose proof (exp_square_lower _ (10008900063601 / 10000000000000) _ (14577 / 16384000) B1
                ltac:(lra) ltac:(lra) ltac:(lra)) as B2; clear B1.
  pose proof (exp_square_lower _ (2003561609663 / 2000000000000) _ (14577 / 8192000) B2
                ltac:(lra) ltac:(lra) ltac:(lra)) as B3; clear B2.
  pose proof (exp_square_lower _ (1254455976161 / 1250000000000) _ (14577 / 4096000) B3
                ltac:(lra) ltac:(lra) ltac:(lra)) as B4; clear B3.
  pose proof (exp_square_lower _ (5035711347603 / 5000000000000) _ (14577 / 2048000) B4
                ltac:(lra) ltac:(lra) ltac:(lra)) as B5; clear B4.
  pose proof (exp_square_lower _ (10143355510551 / 10000000000000) _ (14577 / 1024000) B5
                ltac:(lra) ltac:(lra) ltac:(lra)) as B6; clear B5.
  pose proof (exp_square_lower _ (5144383050671 / 5000000000000) _ (14577 / 512000) B6
                ltac:(lra) ltac:(lra) ltac:(lra)) as B7; clear B6.
  pose proof (exp_square_lower _ (2646467697203 / 2500000000000) _ (14577 / 256000) B7
                ltac:(lra) ltac:(lra) ltac:(lra)) as B8; clear B7.
  pose proof (exp_square_lower _ (5603033017871 / 5000000000000) _ (14577 / 128000) B8
                ltac:(lra) ltac:(lra) ltac:(lra)) as B9; clear B8.
  pose proof (exp_square_lower _ (12557591599741 / 10000000000000) _ (14577 / 64000) B9
                ltac:(lra) ltac:(lra) ltac:(lra)) as B10; clear B9.
  pose proof (exp_square_lower _ (3942327669647 / 2500000000000) _ (14577 / 32000) B10
                ltac:(lra) ltac:(lra) ltac:(lra)) as B11; clear B10.
  pose proof (exp_square_lower _ (12433557963891 / 5000000000000) _ (14577 / 16000) B11
                ltac:(lra) ltac:(lra) ltac:(lra)) as B12; clear B11.
  pose proof (exp_square_lower _ (30918672728287 / 5000000000000) _ (14577 / 8000) B12
                ltac:(lra) ltac:(lra) ltac:(lra)) as B13; clear B12.
  pose proof (exp_square_lower _ (382385729311567 / 10000000000000) _ (14577 / 4000) B13
                ltac:(lra) ltac:(lra) ltac:(lra)) as B14; clear B13.
  pose proof (exp_square_lower _ (7310942299056949 / 5000000000000) _ (14577 / 2000) B14
                ltac:(lra) ltac:(lra) ltac:(lra)) as B15; clear B14.
  lra.
Qed.

Lemma exp_monotone (x y : R) : x <= y -> exp x <= exp y.
Proof.
  intros [H| ->]; [|lra]. now apply Rlt_le, exp_increasing.
Qed.

Lemma exp_le_inv (x y : R) : exp x <= exp y -> x <= y.
Proof.
  intro H. destruct (Rle_lt_dec x y) as [Hle|Hlt]; [exact Hle|].
  apply exp_increasing in Hlt. lra.
Qed.

Lemma skew_upper : skew <= 65 / 1000.
Proof.
  unfold skew.
  assert (H : exp (ln 2.9) <= exp (213 / 200)).
  { rewrite exp_ln by lra. pose proof exp_1065_lower. lra. }
  apply exp_le_inv in H. lra.
Qed.

Lemma skew_lower : 645 / 10000 <= skew.
Proof.
  unfold skew.
  assert (H : exp (2129 / 2000) <= exp (ln 2.9)).
  { rewrite exp_ln by lra. pose proof exp_10645_upper. lra. }
  apply exp_le_inv in H. lra.
Qed.

(** [2.9 ** x] against [exp]. *)
Lemma power_split (x : R) : exp (skew * x) * exp x = Rpower 2.9 x.
Proof.
  unfold Rpower, skew. rewrite <- exp_plus. f_equal. ring.
Qed.

(** The exact value of the expression, as a sum of two exponentials. *)
Lemma exact_value (x : R) :
  0.8 * two_exp x * (1.5 * exp x) = 1.2 * (Rpower 2.9 x + 1).
Proof.
  unfold two_exp. rewrite <- power_split, exp_Ropp.
  pose proof (exp_pos x) as Hp.
  assert (Hi : / exp x * exp x = 1) by (apply Rinv_l; lra).
  set (a := exp (skew * x)) in *. set (b := exp x) in *. set (i := / b) in *.
  clearbody a b i. nra.
Qed.

Lemma exact_quotient (x : R) :
  1.2 * (Rpower 2.9 x + 1) / (exp x * 1.5) = 0.8 * two_exp x.
Proof.
  pose proof (exact_value x) as H. pose proof (exp_pos x) as P.
  apply Rmult_eq_reg_r with (r := 1.5 * exp x); [|lra]. rewrite H. field. lra.
Qed.

Lemma rounded_within (u d e c : R) :
  0 <= u <= d -> 0 <= e -> rounded u e c ->
  e * (1 - d) <= c <= e * (1 + d).
Proof.
  intros Hu He H. unfold rounded in H. rewrite (Rabs_pos_eq e He) in H.
  assert (Hd : u * e <= d * e) by (apply Rmult_le_compat_r; lra).
  unfold Rabs in H. destruct (Rcase_abs (c - e)); lra.
Qed.

(** [ln] near 1. *)
Lemma ln_near_one (d : R) :
  0 <= d <= 1 / 2 -> ln (1 + d) <= d /\ - (2 * d) <= ln (1 - d) <= 0.
Proof.
  intro Hd. split; [|split].
  - apply exp_le_inv. rewrite exp_ln by lra. apply exp_ineq1_le.
  - apply exp_le_inv. rewrite exp_ln by lra.
    pose proof (exp_below_inverse (- (2 * d)) ltac:(lra)) as H.
    pose proof (exp_pos (- (2 * d))) as P. nra.
  - rewrite <- ln_1. destruct (Req_dec d 0) as [->|Hne].
    + replace (1 - 0) with 1 by lra. lra.
    + apply Rlt_le, ln_increasing; lra.
Qed.

(** The power with a rounded base. *)
Lemma Rpower_rounded_base (c x : R) :
  0 <= x <= 113 ->
  2.9 * (1 - 1 / 1000000) <= c <= 2.9 * (1 + 1 / 1000000) ->
  Rpower 2.9 x * (1 - 226 / 1000000) <= Rpower c x <= Rpower 2.9 x * (1 + 114 / 1000000).
Proof.
  intros Hx Hc.
  pose proof (ln_near_one (1 / 1000000) ltac:(lra)) as (Lu & Ll & Ll0).
  assert (Hpos : 0 < Rpower 2.9 x) by apply exp_pos.
  split.
  - apply Rle_trans with (Rpower (2.9 * (1 - 1 / 1000000)) x).
    + rewrite <- Rpower_mult_distr by lra.
      apply Rmult_le_compat_l; [lra|].
      unfold Rpower.
      pose proof (exp_ineq1_le (- (226 / 1000000))) as Hb.
      apply Rle_trans with (exp (- (226 / 1000000))); [lra|].
      apply exp_monotone. nra.
    + apply Rle_Rpower_l; lra.
  - apply Rle_trans with (Rpower (2.9 * (1 + 1 / 1000000)) x).
    + apply Rle_Rpower_l; lra.
    + rewrite <- Rpower_mult_distr by lra.
      apply Rmult_le_compat_l; [lra|].
      unfold Rpower.
      assert (H0 : 0 <= ln (1 + 1 / 1000000)).
      { rewrite <- ln_1. apply Rlt_le, ln_increasing; lra. }
      assert (Hle : x * ln (1 + 1 / 1000000) <= 113 / 1000000) by nra.
      pose proof (exp_below_inverse (113 / 1000000) ltac:(lra)) as Hb.
      pose proof (exp_pos (113 / 1000000)) as P.
      apply Rle_trans with (exp (113 / 1000000)); [|lra].
      now apply exp_monotone.
Qed.

(** What the code returns lies within a thousandth of the exact value. *)
Lemma humaniser_enclosure (u x y : R) :
  0 <= u <= 1 / 1000000 -> 0 <= x <= 113 -> humaniser_returns u x y ->
  0.999 * (0.8 * two_exp x) <= y <= 1.001 * (0.8 * two_exp x).
Proof.
  intros Hu Hx (c29 & c12 & c15 & pw & sum & num & ex & den &
                R29 & R12 & R15 & Rpw & Rsum & Rnum & Rex & Rden & Ry).
  pose proof (exact_value x) as Hexact.
  set (F := 0.8 * two_exp x) in *.
  assert (HF : 0 < F).
  { unfold F, two_exp. pose proof (exp_pos (skew * x)). pose proof (exp_pos (- x)). lra. }
  set (A := Rpower 2.9 x) in *.
  assert (HA : 0 < A) by apply exp_pos.
  set (E := exp x) in *.
  assert (HE : 0 < E) by apply exp_pos.
  apply (rounded_within u (1 / 1000000)) in R29; [|lra|lra].
  apply (rounded_within u (1 / 1000000)) in R12; [|lra|lra].
  apply (rounded_within u (1 / 1000000)) in R15; [|lra|lra].
  pose proof (Rpower_rounded_base c29 x Hx R29) as Ha. fold A in Ha.
  set (a := Rpower c29 x) in *.
  apply (rounded_within u (1 / 1000000)) in Rpw; [|lra|lra].
  apply (rounded_within u (1 / 1000000)) in Rsum; [|lra|lra].
  assert (Hprod : 1.2 * (1 - 1 / 1000000) * sum <= c12 * sum
                  <= 1.2 * (1 + 1 / 1000000) * sum).
  { split; apply Rmult_le_compat_r; lra. }
  apply (rounded_within u (1 / 1000000)) in Rnum; [|lra|lra].
  apply (rounded_within u (1 / 1000000)) in Rex; [|lra|lra].
  assert (Hprod2 : ex * (1.5 * (1 - 1 / 1000000)) <= ex * c15
                   <= ex * (1.5 * (1 + 1 / 1000000))).
  { split; apply Rmult_le_compat_l; lra. }
  apply (rounded_within u (1 / 1000000)) in Rden; [|lra|lra].
  assert (Hnum : 1.2 * (A + 1) * (1 - 3 / 10000) <= num
                 <= 1.2 * (A + 1) * (1 + 3 / 10000)) by lra.
  assert (Hden : 1.5 * E * (1 - 1 / 10000) <= den <= 1.5 * E * (1 + 1 / 10000)) by lra.
  assert (Hdpos : 0 < den) by nra.
  set (q := num / den) in *.
  assert (Hq : q * den = num) by (unfold q; field; lra).
  assert (Hbounds : F * (1 - 5 / 10000) <= q <= F * (1 + 5 / 10000)).
  { split.
    - apply Rmult_le_reg_r with (r := den); [exact Hdpos|]. rewrite Hq.
      apply Rle_trans with (F * (1 - 5 / 10000) * (1.5 * E * (1 + 1 / 10000))).
      + apply Rmult_le_compat_l; [nra|lra].
      + replace (F * (1 - 5 / 10000) * (1.5 * E * (1 + 1 / 10000)))
          with (F * (1.5 * E) * ((1 - 5 / 10000) * (1 + 1 / 10000))) by ring.
        rewrite Hexact. nra.
    - apply Rmult_le_reg_r with (r := den); [exact Hdpos|]. rewrite Hq.
      apply Rle_trans with (F * (1 + 5 / 10000) * (1.5 * E * (1 - 1 / 10000))).
      + replace (F * (1 + 5 / 10000) * (1.5 * E * (1 - 1 / 10000)))
          with (F * (1.5 * E) * ((1 + 5 / 10000) * (1 - 1 / 10000))) by ring.
        rewrite Hexact. nra.
      + apply Rmult_le_compat_l; [nra|lra]. }
  apply (rounded_within u (1 / 1000000)) in Ry; [|lra|lra].
  nra.
Qed.

(** The exact value over the lower part of the range. *)
Lemma two_exp_below (x X : R) :
  0 <= x <= X -> two_exp x <= exp (65 / 1000 * X) + 1.
Proof.
  intro Hx. unfold two_exp.
  pose proof skew_upper as Hu. pose proof skew_lower as Hl.
  assert (H1 : exp (skew * x) <= exp (65 / 1000 * X)) by (apply exp_monotone; nra).
  assert (H2 : exp (- x) <= 1) by (rewrite <- exp_0; apply exp_monotone; lra).
  lra.
Qed.

(** The exact values are among those the model allows, whatever the
    rounding. *)
Lemma humaniser_exact (u x : R) :
  0 <= u -> humaniser_returns u x (0.8 * two_exp x).
Proof.
  intro Hu.
  assert (Hr : forall e, rounded u e e).
  { intro e. unfold rounded. replace (e - e) with 0 by ring.
    rewrite Rabs_R0. pose proof (Rabs_pos e). nra. }
  exists 2.9, 1.2, 1.5, (Rpower 2.9 x), (Rpower 2.9 x + 1),
    (1.2 * (Rpower 2.9 x + 1)), (exp x), (exp x * 1.5).
  repeat (split; [apply Hr|]).
  rewrite <- exact_quotient. apply Hr.
Qed.

(** C9 as stated fails: the jitter is not a decreasing function of the
    sample. Whatever the rounding, the value returned for the sample 0 is
    at most 1.61 and the value returned for the sample 113 is at least
    1150. *)
Lemma humaniser_not_decreasing :
  exists x1 x2 : R,
    0 <= x1 /\ x1 <= x2 /\ x2 <= 113 /\
    (exists y1 y2, humaniser_returns (1 / 9007199254740992) x1 y1 /\
                   humaniser_returns (1 / 9007199254740992) x2 y2) /\
    forall u y1 y2 : R,
      0 <= u <= 1 / 1000000 ->
      humaniser_returns u x1 y1 -> humaniser_returns u x2 y2 ->
      y1 <= 1.61 /\ 1150 <= y2.
Proof.
  exists 0, 113. split; [lra|]. split; [lra|]. split; [lra|]. split.
  - exists (0.8 * two_exp 0), (0.8 * two_exp 113).
    split; apply humaniser_exact; lra.
  - intros u y1 y2 Hu H1 H2.
    apply humaniser_enclosure in H1; [|exact Hu|lra].
    apply humaniser_enclosure in H2; [|exact Hu|lra].
    split.
    + unfold two_exp in H1. replace (skew * 0) with 0 in H1 by ring.
      replace (- 0) with 0 in H1 by ring. rewrite exp_0 in H1. lra.
    + unfold two_exp in H2. pose proof skew_lower as Hl.
      assert (H : exp (14577 / 2000) <= exp (skew * 113)) by (apply exp_monotone; lra).
      pose proof exp_72885_lower. pose proof (exp_pos (Ropp 113)). lra.
Qed.

(** C9, as the code has it. For a sample [x] in [[0, 113]] and a rounding
    within a millionth, the jitter returned is within a thousandth of the
    exact value of [1.2 * (2.9^x + 1) / (e^x * 1.5)]; it is positive; it is
    at most 1250, a bounded maximum; and it is skewed toward small values:
    over the lower half of the range, from which half of the uniform
    samples come, it is at most 33, under a thirtieth of that maximum. *)
Theorem humaniser_shape (u x y : R) :
  0 <= u <= 1 / 1000000 -> 0 <= x <= 113 -> humaniser_returns u x y ->
  0.999 * (1.2 * (Rpower 2.9 x + 1) / (exp x * 1.5)) <= y
  <= 1.001 * (1.2 * (Rpower 2.9 x + 1) / (exp x * 1.5)) /\
  0 < y /\ y <= 1250 /\ (x <= 56.5 -> y <= 33).
Proof.
  intros Hu Hx Hret. rewrite exact_quotient.
  pose proof (humaniser_enclosure u x y Hu Hx Hret) as [Hlo Hhi].
  assert (Hpos : 0 < two_exp x).
  { unfold two_exp. pose proof (exp_pos (skew * x)). pose proof (exp_pos (- x)). lra. }
  split; [split; assumption|].
  split; [lra|]. split.
  - pose proof (two_exp_below x 113 Hx) as H.
    replace (65 / 1000 * 113) with (1469 / 200) in H by lra.
    pose proof exp_7345_upper. lra.
  - intro Hhalf. pose proof (two_exp_below x 56.5 ltac:(lra)) as H.
    replace (65 / 1000 * 56.5) with (1469 / 400) in H by lra.
    pose proof exp_36725_upper. lra.
Qed.

Lemma humaniser_shape_witness :
  0.999 * (1.2 * (Rpower 2.9 1 + 1) / (exp 1 * 1.5)) <= 0.8 * two_exp 1
  <= 1.001 * (1.2 * (Rpower 2.9 1 + 1) / (exp 1 * 1.5)) /\
  0 < 0.8 * two_exp 1 /\ 0.8 * two_exp 1 <= 1250 /\
  (1 <= 56.5 -> 0.8 * two_exp 1 <= 33).
Proof.
  apply (humaniser_shape (1 / 9007199254740992) 1 (0.8 * two_exp 1)).
  - lra.
  - lra.
  - apply humaniser_exact. lra.
Defined.

End Jitter.

(** ** Loading the environment file *)

Section LoadEnvFacts.

Variable storable : pystr -> pystr -> bool.

Lemma pystr_eqb_sym (a b : pystr) : pystr_eqb a b = pystr_eqb b a.
Proof.
  destruct (pystr_eqb a b) eqn:E.
  - apply pystr_eqb_eq in E. subst. now rewrite pystr_eqb_refl.
  - destruct (pystr_eqb b a) eqn:E'; [|reflexivity].
    apply pystr_eqb_eq in E'. subst. now rewrite pystr_eqb_refl in E.
Qed.

Lemma environ_get_set_same (k v : pystr) (e : environ) :
  environ_get k (environ_set k v e) = Some v.
Proof.
  induction e as [|[k' v'] e IH]; simpl.
  - now rewrite pystr_eqb_refl.
  - destruct (pystr_eqb k k') eqn:E; simpl.
    + now rewrite pystr_eqb_refl.
    + now rewrite E.
Qed.

Lemma environ_get_set_other (k k' v : pystr) (e : environ) :
  pystr_eqb k k' = false ->
  environ_get k (environ_set k' v e) = environ_get k e.
Proof.
  intro Hne. induction e as [|[k'' v''] e IH]; simpl.
  - now rewrite Hne.
  - destruct (pystr_eqb k' k'') eqn:E; simpl.
    + apply pystr_eqb_eq in E. subst k''. now rewrite Hne.
    + destruct (pystr_eqb k k''); auto.
Qed.

Lemma load_lines_skipped (line : pystr) (rest : list pystr) (ending : read_end)
    (e : environ) :
  skipped line = true ->
  load_lines storable (line :: rest) ending e = load_lines storable rest ending e.
Proof.
  unfold skipped. simpl. destruct (py_strip line); [reflexivity|].
  now intros ->.
Qed.

(** What the loop does with a line that makes an assignment. *)
Lemma load_lines_assignment (line k v : pystr) (rest : list pystr)
    (ending : read_end) (e : environ) :
  assignment_of line = Some (k, v) ->
  load_lines storable (line :: rest) ending e
  = if storable k v then load_lines storable rest ending (environ_set k v e)
    else StoreFailed e.
Proof.
  unfold assignment_of. simpl. destruct (py_strip line); [discriminate|].
  destruct (starts_with_hash line); [discriminate|].
  now intros ->.
Qed.

(** X19. Blank lines and lines that start with the hash sign have no
    effect: a reading that yields one such line more, all else equal, ends
    in the same way with the same environment. For a file that decodes,
    whose lines are those the reading yields, removing such a line from the
    file therefore changes nothing in what [load_env] does. *)
Theorem load_env_ignores_skipped (before after : list pystr) (line : pystr)
    (ending : read_end) (e : environ) :
  skipped line = true ->
  load_env storable (Opened (before ++ line :: after) ending) e
  = load_env storable (Opened (before ++ after) ending) e.
Proof.
  intro Hskip. unfold load_env. revert e.
  induction before as [|l before IH]; intro e.
  - now apply load_lines_skipped.
  - simpl. destruct (py_strip l); [apply IH|].
    destruct (starts_with_hash l); [apply IH|].
    destruct (split_once _) as [[key value]|]; [|reflexivity].
    destruct (storable key value); [apply IH|reflexivity].
Qed.

(** X20. When [load_env] returns, a variable that some line assigns holds
    the value of the last such line, and every other variable holds what
    it held before. *)
Theorem load_env_last_assignment_wins (lines : list pystr) (ending : read_end)
    (e e' : environ) (k : pystr) :
  load_env storable (Opened lines ending) e = Loaded e' ->
  environ_get k e'
  = match assigned k lines with
    | Some v => Some v
    | None => environ_get k e
    end.
Proof.
  unfold load_env. revert e. induction lines as [|line lines IH]; intro e.
  - simpl. destruct ending; [|discriminate]. now intros [= <-].
  - simpl. unfold assignment_of.
    destruct (py_strip line) as [|c t] eqn:Hs.
    + intro H. rewrite (IH _ H). now destruct (assigned k lines).
    + destruct (starts_with_hash line).
      * intro H. rewrite (IH _ H). now destruct (assigned k lines).
      * destruct (split_once (c :: t)) as [[key value]|]; [|discriminate].
        destruct (storable key value); [|discriminate].
        intro H. rewrite (IH _ H).
        destruct (assigned k lines); [reflexivity|].
        destruct (pystr_eqb k key) eqn:E.
        -- apply pystr_eqb_eq in E. subst. apply environ_get_set_same.
        -- now apply environ_get_set_other.
Qed.

(** X21. When the reading yields a line that is neither blank nor a
    comment and holds no equals sign, [load_env] raises [ValueError] at
    that line: the lines yielded before it have taken effect, and what
    would come after it, further lines or a decoding error, is not
    reached. *)
Theorem load_env_malformed_line (before after : list pystr) (line : pystr)
    (ending : read_end) (e e1 : environ) :
  load_env storable (Opened before EndOfFile) e = Loaded e1 ->
  skipped line = false ->
  split_once (py_strip line) = None ->
  load_env storable (Opened (before ++ line :: after) ending) e = UnpackFailed e1.
Proof.
  unfold load_env, skipped. intros Hbefore Hskip Hsplit. revert e Hbefore.
  induction before as [|l before IH]; intros e.
  - simpl. intros [= <-]. destruct (py_strip line); [discriminate|].
    now rewrite Hskip, Hsplit.
  - simpl. destruct (py_strip l) as [|c t]; [apply IH|].
    destruct (starts_with_hash l); [apply IH|].
    destruct (split_once (c :: t)) as [[key value]|]; [|intro H; discriminate H].
    destruct (storable key value); [apply IH|intro H; discriminate H].
Qed.

(** A file whose reading ends in a decoding error never loads: the lines
    yielded before the error take effect as they would in a file that ends
    there, and the error follows. *)
Lemma load_env_decode_error (lines : list pystr) (e e' : environ) :
  load_env storable (Opened lines EndOfFile) e = Loaded e' ->
  load_env storable (Opened lines DecodeError) e = ReadFailed e'.
Proof.
  unfold load_env. revert e. induction lines as [|line lines IH]; intro e; simpl.
  - now intros [= <-].
  - destruct (py_strip line) as [|c t]; [apply IH|].
    destruct (starts_with_hash line); [apply IH|].
    destruct (split_once (c :: t)) as [[key value]|]; [|discriminate].
    destruct (storable key value); [apply IH|discriminate].
Qed.

Lemma py_lstrip_spaces (ws s : pystr) :
  forallb py_isspace ws = true -> py_lstrip (ws ++ s) = py_lstrip s.
Proof.
  induction ws as [|c ws IH]; simpl; [reflexivity|].
  intro H. apply andb_true_iff in H as [Hc Hws]. rewrite Hc. now apply IH.
Qed.

Lemma py_lstrip_length (s : pystr) : (List.length (py_lstrip s) <= List.length s)%nat.
Proof.
  induction s as [|c s IH]; simpl; [lia|].
  destruct (py_isspace c); simpl; lia.
Qed.

Lemma py_lstrip_fixed_app (a b : pystr) :
  py_lstrip a = a -> a <> [] -> py_lstrip (a ++ b) = a ++ b.
Proof.
  destruct a as [|c a]; [contradiction|]. simpl. intros H _.
  destruct (py_isspace c); [|reflexivity].
  exfalso. pose proof (py_lstrip_length a) as Hlen. rewrite H in Hlen. simpl in Hlen. lia.
Qed.

Lemma py_rstrip_spaces (s ws : pystr) :
  forallb py_isspace ws = true -> py_rstrip (s ++ ws) = py_rstrip s.
Proof.
  intro H. unfold py_rstrip. rewrite rev_app_distr, py_lstrip_spaces; [reflexivity|].
  rewrite forallb_forall in *. intros c Hc. apply H. now apply in_rev.
Qed.

Lemma py_rstrip_fixed_app (a b : pystr) :
  py_rstrip b = b -> b <> [] -> py_rstrip (a ++ b) = a ++ b.
Proof.
  unfold py_rstrip. intros H Hne. rewrite rev_app_distr.
  rewrite py_lstrip_fixed_app.
  - now rewrite <- rev_app_distr, rev_involutive.
  - rewrite <- (rev_involutive (py_lstrip (rev b))), H. reflexivity.
  - intro E. apply Hne. rewrite <- (rev_involutive b), E. reflexivity.
Qed.

Lemma split_once_first (k v : pystr) :
  ~ In equals_sign k -> split_once (k ++ equals_sign :: v) = Some (k, v).
Proof.
  induction k as [|c k IH]; intro Hno; simpl.
  - reflexivity.
  - destruct (N.eqb_spec c equals_sign) as [->|Hne]; [exfalso; apply Hno; now left|].
    rewrite IH; [reflexivity|]. intro H. apply Hno. now right.
Qed.

(** The assignment of a line made of a key, an equals sign and a value,
    with white space around them. *)
Lemma assignment_of_line (indent k v ending : pystr) :
  forallb py_isspace indent = true -> forallb py_isspace ending = true ->
  py_lstrip k = k -> ~ In equals_sign k -> py_rstrip v = v ->
  (indent = [] -> starts_with_hash k = false) ->
  assignment_of (indent ++ k ++ equals_sign :: v ++ ending) = Some (k, v).
Proof.
  intros Hindent Hending Hk Hno Hv Hhash.
  assert (Hstrip : py_strip (indent ++ k ++ equals_sign :: v ++ ending)
                   = k ++ equals_sign :: v).
  { unfold py_strip. rewrite py_lstrip_spaces by assumption.
    assert (Hl : py_lstrip (k ++ equals_sign :: v ++ ending)
                 = k ++ equals_sign :: v ++ ending).
    { destruct k as [|c k']; [reflexivity|].
      now apply py_lstrip_fixed_app. }
    rewrite Hl.
    replace (k ++ equals_sign :: v ++ ending)
      with ((k ++ equals_sign :: v) ++ ending)
      by (rewrite <- app_assoc; reflexivity).
    rewrite py_rstrip_spaces by assumption.
    destruct v as [|c v'].
    - apply py_rstrip_fixed_app; [reflexivity|discriminate].
    - replace (k ++ equals_sign :: c :: v') with ((k ++ [equals_sign]) ++ c :: v')
        by (rewrite <- app_assoc; reflexivity).
      apply py_rstrip_fixed_app; [assumption|discriminate]. }
  unfold assignment_of. rewrite Hstrip.
  assert (Hfirst : starts_with_hash (indent ++ k ++ equals_sign :: v ++ ending) = false).
  { destruct indent as [|c indent'].
    - specialize (Hhash eq_refl). destruct k; [reflexivity|exact Hhash].
    - simpl in *. apply andb_true_iff in Hindent as [Hc _].
      destruct (N.eqb_spec c hash_sign) as [->|]; [discriminate Hc|reflexivity]. }
  rewrite Hfirst.
  destruct (k ++ equals_sign :: v) eqn:E; [destruct k; discriminate E|].
  rewrite <- E. now apply split_once_first.
Qed.

(** X22. When the reading yields a line made of a key, an equals sign and
    a value, with white space around them, [load_env] assigns the value to
    the key in [os.environ] and goes on with the lines that follow (or
    stops there if the platform refuses the assignment): the key is what
    precedes the first equals sign, the value all that follows it, further
    equals signs included, and the white space at the two ends of the line
    is dropped. A key may begin with the hash sign when the line is
    indented: only a hash sign in the first column makes a comment. So a
    file that is this one line leaves the variable set to the value. *)
Theorem load_env_line_shape (indent k v ending : pystr) (rest : list pystr)
    (last : read_end) (e : environ) :
  forallb py_isspace indent = true -> forallb py_isspace ending = true ->
  py_lstrip k = k -> ~ In equals_sign k -> py_rstrip v = v ->
  (indent = [] -> starts_with_hash k = false) ->
  let line := indent ++ k ++ equals_sign :: v ++ ending in
  load_env storable (Opened (line :: rest) last) e
  = (if storable k v
     then load_env storable (Opened rest last) (environ_set k v e)
     else StoreFailed e) /\
  (storable k v = true ->
   exists e', load_env storable (Opened [line] EndOfFile) e = Loaded e' /\
              environ_get k e' = Some v).
Proof.
  intros Hindent Hending Hk Hno Hv Hhash line.
  pose proof (assignment_of_line indent k v ending Hindent Hending Hk Hno Hv Hhash)
    as Hassign.
  fold line in Hassign. split.
  - unfold load_env. now apply load_lines_assignment.
  - intro Hst. exists (environ_set k v e). unfold load_env.
    rewrite (load_lines_assignment _ _ _ _ _ _ Hassign), Hst.
    split; [reflexivity|apply environ_get_set_same].
Qed.

End LoadEnvFacts.

(** ** The further properties at the reference parsers and example servers *)

Lemma extract_next_click_time_nonneg_witness : 0 <= 300000000.
Proof.
  apply (extract_next_click_time_nonneg Ref.json_loads Ref.fromisoformat
           page_five_minutes 300000000).
  vm_compute. reflexivity.
Defined.

Lemma extract_empty_block_witness :
  extract_next_click_time Ref.json_loads Ref.fromisoformat (counter_page (lit "[]"))
  = (Ok 0, []).
Proof.
  eapply (extract_empty_block Ref.json_loads Ref.fromisoformat
            (counter_page (lit "[]"))).
  - vm_compute. reflexivity.
  - vm_compute. reflexivity.
  - reflexivity.
Defined.

Lemma extract_missing_timestamp_witness :
  extract_next_click_time Ref.json_loads Ref.fromisoformat
    (counter_page (lit "[{" ++ quot "start-date" ++ lit ":"
                   ++ quot "2024-01-01T12:00:00+00:00" ++ lit "}]"))
  = (Ok 0, []).
Proof.
  eapply (extract_missing_timestamp Ref.json_loads Ref.fromisoformat).
  - vm_compute. reflexivity.
  - vm_compute. reflexivity.
  - right. vm_compute. exact I.
Defined.

Lemma get_game_state_cooldown_positive_witness :
  exists (st : GameState) (s' : State),
    get_game_state Ref.json_loads Ref.fromisoformat (env_game page_five_minutes)
      example_base in_session = (Ok (Some st), s') /\
    200 <= gs_status_code st < 300 /\
    match next_click_in_seconds st with
    | Some v => (0 < v)%Q
    | None => True
    end.
Proof.
  do 2 eexists. split.
  - vm_compute. reflexivity.
  - eapply (get_game_state_cooldown_positive Ref.json_loads Ref.fromisoformat
              (env_game page_five_minutes) example_base in_session).
    vm_compute. reflexivity.
Defined.

Lemma ref_json_loads_raises (t : pystr) (e : exn) :
  Ref.json_loads t = Raise e -> isinstance e RequestError = false.
Proof.
  unfold Ref.json_loads.
  destruct (Ref.parse_value _ t) as [[v rest]|]; [destruct (Ref.skip_ws rest)|];
    try discriminate; intros [= <-]; reflexivity.
Qed.

Lemma ref_fromisoformat_raises (t : pystr) (e : exn) :
  Ref.fromisoformat t = Raise e -> isinstance e RequestError = false.
Proof.
  unfold Ref.fromisoformat.
  destruct (Ref.parse_date t) as [[days [|c s']]|]; try discriminate;
    try (intros [= <-]; reflexivity).
  destruct (Ref.parse_hms s') as [[secs s'']|]; [|intros [= <-]; reflexivity].
  destruct (Ref.parse_offset s''); [discriminate|intros [= <-]; reflexivity].
Qed.

Lemma get_game_state_none_only_on_transport_failure_witness :
  exists e,
    http env_offline (tick in_session) (HttpGet (example_base ++ lit "/game/energy"))
    = Raise e /\
    isinstance e RequestError = true.
Proof.
  refine (get_game_state_none_only_on_transport_failure Ref.json_loads
            Ref.fromisoformat env_offline example_base in_session _ _ _ _).
  - exact ref_json_loads_raises.
  - exact ref_fromisoformat_raises.
  - vm_compute. reflexivity.
Defined.

Lemma extract_next_click_time_raises_only_witness :
  (exists t, Ref.json_loads t = Raise AttributeError) \/
  (exists t, Ref.fromisoformat t = Raise AttributeError) \/
  AttributeError = TypeError \/ AttributeError = AttributeError.
Proof.
  apply (extract_next_click_time_raises_only Ref.json_loads Ref.fromisoformat
           page_number_event AttributeError).
  vm_compute. reflexivity.
Defined.

Lemma operations_need_client_witness :
  login env_offline example_email example_password example_base
    (mkState O [] false false false 0)
  = (Raise RuntimeError, mkState O [] false false false 0) /\
  click env_offline example_base (mkState O [] false false false 0)
  = (Raise RuntimeError, mkState O [] false false false 0) /\
  get_game_state Ref.json_loads Ref.fromisoformat env_offline example_base
    (mkState O [] false false false 0)
  = (Raise RuntimeError, mkState O [] false false false 0).
Proof.
  apply (operations_need_client Ref.json_loads Ref.fromisoformat env_offline
           example_email example_password example_base
           (mkState O [] false false false 0)).
  reflexivity.
Defined.

Lemma login_true_spec_witness :
  exists s' : State,
    login (env_game page_no_counter) example_email example_password example_base
      in_session = (Ok true, s') /\
    cookies s' = true.
Proof.
  eexists. split; [vm_compute; reflexivity|].
  destruct (login_true_spec (env_game page_no_counter) example_email
              example_password example_base in_session _
              ltac:(vm_compute; reflexivity))
    as (page & landing_page & _ & _ & _ & _ & _ & _ & H).
  exact H.
Defined.

Lemma click_verdict_witness :
  exists resp,
    http (env_game page_no_counter) (tick in_session)
      (HttpPost (action_url example_base) [] example_base) = Ok resp /\
    (status_code resp = 200 \/ status_code resp = 302).
Proof.
  apply (proj1 (click_verdict (env_game page_no_counter) example_base in_session
                  eq_refl)).
  reflexivity.
Defined.

Lemma run_session_bracket_witness :
  exists s' : State,
    run Ref.json_loads Ref.fromisoformat (env_game page_no_counter) example_email
      example_password example_base (Some (1 # 2)) (Some 3) None 10
      (mkState O [] false false false 0) = Some (Ok tt, s') /\
    opens (trace s') = 1%nat /\ closes (trace s') = 1%nat.
Proof.
  eexists. split; [vm_compute; reflexivity|].
  destruct (run_session_bracket Ref.json_loads Ref.fromisoformat
              (env_game page_no_counter) example_email example_password
              example_base (Some (1 # 2)) (Some 3) None 10
              (mkState O [] false false false 0) _ (Ok tt)
              ltac:(vm_compute; reflexivity))
    as (inner & _ & _ & Ho & Hc).
  split; [exact Ho|exact Hc].
Defined.

Lemma run_respects_max_clicks_witness :
  exists s' : State,
    run Ref.json_loads Ref.fromisoformat (env_game page_no_counter) example_email
      example_password example_base (Some (1 # 2)) (Some 3) None 10
      (mkState O [] false false false 0) = Some (Ok tt, s') /\
    click_count s' <= 3.
Proof.
  eexists. split; [vm_compute; reflexivity|].
  apply (run_respects_max_clicks Ref.json_loads Ref.fromisoformat
           (env_game page_no_counter) example_email example_password
           example_base (Some (1 # 2)) (Some 3) None 10 3
           (mkState O [] false false false 0) _ (Ok tt)).
  - reflexivity.
  - lia.
  - simpl. lia.
  - vm_compute. reflexivity.
Defined.

Lemma run_counts_requests_witness :
  exists s' : State,
    run Ref.json_loads Ref.fromisoformat env_click_unreachable example_email
      example_password example_base (Some (1 # 2)) (Some 3) (Some 30%Q) 20
      (mkState O [] false false false 0) = Some (Ok tt, s') /\
    0 <= click_count s' /\
    click_count s' - 0 <= Z.of_nat (clicks_in example_base (trace s')) - 0.
Proof.
  eexists. split; [vm_compute; reflexivity|].
  apply (run_counts_requests Ref.json_loads Ref.fromisoformat
           env_click_unreachable example_email example_password
           example_base (Some (1 # 2)) (Some 3) (Some 30%Q) 20
           (mkState O [] false false false 0) _ (Ok tt)).
  vm_compute. reflexivity.
Defined.

Lemma run_with_cap_reached_witness :
  exists s' : State,
    run Ref.json_loads Ref.fromisoformat (env_game page_no_counter) example_email
      example_password example_base None (Some (-1)) None 1
      (mkState O [] false false false 0) = Some (Ok tt, s') /\
    click_count s' = 0 /\ clicks_in example_base (trace s') = O /\
    sleeps (trace s') = [].
Proof.
  eexists. split; [vm_compute; reflexivity|].
  apply (run_with_cap_reached Ref.json_loads Ref.fromisoformat
           (env_game page_no_counter) example_email example_password
           example_base None (Some (-1)) None 1 (-1)
           (mkState O [] false false false 0) _ (Ok tt)).
  - reflexivity.
  - lia.
  - simpl. lia.
  - vm_compute. reflexivity.
Defined.

Lemma run_interrupt_only_before_loop_witness :
  exists s' : State,
    run Ref.json_loads Ref.fromisoformat (server (fun _ => Raise KeyboardInterrupt))
      example_email example_password example_base None None None 5
      (mkState O [] false false false 0) = Some (Raise KeyboardInterrupt, s') /\
    click_count s' = 0 /\ clicks_in example_base (trace s') = O /\
    sleeps (trace s') = [].
Proof.
  eexists. split; [vm_compute; reflexivity|].
  apply (run_interrupt_only_before_loop Ref.json_loads Ref.fromisoformat
           (server (fun _ => Raise KeyboardInterrupt)) example_email
           example_password example_base None None None 5
           (mkState O [] false false false 0) _ KeyboardInterrupt).
  - vm_compute. reflexivity.
  - reflexivity.
Defined.

Lemma click_only_before_deadline_witness :
  (loop_time (env_game page_no_counter) (tick in_session) - 0 < 30)%Q.
Proof.
  eapply (click_only_before_deadline Ref.json_loads Ref.fromisoformat
            (env_game page_no_counter) example_base (Some (1 # 2)) (Some 3)
            30 0 in_session).
  - vm_compute. reflexivity.
  - intro H. discriminate H.
  - vm_compute. discriminate.
Defined.

Lemma load_env_ignores_skipped_witness :
  load_env (fun k _ => match k with [] => false | _ :: _ => true end)
    (Opened ([lit "A=1" ++ [newline]] ++ (lit "# B=2" ++ [newline])
             :: [lit "C=3" ++ [newline]]) EndOfFile) []
  = load_env (fun k _ => match k with [] => false | _ :: _ => true end)
      (Opened ([lit "A=1" ++ [newline]] ++ [lit "C=3" ++ [newline]]) EndOfFile) [].
Proof.
  apply (load_env_ignores_skipped
           (fun k _ => match k with [] => false | _ :: _ => true end)).
  reflexivity.
Defined.

Lemma load_env_last_assignment_wins_witness :
  environ_get (lit "A") [(lit "A", lit "2"); (lit "B", lit "x=y")]
  = match assigned (lit "A")
            [lit "A=1" ++ [newline]; lit "B=x=y" ++ [newline]; lit "A=2"] with
    | Some v => Some v
    | None => environ_get (lit "A") []
    end.
Proof.
  apply (load_env_last_assignment_wins
           (fun k _ => match k with [] => false | _ :: _ => true end)
           [lit "A=1" ++ [newline]; lit "B=x=y" ++ [newline]; lit "A=2"]
           EndOfFile []).
  vm_compute. reflexivity.
Defined.

Lemma load_env_malformed_line_witness :
  load_env (fun k _ => match k with [] => false | _ :: _ => true end)
    (Opened ([lit "A=1" ++ [newline]] ++ (lit "  # note" ++ [newline])
             :: [lit "C=3" ++ [newline]]) DecodeError) []
  = UnpackFailed [(lit "A", lit "1")].
Proof.
  apply (load_env_malformed_line
           (fun k _ => match k with [] => false | _ :: _ => true end)).
  - vm_compute. reflexivity.
  - vm_compute. reflexivity.
  - vm_compute. reflexivity.
Defined.

Lemma load_env_line_shape_witness :
  load_env (fun k _ => match k with [] => false | _ :: _ => true end)
    (Opened ((lit "  " ++ lit "CGJ_URL" ++ equals_sign :: lit "http://h/?a=b"
              ++ [newline]) :: [lit "# end"]) EndOfFile) []
  = Loaded [(lit "CGJ_URL", lit "http://h/?a=b")].
Proof.
  refine (eq_trans
            (proj1 (load_env_line_shape
                      (fun k _ => match k with [] => false | _ :: _ => true end)
                      (lit "  ") (lit "CGJ_URL") (lit "http://h/?a=b") [newline]
                      [lit "# end"] EndOfFile [] _ _ _ _ _ _)) _).
  - reflexivity.
  - reflexivity.
  - reflexivity.
  - intro H. simpl in H. repeat destruct H as [H|H]; try discriminate H. exact H.
  - vm_compute. reflexivity.
  - discriminate.
  - vm_compute. reflexivity.
Defined.
